(** * SIMOC agent model: storage and currency-exchange engine

    A shallow embedding of [agent_model/agents/core.py] (StorageAgent,
    GeneralAgent, PlantAgent).  Python floats are modelled by the
    rationals [Q] (exact arithmetic); Python ints by [Z] or [nat]; the
    dicts of an agent by stdpp's [gmap string _]; a Python [dict] whose
    iteration order matters by an association list with distinct keys.
    Exceptions raised by the code are the [Raise] case of [result]. *)

From Stdlib Require Import QArith Qminmax Qround Qabs Lqa ZArith List String Ascii.
From stdpp Require Import base gmap strings list.
Import ListNotations.

Open Scope Q_scope.

(** ** Python runtime *)

Inductive exn := KeyError | ValueError | IndexError | ZeroDivisionError | AttributeError.

Inductive result (A : Type) :=
| Ok (a : A)
| Raise (e : exn).
Arguments Ok {A} a.
Arguments Raise {A} e.

Definition rbind {A B} (m : result A) (k : A -> result B) : result B :=
  match m with Ok a => k a | Raise e => Raise e end.

Notation "'let*' x := m 'in' k" := (rbind m (fun x => k))
  (at level 200, x name, m at level 100, k at level 200).

(** [d[k]] on a dict: [KeyError] when absent. *)
Definition getitem {V} (m : gmap string V) (k : string) : result V :=
  match m !! k with Some v => Ok v | None => Raise KeyError end.

(** Python's [<] and [<=] on floats, as booleans. *)
Definition qlt (x y : Q) : bool := negb (Qle_bool y x).
Definition qle (x y : Q) : bool := Qle_bool x y.

(** Python's [sum] over a list of floats. *)
Definition qsum (l : list Q) : Q := fold_right Qplus 0 l.

(** The keys of a dict comprehension over a list: first occurrence wins. *)
Fixpoint dedup_go (seen : list string) (l : list string) : list string :=
  match l with
  | [] => []
  | x :: l' =>
      if bool_decide (x ∈ seen) then dedup_go seen l'
      else x :: dedup_go (x :: seen) l'
  end.

Definition dict_keys (l : list string) : list string := dedup_go [] l.

(** ** StorageAgent *)

(** The entries of [model.currency_dict] that the agent copied. *)
Inductive currency_type := TCurrency | TCurrencyClass | TOther.

Record currency_data := mkCurrencyData {
  cd_type : currency_type;
  cd_class : string;              (** ['class'] of a currency *)
  cd_currencies : list string     (** ['currencies'] of a currency class *)
}.

(** The attributes of a StorageAgent that [increment] reads and writes:
    [self['char_capacity_' + c]] is [st_capacity !! c], the balance
    [self[c]] is [st_balance !! c]. *)
Record storage := mkStorage {
  st_capacity : gmap string Q;
  st_balance : gmap string Q;
  st_amount : Z;
  st_currency_dict : gmap string currency_data
}.

Definition set_balance (s : storage) (c : string) (v : Q) : storage :=
  mkStorage (st_capacity s) (<[c := v]> (st_balance s)) (st_amount s)
            (st_currency_dict s).

(** [StorageAgent.view]: a dict [currency -> balance], as an association
    list in iteration order. [c in self] is "c is a balance attribute". *)
Definition view (s : storage) (v : string) : result (list (string * Q)) :=
  let* d := getitem (st_currency_dict s) v in
  match cd_type d with
  | TCurrency =>
      let* b := getitem (st_balance s) v in Ok [(v, b)]
  | TCurrencyClass =>
      let cs := dict_keys (filter (fun c => bool_decide (is_Some (st_balance s !! c)))
                                  (cd_currencies d)) in
      fold_right (fun c acc =>
        let* b := getitem (st_balance s) c in
        let* rest := acc in Ok ((c, b) :: rest)) (Ok []) cs
  | TOther => Raise KeyError
  end.

(** The loop of the negative branch:
    [for currency in currencies: ... self[currency] = currency_amount]. *)
Fixpoint decrement_loop (a : Q) (ratios : list (string * Q)) (s : storage)
  : result (storage * list (string * Q)) :=
  match ratios with
  | [] => Ok (s, [])
  | (c, r) :: rest =>
      let* cur := getitem (st_balance s) c in
      let currency_increment_target := a * r in
      let currency_amount := Qmax (cur + currency_increment_target) 0 in
      let currency_increment_actual := cur - currency_amount in
      let* res := decrement_loop a rest (set_balance s c currency_amount) in
      Ok (fst res, (c, currency_increment_actual) :: snd res)
  end.

(** [StorageAgent.increment]: the new storage and the returned dict. *)
Definition increment (s : storage) (v : string) (increment_amount : Q)
  : result (storage * list (string * Q)) :=
  if qlt 0 increment_amount then
    let currency := v in
    let* d := getitem (st_currency_dict s) currency in
    match cd_type d with
    | TCurrency =>
        let* cap := getitem (st_capacity s) currency in
        let capacity := cap * inject_Z (st_amount s) in
        let* cur := getitem (st_balance s) currency in
        let currency_amount := Qmin (cur + increment_amount) capacity in
        let currency_increment_actual := cur - currency_amount in
        Ok (set_balance s currency currency_amount,
            [(currency, currency_increment_actual)])
    | _ => Raise ValueError
    end
  else if qlt increment_amount 0 then
    let* currencies := view s v in
    let total_view_amount := qsum (map snd currencies) in
    (* [target_view_amount] is computed and never used. *)
    if qle total_view_amount 0 then Ok (s, map (fun '(c, _) => (c, 0)) currencies)
    else
      let ratios := map (fun '(c, b) => (c, b / total_view_amount)) currencies in
      decrement_loop increment_amount ratios s
  else Ok (s, []).

(** A sequence of [increment] calls.  [increment] raises before it
    writes any balance, so a call that raises leaves the storage as it
    was (the caller may catch the exception and go on). *)
Fixpoint increments (s : storage) (ops : list (string * Q)) : storage :=
  match ops with
  | [] => s
  | (v, a) :: ops' =>
      match increment s v a with
      | Ok r => increments (fst r) ops'
      | Raise _ => increments s ops'
      end
  end.

(** The bound [0 <= balance[c] <= capacity[c] * amount] for every
    currency with a declared capacity. *)
Definition storage_bounded (s : storage) : Prop :=
  forall c cap, st_capacity s !! c = Some cap ->
    exists b, st_balance s !! c = Some b /\ 0 <= b /\ b <= cap * inject_Z (st_amount s).

(** Writing several balances in order. *)
Fixpoint set_balances (s : storage) (l : list (string * Q)) : storage :=
  match l with
  | [] => s
  | (c, v) :: l' => set_balances (set_balance s c v) l'
  end.

(** The balance a member [b] of a view of total [t] is left with by a
    decrement of [a]: [max(b + a * (b / t), 0)]. *)
Definition decrement_member (a t b : Q) : Q := Qmax (b + a * (b / t)) 0.

(** Concrete storages: a water tank with the currencies [potable] and
    [grey] of the class [water]. *)
Definition water_currency_dict : gmap string currency_data :=
  <["water" := mkCurrencyData TCurrencyClass "" ["potable"; "grey"]]>
  (<["potable" := mkCurrencyData TCurrency "water" []]>
  (<["grey" := mkCurrencyData TCurrency "water" []]> ∅)).

Definition water_tank (potable grey : Q) : storage :=
  mkStorage (<["potable" := 100]> (<["grey" := 100]> ∅))
            (<["potable" := potable]> (<["grey" := grey]> ∅))
            1 water_currency_dict.

(** ** GeneralAgent: events, criteria gate and step values *)

(** Python's slice [l[:k]] for an int [k]. *)
Definition py_slice_upto {A} (l : list A) (k : Z) : list A :=
  if (0 <=? k)%Z then firstn (Z.to_nat k) l
  else firstn (Z.to_nat (Z.of_nat (length l) + k)) l.

(** One event instance: [dict(magnitude=...)] with an optional
    ['duration'] key. *)
Record instance := mkInstance {
  inst_magnitude : Q;
  inst_duration : option Q
}.

(** The fields of [attr_details['event_<type>']] that [_process_event]
    reads.  A variation is [(upper, lower, distribution)]. *)
Record event_details := mkEventDetails {
  ev_duration_delta_per_step : Q;
  ev_scope : string;
  ev_probability_per_step : Q;
  ev_magnitude_value : Q;
  ev_magnitude_variation : option (Q * Q * string);
  ev_duration_value : option Q;
  ev_duration_variation : option (Q * Q * string)
}.

(** The event records of an agent: [self.events], [self.event_multipliers]. *)
Record event_state := mkEventState {
  es_events : gmap string (list instance);
  es_multipliers : gmap string Q
}.

Section RandomState.

(** [model.random_state]: [rand()] and [variation_func.get_variable]
    (the latter lives outside this module) draw from it. *)
Context {rng : Type}.
Variable rand : rng -> Q * rng.
Variable get_variable : rng -> Q -> Q -> string -> Q * rng.

Definition age_instance (delta : Q) (i : instance) : instance :=
  match inst_duration i with
  | Some d => mkInstance (inst_magnitude i) (Some (d - delta))
  | None => i
  end.

Definition instance_alive (i : instance) : bool :=
  match inst_duration i with Some d => negb (qle d 0) | None => true end.

(** The body of [for i in range(max_new_instances)]: the instances so
    far, whether [kill] was called, and the random state. *)
Definition new_instance (attr_value : string) (ad : event_details) (r : rng)
  : option instance * bool * rng :=
  let '(instance_variable, r) := rand r in
  if qlt (ev_probability_per_step ad) instance_variable then (None, false, r)
  else if String.eqb attr_value "termination" then (None, true, r)
  else if String.eqb attr_value "multiplier" then
    let '(magnitude, r) :=
      match ev_magnitude_variation ad with
      | Some (up, lo, dist) =>
          let '(mv, r) := get_variable r up lo dist in (ev_magnitude_value ad * mv, r)
      | None => (ev_magnitude_value ad, r)
      end in
    match ev_duration_value ad with
    | Some duration =>
        let '(duration, r) :=
          match ev_duration_variation ad with
          | Some (up, lo, dist) =>
              let '(dv, r) := get_variable r up lo dist in (duration * dv, r)
          | None => (duration, r)
          end in
        (Some (mkInstance magnitude (Some duration)), false, r)
    | None => (Some (mkInstance magnitude None), false, r)
    end
  else (None, false, r).

Fixpoint new_instances (n : nat) (attr_value : string) (ad : event_details)
    (instances : list instance) (killed : bool) (r : rng)
  : list instance * bool * rng :=
  match n with
  | O => (instances, killed, r)
  | S n' =>
      let '(oi, k, r) := new_instance attr_value ad r in
      let instances := match oi with Some i => instances ++ [i] | None => instances end in
      new_instances n' attr_value ad instances (killed || k) r
  end.

(** [GeneralAgent._process_event]: the new event records, whether the
    agent was killed, and the random state.  ([duration_value] is set
    exactly when [_init_events] set [duration_delta_per_step].) *)
Definition process_event (event_type attr_value : string) (ad : event_details)
    (amount : Z) (es : event_state) (r : rng)
  : result (event_state * bool * rng) :=
  let instances := default [] (es_events es !! event_type) in
  let instances := map (age_instance (ev_duration_delta_per_step ad)) instances in
  let instances := filter instance_alive instances in
  let instances :=
    if (amount <? Z.of_nat (length instances))%Z then py_slice_upto instances amount
    else instances in
  let max_instances := if String.eqb (ev_scope ad) "group" then 1%Z else amount in
  let max_new_instances := (max_instances - Z.of_nat (length instances))%Z in
  let '(instances, killed, r) :=
    new_instances (Z.to_nat max_new_instances) attr_value ad instances false r in
  if (length instances =? 0)%nat then
    match es_events es !! event_type with
    | Some _ =>
        let* _ := getitem (es_multipliers es) event_type in
        Ok (mkEventState (delete event_type (es_events es))
                         (delete event_type (es_multipliers es)), killed, r)
    | None => Ok (es, killed, r)
    end
  else
    let modified := qsum (map inst_magnitude instances) in
    let unmodified := inject_Z (max_instances - Z.of_nat (length instances)) in
    let event_multiplier := (modified + unmodified) / inject_Z max_instances in
    Ok (mkEventState (<[event_type := instances]> (es_events es))
                     (<[event_type := event_multiplier]> (es_multipliers es)), killed, r).

End RandomState.

(** The well-formedness of the records of one event type: the two maps
    have an entry for it together, and a ['group'] event has at most one
    instance. *)
Definition event_wf (event_type : string) (ad : event_details) (es : event_state) : Prop :=
  (is_Some (es_events es !! event_type) <-> is_Some (es_multipliers es !! event_type)) /\
  (String.eqb (ev_scope ad) "group" = true ->
     (length (default [] (es_events es !! event_type)) <= 1)%nat).

(** The number of slots of an event: 1 for a ['group'] event, [amount]
    for an ['individual'] one. *)
Definition event_slots (ad : event_details) (amount : Z) : Z :=
  if String.eqb (ev_scope ad) "group" then 1%Z else amount.

(** The criteria fields of [attr_details[attr]] read by [_get_step_value].
    A falsy [criteria_name] (None or "") is [None]. *)
Record criteria_details := mkCriteriaDetails {
  fd_criteria_name : option string;
  fd_criteria_limit : string;
  fd_criteria_value : option Q;
  fd_criteria_buffer : option Q
}.

(** [{'>': operator.gt, '<': operator.lt, '=': operator.eq}[cr_limit]] *)
Definition criteria_op (cr_limit : string) : result (Q -> Q -> bool) :=
  if String.eqb cr_limit ">" then Ok (fun x y => qlt y x)
  else if String.eqb cr_limit "<" then Ok qlt
  else if String.eqb cr_limit "=" then Ok Qeq_bool
  else Raise KeyError.

(** The curve lookup at the end of [_get_step_value]; [day_length_hours]
    is [int(self.model.day_length_hours)]. *)
Definition lookup_step_value (step_values : list Q) (day_length_hours : nat)
    (step_num : nat) : result Q :=
  let* step_num :=
    if (length step_values <=? step_num)%nat then
      if (day_length_hours =? 0)%nat then Raise ZeroDivisionError
      else Ok (step_num mod day_length_hours)%nat
    else Ok step_num in
  match nth_error step_values step_num with
  | Some v => Ok v
  | None => Raise IndexError
  end.

(** [GeneralAgent._get_step_value]: the step value (its magnitude) and
    the new [self.buffer].  [source] is [self[cr_name]] when the agent has
    that attribute and [self._get_storage_ratio(cr_name)] otherwise. *)
Definition get_step_value (fd : criteria_details) (source : Q)
    (buffer : gmap string Q) (attr : string) (step_values : list Q)
    (day_length_hours : nat) (step_num : nat) : result (Q * gmap string Q) :=
  match fd_criteria_name fd with
  | Some _ =>
      let cr_value := default 0 (fd_criteria_value fd) in
      let cr_buffer := default 0 (fd_criteria_buffer fd) in
      let* opp := criteria_op (fd_criteria_limit fd) in
      if opp source cr_value then
        if qlt 0 cr_buffer && qlt 0 (default 0 (buffer !! attr)) then
          let* b := getitem buffer attr in
          Ok (0, <[attr := b - 1]> buffer)
        else
          let* v := lookup_step_value step_values day_length_hours step_num in
          Ok (v, buffer)
      else
        Ok (0, if qlt 0 cr_buffer then <[attr := cr_buffer]> buffer else buffer)
  | None =>
      let* v := lookup_step_value step_values day_length_hours step_num in
      Ok (v, buffer)
  end.

(** A criteria on [growth_rate > 0.5] with a grace buffer of 2 steps. *)
Definition growth_criteria : criteria_details :=
  mkCriteriaDetails (Some "growth_rate") ">" (Some (1 # 2)) (Some 2).

(** ** GeneralAgent.step *)

Inductive direction := In | Out.

Definition direction_name (d : direction) : string :=
  match d with In => "in" | Out => "out" end.

(** [attrs[attr]] and the fields of [attr_details[attr]] of a flow
    attribute [attr = '<in|out>_<currency>'] that [step] reads.
    [fa_criteria_source] is the value the criteria compares (an attribute
    of the agent or a cached storage ratio, both fixed during a step). *)
Record flow_attr := mkFlowAttr {
  fa_value : Q;
  fa_requires : list string;
  fa_is_required : option string;
  fa_deprive_value : Q;            (** [get('deprive_value') or 0] *)
  fa_delta_per_step : Q;           (** [get('delta_per_step', 0)] *)
  fa_criteria : criteria_details;
  fa_criteria_source : Q;
  fa_step_values : list Q          (** [self.step_values[attr]] *)
}.

(** The attributes the first loop of [step] acts on, in [attrs] order:
    [char_threshold_<type>_<currency>], [char_custom_function] and
    [event_<type>]; every other attribute is [AOther]. *)
Inductive step_attr :=
| AThreshold (threshold_type currency : string) (limit : Q)
| ACustomFunction (name : string)
| AEvent (event_type attr_value : string) (details : event_details)
| AOther.

(** What does not change during a step. *)
Record agent_config := mkAgentConfig {
  ag_type : string;
  ag_attrs : list step_attr;
  ag_selected_in : list (string * list string);   (** [selected_storage['in']] *)
  ag_selected_out : list (string * list string);  (** [selected_storage['out']] *)
  ag_flows : gmap string flow_attr;
  ag_step_variation : option (Q * Q * string);
  ag_process_events : bool
}.

Record agent := mkAgent {
  ag_cfg : agent_config;
  ag_age : Q;
  ag_amount : Z;
  ag_active : bool;
  ag_buffer : gmap string Q;
  ag_deprive : gmap string Q;
  ag_step_variable : Q;
  ag_events : event_state;
  ag_missing_desired : bool
}.

Definition set_age (a : agent) (x : Q) : agent :=
  mkAgent (ag_cfg a) x (ag_amount a) (ag_active a) (ag_buffer a) (ag_deprive a)
          (ag_step_variable a) (ag_events a) (ag_missing_desired a).
Definition set_amount (a : agent) (x : Z) : agent :=
  mkAgent (ag_cfg a) (ag_age a) x (ag_active a) (ag_buffer a) (ag_deprive a)
          (ag_step_variable a) (ag_events a) (ag_missing_desired a).
Definition set_buffer (a : agent) (x : gmap string Q) : agent :=
  mkAgent (ag_cfg a) (ag_age a) (ag_amount a) (ag_active a) x (ag_deprive a)
          (ag_step_variable a) (ag_events a) (ag_missing_desired a).
Definition set_deprive (a : agent) (x : gmap string Q) : agent :=
  mkAgent (ag_cfg a) (ag_age a) (ag_amount a) (ag_active a) (ag_buffer a) x
          (ag_step_variable a) (ag_events a) (ag_missing_desired a).
Definition set_step_variable (a : agent) (x : Q) : agent :=
  mkAgent (ag_cfg a) (ag_age a) (ag_amount a) (ag_active a) (ag_buffer a)
          (ag_deprive a) x (ag_events a) (ag_missing_desired a).
Definition set_events (a : agent) (x : event_state) : agent :=
  mkAgent (ag_cfg a) (ag_age a) (ag_amount a) (ag_active a) (ag_buffer a)
          (ag_deprive a) (ag_step_variable a) x (ag_missing_desired a).
Definition set_missing_desired (a : agent) (x : bool) : agent :=
  mkAgent (ag_cfg a) (ag_age a) (ag_amount a) (ag_active a) (ag_buffer a)
          (ag_deprive a) (ag_step_variable a) (ag_events a) x.

(** [kill] / [destroy]: [self.active = False] (and removal from the model). *)
Definition kill (a : agent) : agent :=
  mkAgent (ag_cfg a) (ag_age a) (ag_amount a) false (ag_buffer a)
          (ag_deprive a) (ag_step_variable a) (ag_events a) (ag_missing_desired a).

(** One entry of [available_conns]. *)
Record conn := mkConn {
  conn_agent : string;     (** the storage's [agent_type] *)
  conn_value : Q;
  conn_capacity : Q
}.

(** Step 7: [available_conns] of the connected storages of a currency. *)
Fixpoint available_conns (currency : string) (selected : list string)
    (storages : gmap string storage) : result (list conn) :=
  match selected with
  | [] => Ok []
  | sid :: rest =>
      let* st := getitem storages sid in
      let* vw := view st currency in
      let storage_value := qsum (map snd vw) in
      let* storage_cap := getitem (st_capacity st) currency in
      let* conns := available_conns currency rest storages in
      Ok (mkConn sid storage_value (storage_cap * inject_Z (st_amount st)) :: conns)
  end.

(** Step 9: the exchange with each connected storage, in order; [n] is
    [len(available_conns)].  Returns the storages and each [conn_delta]. *)
Fixpoint process_exchange (prefix : direction) (currency : string) (n : nat)
    (remaining_value : Q) (conns : list conn) (storages : gmap string storage)
  : result (gmap string storage * list (string * Q)) :=
  match conns with
  | [] => Ok (storages, [])
  | c :: rest =>
      let* st := getitem storages (conn_agent c) in
      let conn_delta :=
        match prefix with
        | In => Qmin remaining_value (conn_value c)
        | Out => remaining_value / inject_Z (Z.of_nat n)
        end in
      let* r := increment st currency
                  (match prefix with In => - conn_delta | Out => conn_delta end) in
      let* res := process_exchange prefix currency n (remaining_value - conn_delta) rest
                    (<[conn_agent c := fst r]> storages) in
      Ok (fst res, (conn_agent c, conn_delta) :: snd res)
  end.

(** Steps 8.1 and 8.2: the deficit of a flow. *)
Inductive deficit_outcome :=
| DAbort                                              (** mandatory: [return] *)
| DKilled (amount : Z) (deprive : gmap string Q)      (** [kill]; [return] *)
          (missing_desired : bool)
| DContinue (actual_value : Q) (amount : Z) (deprive : gmap string Q)
            (missing_desired : bool).

Definition update_deficit (prefix : direction) (fa : flow_attr) (attr : string)
    (available_value target_value step_mag : Q) (amount : Z)
    (deprive : gmap string Q) (missing_desired : bool) : result deficit_outcome :=
  let has_deficit :=
    match prefix with In => qlt available_value target_value | Out => false end in
  let is_required := fa_is_required fa in
  if has_deficit && bool_decide (is_required = Some "mandatory") then Ok DAbort
  else
  let missing_desired :=
    if has_deficit && bool_decide (is_required = Some "desired") then true
    else missing_desired in
  let deprive_value := fa_deprive_value fa in
  if has_deficit && qlt 0 deprive_value then
    if Qeq_bool step_mag 0 then Raise ZeroDivisionError else
    let n_satisfied := Qfloor (available_value / step_mag) in
    let actual_value := inject_Z n_satisfied * step_mag in
    let delta_per_step := fa_delta_per_step fa in
    let* d := getitem deprive attr in
    if Qeq_bool delta_per_step 0 then Raise ZeroDivisionError else
    let max_survive := Qfloor (Qmax d 0 / delta_per_step) in
    let n_deprived := (amount - n_satisfied)%Z in
    let n_survive := Z.min n_deprived max_survive in
    let deprive := <[attr := d - delta_per_step * inject_Z n_survive]> deprive in
    let n_die := (n_deprived - n_survive)%Z in
    let amount := (amount - n_die)%Z in
    if (amount <=? 0)%Z then Ok (DKilled amount deprive missing_desired)
    else Ok (DContinue actual_value amount deprive missing_desired)
  else if qlt 0 deprive_value then
    let* d := getitem deprive attr in
    Ok (DContinue target_value amount
          (<[attr := Qmin (deprive_value * inject_Z amount) (d + deprive_value)]> deprive)
          missing_desired)
  else Ok (DContinue target_value amount deprive missing_desired).

Section Step.

Context {rng : Type}.
Variable rand : rng -> Q * rng.
Variable get_variable : rng -> Q -> Q -> string -> Q * rng.

(** The shared model: connected storages by [agent_type], the cached
    [storage_ratios], the clock and the random state. *)
Record model_state := mkModelState {
  ms_storages : gmap string storage;
  ms_storage_ratios : gmap string (gmap string Q);
  ms_hours_per_step : Q;
  ms_day_length_hours : nat;     (** [int(model.day_length_hours)] *)
  ms_random_state : rng
}.

Definition set_storages (m : model_state) (x : gmap string storage) : model_state :=
  mkModelState x (ms_storage_ratios m) (ms_hours_per_step m) (ms_day_length_hours m)
               (ms_random_state m).
Definition set_random_state (m : model_state) (x : rng) : model_state :=
  mkModelState (ms_storages m) (ms_storage_ratios m) (ms_hours_per_step m)
               (ms_day_length_hours m) x.

(** [custom_funcs.<name>] (a module outside this file); [None] when the
    name is unknown ([getattr] raises). *)
Variable custom_function : string -> option (agent -> model_state -> result (agent * model_state)).

(** Whether the first loop of [step] returned early. *)
Inductive loop_status := Continue | Returned.

(** Step 1 for one [char_threshold_<type>_<currency>] attribute. *)
Fixpoint threshold_storages (threshold_type currency : string) (limit : Q)
    (sids : list string) (m : model_state) : result bool :=
  match sids with
  | [] => Ok false
  | sid :: rest =>
      let* ratios := getitem (ms_storage_ratios m) sid in
      let* storage_ratio := getitem ratios (String.append currency "_ratio") in
      let* opp :=
        if String.eqb threshold_type "upper" then Ok (fun x y => qlt y x)
        else if String.eqb threshold_type "lower" then Ok qlt
        else Raise KeyError in
      if opp storage_ratio limit then Ok true
      else threshold_storages threshold_type currency limit rest m
  end.

Definition threshold_met (a : agent) (threshold_type currency : string) (limit : Q)
    (m : model_state) : result bool :=
  let check sel :=
    match list_to_map (M := gmap string (list string)) sel !! currency with
    | Some sids => threshold_storages threshold_type currency limit sids m
    | None => Ok false
    end in
  let* met_in := check (ag_selected_in (ag_cfg a)) in
  if met_in then Ok true else check (ag_selected_out (ag_cfg a)).

(** Steps 1 to 3: the loop over [self.attrs]. *)
Fixpoint attrs_loop (attrs : list step_attr) (a : agent) (m : model_state)
  : result (loop_status * agent * model_state) :=
  match attrs with
  | [] => Ok (Continue, a, m)
  | AThreshold threshold_type currency limit :: rest =>
      let* met := threshold_met a threshold_type currency limit m in
      if met then Ok (Returned, kill a, m) else attrs_loop rest a m
  | ACustomFunction name :: rest =>
      match custom_function name with
      | Some f => let* r := f a m in attrs_loop rest (fst r) (snd r)
      | None => Raise AttributeError
      end
  | AEvent event_type attr_value ad :: rest =>
      if ag_process_events (ag_cfg a) then
        let* r := process_event rand get_variable event_type attr_value ad
                    (ag_amount a) (ag_events a) (ms_random_state m) in
        let '(es, killed, rs) := r in
        let a := set_events a es in
        let a := if killed then kill a else a in
        attrs_loop rest a (set_random_state m rs)
      else attrs_loop rest a m
  | AOther :: rest => attrs_loop rest a m
  end.

(** [np.prod(list(self.event_multipliers.values()))] *)
Definition multipliers_product (es : event_state) : Q :=
  map_fold (fun _ v acc => v * acc) 1 (es_multipliers es).

(** Steps 5 to 9 for one flow; [None] when [step] returns. *)
Definition flow_step (prefix : direction) (currency : string) (sids : list string)
    (a : agent) (m : model_state) (influx : list string)
  : result (option (agent * model_state * list string) * agent * model_state) :=
  let attr := String.append (direction_name prefix) (String.append "_" currency) in
  let* fa := getitem (ag_flows (ag_cfg a)) attr in
  if Qeq_bool (fa_value fa) 0 then Ok (Some (a, m, influx), a, m) else
  if negb (forallb (fun r => bool_decide (r ∈ influx)) (fa_requires fa))
  then Ok (Some (a, m, influx), a, m) else
  let step_num := Z.to_nat (Qfloor (ag_age a)) in
  let* sv := get_step_value (fa_criteria fa) (fa_criteria_source fa) (ag_buffer a)
               attr (fa_step_values fa) (ms_day_length_hours m) step_num in
  let '(step_value, buffer) := sv in
  let a := set_buffer a buffer in
  let step_mag := step_value * ag_step_variable a * multipliers_product (ag_events a) in
  let target_value := step_mag * inject_Z (ag_amount a) in
  let* conns := available_conns currency sids (ms_storages m) in
  let available_value := qsum (map conn_value conns) in
  let* o := update_deficit prefix fa attr available_value target_value step_mag
              (ag_amount a) (ag_deprive a) (ag_missing_desired a) in
  match o with
  | DAbort => Ok (None, a, m)
  | DKilled amount deprive missing_desired =>
      let a := kill (set_missing_desired (set_deprive (set_amount a amount) deprive)
                       missing_desired) in Ok (None, a, m)
  | DContinue actual_value amount deprive missing_desired =>
      let a := set_missing_desired (set_deprive (set_amount a amount) deprive)
                 missing_desired in
      let* r := process_exchange prefix currency (length conns) actual_value conns
                  (ms_storages m) in
      let m := set_storages m (fst r) in
      (* [value_eps = 1e-12]: smaller exchanges are not logged. *)
      let influx :=
        match prefix, conns with
        | In, _ :: _ => if qlt actual_value (1 # 1000000000000) then influx
                        else currency :: influx
        | _, _ => influx
        end in
      Ok (Some (a, m, influx), a, m)
  end.

Fixpoint flows_loop (prefix : direction) (sel : list (string * list string))
    (a : agent) (m : model_state) (influx : list string)
  : result (option (agent * model_state * list string) * agent * model_state) :=
  match sel with
  | [] => Ok (Some (a, m, influx), a, m)
  | (currency, sids) :: rest =>
      let* r := flow_step prefix currency sids a m influx in
      match r with
      | (Some (a, m, influx), _, _) => flows_loop prefix rest a m influx
      | (None, a, m) => Ok (None, a, m)
      end
  end.

(** [GeneralAgent.step]: the agent and the model after one step. *)
Definition step (a : agent) (m : model_state) : result (agent * model_state) :=
  let a := set_age a (ag_age a + ms_hours_per_step m) in
  let* r := attrs_loop (ag_attrs (ag_cfg a)) a m in
  match r with
  | (Returned, a, m) => Ok (a, m)
  | (Continue, a, m) =>
      let '(a, m) :=
        match ag_step_variation (ag_cfg a) with
        | Some (upper, lower, distribution) =>
            let '(v, rs) := get_variable (ms_random_state m) upper lower distribution in
            (set_step_variable a v, set_random_state m rs)
        | None => (a, m)
        end in
      let a := set_missing_desired a false in
      let* r := flows_loop In (ag_selected_in (ag_cfg a)) a m [] in
      match r with
      | (Some (a, m, influx), _, _) =>
          let* r := flows_loop Out (ag_selected_out (ag_cfg a)) a m influx in
          Ok (snd (fst r), snd r)
      | (None, a, m) => Ok (a, m)
      end
  end.

End Step.

(** ** PlantAgent._calculate_co2_scale *)

(** [attr.split('_', 1)]: the text before the first ['_'] and the rest. *)
Fixpoint split_once (s : string) : option (string * string) :=
  match s with
  | EmptyString => None
  | String c rest =>
      if Ascii.eqb c "_"%char then Some (EmptyString, rest)
      else option_map (fun pc => (String c (fst pc), snd pc)) (split_once rest)
  end.

(** [prefix, currency = attr.split('_', 1)]: unpacking a one-element
    list raises [ValueError]. *)
Definition split_prefix (attr : string) : result (string * string) :=
  match split_once attr with Some pc => Ok pc | None => Raise ValueError end.

(** [d[k] = v] on an insertion-ordered dict. *)
Fixpoint dict_set (d : list (string * Q)) (k : string) (v : Q) : list (string * Q) :=
  match d with
  | [] => [(k, v)]
  | (k', v') :: d' => if String.eqb k k' then (k, v) :: d' else (k', v') :: dict_set d' k v
  end.

(** [d.get(k, None)] on an insertion-ordered dict. *)
Fixpoint dict_get (d : list (string * Q)) (k : string) : option Q :=
  match d with
  | [] => None
  | (k', v) :: d' => if String.eqb k k' then Some v else dict_get d' k
  end.

(** [{'in': {...}, 'out': {...}}], the shape of [sv_baseline] and
    [sv_adjusted]. *)
Record step_value_dicts := mkSV {
  sv_in : list (string * Q);
  sv_out : list (string * Q)
}.

Definition sv_empty : step_value_dicts := mkSV [] [].

(** [sv[prefix][currency] = v], for [prefix] one of ['in'], ['out']. *)
Definition sv_set (prefix currency : string) (v : Q) (sv : step_value_dicts)
  : step_value_dicts :=
  if String.eqb prefix "in" then mkSV (dict_set (sv_in sv) currency v) (sv_out sv)
  else mkSV (sv_in sv) (dict_set (sv_out sv) currency v).

Definition cu_fields (agent_type : string) : list string :=
  ["co2"; "fertilizer"; "o2"; "biomass"; agent_type].
Definition te_fields : list string := ["potable"; "h2o"].
Definition co2_exclude (agent_type : string) : list string :=
  ["in_biomass"; String.append "out_" agent_type].

(** The loop [for attr in self.attrs] of [_calculate_co2_scale]:
    [sv_baseline] and [sv_adjusted].  [co2_uptake_ratio] and
    [transpiration_efficiency_factor] are the values read from (or just
    stored in) the [storage_ratios['co2']] cache. *)
Fixpoint co2_adjust_loop (agent_type : string) (step_values : gmap string (list Q))
    (step_num : nat) (co2_uptake_ratio transpiration_efficiency_factor : Q)
    (attrs : list string) (sv_baseline sv_adjusted : step_value_dicts)
  : result (step_value_dicts * step_value_dicts) :=
  match attrs with
  | [] => Ok (sv_baseline, sv_adjusted)
  | attr :: attrs' =>
      let loop := co2_adjust_loop agent_type step_values step_num co2_uptake_ratio
                    transpiration_efficiency_factor attrs' in
      let* pc := split_prefix attr in
      let '(prefix, currency) := pc in
      if negb (bool_decide (prefix ∈ ["in"; "out"])) then loop sv_baseline sv_adjusted
      else
        let* svs := getitem step_values attr in
        let* step_value :=
          match nth_error svs step_num with Some v => Ok v | None => Raise IndexError end in
        let sv_baseline := sv_set prefix currency step_value sv_baseline in
        if bool_decide (attr ∈ co2_exclude agent_type) then loop sv_baseline sv_adjusted
        else if bool_decide (currency ∈ cu_fields agent_type) then
          loop sv_baseline (sv_set prefix currency (step_value * co2_uptake_ratio) sv_adjusted)
        else if bool_decide (currency ∈ te_fields) then
          loop sv_baseline
               (sv_set prefix currency
                  (step_value * (1 / transpiration_efficiency_factor)) sv_adjusted)
        else loop sv_baseline sv_adjusted
  end.

(** "Remove error proportionally from outputs".  The step values are
    numpy floats, so [value / net_outputs] does not raise when
    [net_outputs] is 0 (it gives inf or nan; [Q] gives 0 there). *)
Definition co2_correct (value_eps : Q) (sv_adjusted : step_value_dicts) : step_value_dicts :=
  let net_inputs := qsum (map snd (sv_in sv_adjusted)) in
  let net_outputs := qsum (map snd (sv_out sv_adjusted)) in
  let sv_error := net_inputs - net_outputs in
  if qlt value_eps sv_error then
    mkSV (sv_in sv_adjusted)
         (map (fun cv => (fst cv, snd cv + (snd cv / net_outputs) * sv_error))
              (sv_out sv_adjusted))
  else sv_adjusted.

(** "Convert to scale factors (1 = no change)": [1 if not adjusted]
    covers both a missing entry and an entry equal to 0. *)
Definition sv_scale_of (sv_baseline sv_adjusted : step_value_dicts) : list (string * Q) :=
  map (fun cb => (String.append "in_" (fst cb),
                  match dict_get (sv_in sv_adjusted) (fst cb) with
                  | Some a => if Qeq_bool a 0 then 1 else a / snd cb
                  | None => 1
                  end)) (sv_baseline.(sv_in)) ++
  map (fun cb => (String.append "out_" (fst cb),
                  match dict_get (sv_out sv_adjusted) (fst cb) with
                  | Some a => if Qeq_bool a 0 then 1 else a / snd cb
                  | None => 1
                  end)) (sv_baseline.(sv_out)).

(** The co2-adjusted step values after the correction. *)
Definition co2_adjusted (agent_type : string) (step_values : gmap string (list Q))
    (step_num : nat) (co2_uptake_ratio transpiration_efficiency_factor value_eps : Q)
    (attrs : list string) : result (step_value_dicts * step_value_dicts) :=
  let* ba := co2_adjust_loop agent_type step_values step_num co2_uptake_ratio
               transpiration_efficiency_factor attrs sv_empty sv_empty in
  Ok (fst ba, co2_correct value_eps (snd ba)).

(** [_calculate_co2_scale] from "Calculate co2-adjusted step values" on:
    the returned [sv_scale]. *)
Definition calculate_co2_scale (agent_type : string) (step_values : gmap string (list Q))
    (step_num : nat) (co2_uptake_ratio transpiration_efficiency_factor value_eps : Q)
    (attrs : list string) : result (list (string * Q)) :=
  let* ba := co2_adjusted agent_type step_values step_num co2_uptake_ratio
               transpiration_efficiency_factor value_eps attrs in
  Ok (sv_scale_of (fst ba) (snd ba)).

(** ** BaseAgent.add_currency_to_dict *)

(** [add_currency_to_dict] recurses on the class of a [currency] only
    after adding that currency, so it makes at most one call per entry of
    [model.currency_dict] plus one; [fuel] counts the calls and [None]
    means it ran out (which [add_currency_to_dict] never does, see
    [add_currency_terminates]). *)
Fixpoint add_currency_go (fuel : nat) (model_currency_dict : gmap string currency_data)
    (currency_dict : gmap string currency_data) (currency : string)
  : option (result (gmap string currency_data)) :=
  match fuel with
  | O => None
  | S fuel' =>
      if bool_decide (is_Some (currency_dict !! currency)) then Some (Ok currency_dict)
      else
        match model_currency_dict !! currency with
        | None => Some (Raise KeyError)
        | Some currency_data =>
            let currency_dict := <[currency := currency_data]> currency_dict in
            match cd_type currency_data with
            | TCurrency =>
                add_currency_go fuel' model_currency_dict currency_dict (cd_class currency_data)
            | _ => Some (Ok currency_dict)
            end
        end
  end.

Definition add_currency_to_dict (model_currency_dict currency_dict : gmap string currency_data)
    (currency : string) : option (result (gmap string currency_data)) :=
  add_currency_go (S (length (map_to_list model_currency_dict)))
    model_currency_dict currency_dict currency.

(** ** StorageAgent.__init__ and StorageAgent._calculate_storage_ratios *)

(** [attr.split('_', 2)[2]]: [IndexError] with fewer than two ['_']. *)
Definition split2_third (attr : string) : result string :=
  match split_once attr with
  | Some (_, r) =>
      match split_once r with Some (_, r') => Ok r' | None => Raise IndexError end
  | None => Raise IndexError
  end.

(** The attributes set on a StorageAgent by [__init__]: the
    [AttributeHolder] namespace ([self._attr(name, value)], read back as
    [self[name]]; [name in self] for the names set so far), the units
    added to [attr_details] for class capacities, and [currency_dict]. *)
Record storage_attrs := mkStorageAttrs {
  sa_has_storage : bool;
  sa_attrs : gmap string Q;
  sa_class_units : gmap string string;
  sa_currency_dict : gmap string currency_data
}.

(** The first loop of [StorageAgent.__init__] over [self.attrs] (as
    [(name, value)] pairs in order; only the values of the
    [char_capacity*] entries are read): it returns the new attributes and
    [class_capacities] / [class_unit] as insertion-ordered dicts.
    [balances] holds the [kwargs] balances, [units] the ['unit'] of
    [attr_details[attr]]. *)
Fixpoint capacity_loop (model_currency_dict : gmap string currency_data)
    (units : gmap string string) (balances : gmap string Q) (attrs : list (string * Q))
    (sa : storage_attrs) (class_capacities : list (string * Q))
    (class_unit : list (string * string))
  : result (storage_attrs * list (string * Q) * list (string * string)) :=
  match attrs with
  | [] => Ok (sa, class_capacities, class_unit)
  | (attr, attr_value) :: rest =>
      let loop := capacity_loop model_currency_dict units balances rest in
      if String.prefix "char_capacity" attr then
        let sa_a := <[attr := attr_value]> (sa_attrs sa) in
        let* currency := split2_third attr in
        let sa_a := <[currency := default 0 (balances !! currency)]> sa_a in
        match add_currency_to_dict model_currency_dict (sa_currency_dict sa) currency with
        | None => Raise KeyError   (* never: see add_currency_terminates *)
        | Some r =>
            let* cd := r in
            let* currency_data := getitem cd currency in
            let currency_class := cd_class currency_data in
            let sa := mkStorageAttrs true sa_a (sa_class_units sa) cd in
            let* cc_cu :=
              match dict_get class_capacities currency_class with
              | Some _ => Ok (class_capacities, class_unit)
              | None =>
                  let* u := getitem units attr in
                  Ok (class_capacities ++ [(currency_class, 0)],
                      class_unit ++ [(currency_class, u)])
              end in
            let '(class_capacities, class_unit) := cc_cu in
            let cap := default 0 (dict_get class_capacities currency_class) in
            loop sa (dict_set class_capacities currency_class (cap + attr_value)) class_unit
        end
      else loop sa class_capacities class_unit
  end.

(** The unit of a key of an insertion-ordered dict of strings. *)
Fixpoint sdict_get (d : list (string * string)) (k : string) : option string :=
  match d with
  | [] => None
  | (k', v) :: d' => if String.eqb k k' then Some v else sdict_get d' k
  end.

(** The second loop: a class capacity is set unless the agent already
    has a [char_capacity_<class>] attribute. *)
Fixpoint class_capacity_loop (class_capacities : list (string * Q))
    (class_unit : list (string * string)) (sa : storage_attrs) : result storage_attrs :=
  match class_capacities with
  | [] => Ok sa
  | (currency_class, capacity) :: rest =>
      let class_attr := String.append "char_capacity_" currency_class in
      if bool_decide (is_Some (sa_attrs sa !! class_attr)) then
        class_capacity_loop rest class_unit sa
      else
        let* u := match sdict_get class_unit currency_class with
                  | Some u => Ok u | None => Raise KeyError end in
        class_capacity_loop rest class_unit
          (mkStorageAttrs (sa_has_storage sa) (<[class_attr := capacity]> (sa_attrs sa))
                          (<[class_attr := u]> (sa_class_units sa)) (sa_currency_dict sa))
  end.

(** [StorageAgent.__init__] up to [self._calculate_storage_ratios()]:
    the agent starts with an empty [currency_dict]. *)
Definition storage_init (model_currency_dict : gmap string currency_data)
    (units : gmap string string) (balances : gmap string Q) (attrs : list (string * Q))
  : result storage_attrs :=
  let* r := capacity_loop model_currency_dict units balances attrs
              (mkStorageAttrs false ∅ ∅ ∅) [] [] in
  let '(sa, class_capacities, class_unit) := r in
  class_capacity_loop class_capacities class_unit sa.

Section StorageRatios.

(** [quantities]' unit conversion: one [u] is [unit_factor u v] [v]. *)
Variable unit_factor : string -> string -> Q.

(** The first loop of [_calculate_storage_ratios]: [total] (magnitude
    and unit; [if not total] holds for [None] and for a zero magnitude)
    and [temp], the magnitudes in the unit of [total] at that point. *)
Fixpoint ratio_temp (units : gmap string string) (vals : gmap string Q)
    (attrs : list string) (total : option (Q * string)) (temp : list (string * Q))
  : result (option (Q * string) * list (string * Q)) :=
  match attrs with
  | [] => Ok (total, temp)
  | attr :: rest =>
      if String.prefix "char_capacity" attr then
        let* currency := split2_third attr in
        let* storage_unit := getitem units attr in
        let* b := getitem vals currency in
        match total with
        | Some (t, tu) =>
            if negb (Qeq_bool t 0) then
              let v := b * unit_factor storage_unit tu in
              ratio_temp units vals rest (Some (t + v, tu)) (dict_set temp currency v)
            else ratio_temp units vals rest (Some (b, storage_unit)) (dict_set temp currency b)
        | None => ratio_temp units vals rest (Some (b, storage_unit)) (dict_set temp currency b)
        end
      else ratio_temp units vals rest total temp
  end.

(** The second loop: the ratio of each currency ([temp / total], or 0
    for a balance that is not positive). *)
Fixpoint ratio_entries (total : option (Q * string)) (temp : list (string * Q))
  : result (list (string * Q)) :=
  match temp with
  | [] => Ok []
  | (c, v) :: rest =>
      let* r :=
        if qlt 0 v then
          match total with
          | Some (t, _) => if Qeq_bool t 0 then Raise ZeroDivisionError else Ok (v / t)
          | None => Raise AttributeError
          end
        else Ok 0 in
      let* rs := ratio_entries total rest in
      Ok ((c, r) :: rs)
  end.

(** [StorageAgent._calculate_storage_ratios]: the new
    [model.storage_ratios], whose [storage_id] entry gets a key
    [<currency>_ratio] per capacity. *)
Definition calculate_storage_ratios (storage_id : string) (units : gmap string string)
    (vals : gmap string Q) (attrs : list string)
    (storage_ratios : gmap string (gmap string Q)) : result (gmap string (gmap string Q)) :=
  let inner := default ∅ (storage_ratios !! storage_id) in
  let* tt := ratio_temp units vals attrs None [] in
  let* entries := ratio_entries (fst tt) (snd tt) in
  Ok (<[storage_id := fold_left (fun m cr => <[String.append (fst cr) "_ratio" := snd cr]> m)
                        entries inner]> storage_ratios).

End StorageRatios.

(** The currencies of the [char_capacity*] attributes, in order. *)
Definition capacity_currencies (attrs : list string) : list string :=
  omap (fun a => if String.prefix "char_capacity" a then
                   match split2_third a with Ok c => Some c | Raise _ => None end
                 else None) attrs.

(** The entries of [model.currency_dict] not yet in [currency_dict]. *)
Definition missing_currencies (model_currency_dict currency_dict : gmap string currency_data)
  : nat :=
  length (List.filter (fun k => bool_decide (currency_dict !! k = None))
                 (map fst (map_to_list model_currency_dict))).

(** The invariant of [ratio_temp]'s accumulators: nonnegative entries
    and [total] their sum ([None] while [temp] is empty). *)
Definition temp_inv (total : option (Q * string)) (temp : list (string * Q)) : Prop :=
  Forall (fun e => 0 <= e.2) temp /\
  match total with
  | None => temp = []
  | Some (t, _) => t == qsum (map snd temp)
  end.

(** The class of the currency of a capacity attribute [attr]
    ([char_capacity_<currency>]), read from [model.currency_dict]. *)
Definition capacity_class (model_currency_dict : gmap string currency_data) (attr : string)
  : option string :=
  if String.prefix "char_capacity" attr then
    match split2_third attr with
    | Ok c => option_map cd_class (model_currency_dict !! c)
    | Raise _ => None
    end
  else None.

(** The capacities, in order, of the attributes whose currency is of
    class [cls]. *)
Definition class_capacity_values (model_currency_dict : gmap string currency_data)
    (attrs : list (string * Q)) (cls : string) : list Q :=
  map snd (List.filter (fun av => match capacity_class model_currency_dict av.1 with
                                  | Some c => String.eqb c cls
                                  | None => false
                                  end) attrs).

(** ** GeneralAgent._get_storage_ratio *)

(** [s.split('_')]: never empty. *)
Fixpoint split_all (s : string) : list string :=
  match s with
  | EmptyString => [EmptyString]
  | String c rest =>
      if Ascii.eqb c "_"%char then EmptyString :: split_all rest
      else match split_all rest with
           | h :: t => String c h :: t
           | [] => [String c EmptyString]
           end
  end.

(** ['_'.join(l)] *)
Fixpoint join_underscore (l : list string) : string :=
  match l with
  | [] => EmptyString
  | [x] => x
  | x :: rest => String.append x (String.append "_" (join_underscore rest))
  end.

(** [GeneralAgent._get_storage_ratio]; [selected_in] / [selected_out]
    are [selected_storage] with each storage given by its [agent_type]. *)
Definition get_storage_ratio (selected_in selected_out : list (string * list string))
    (storage_ratios : gmap string (gmap string Q)) (cr_name : string) : result Q :=
  let total := 0 in
  let elements := split_all cr_name in
  let direction := List.last elements EmptyString in
  if String.eqb direction "in" || String.eqb direction "out" then
    let currency := hd EmptyString elements in
    let cr_actual := join_underscore (firstn 2 elements) in
    let sel := if String.eqb direction "in" then selected_in else selected_out in
    let* sids := match list_to_map (M := gmap string (list string)) sel !! currency with
                 | Some l => Ok l | None => Raise KeyError end in
    let* storage_id := match sids with s :: _ => Ok s | [] => Raise IndexError end in
    let* r := getitem storage_ratios storage_id in
    let* v := getitem r cr_actual in
    Ok (total + v)
  else
    Ok (map_fold (fun _ r acc => match r !! cr_name with Some v => acc + v | None => acc end)
                 total storage_ratios).

(** A name with no ['_'] in it. *)
Definition no_underscore (s : string) : bool :=
  forallb (fun ch => negb (Ascii.eqb ch "_"%char)) (list_ascii_of_string s).

(** ** PlantAgent.__init__ and PlantAgent.step *)

(** Python's [int(x)] on a float: truncation toward zero. *)
Definition py_int (x : Q) : Z := if Qle_bool 0 x then Qfloor x else (- Qfloor (- x))%Z.

(** [PlantAgent.__init__]: [self.lifetime] from [attrs['char_lifetime']]
    and [attr_details['char_lifetime']['unit']] ([None] when there is no
    [unit]), as [lifetime * int(lifetime_multiplier)]. *)
Definition plant_lifetime (attrs : gmap string Q) (lifetime_unit : option string)
    (day_length_hours : Q) : result Q :=
  match attrs !! "char_lifetime" with
  | Some lifetime =>
      let* unit := match lifetime_unit with Some u => Ok u | None => Raise KeyError end in
      let* lifetime_multiplier :=
        if String.eqb unit "day" then Ok day_length_hours
        else if String.eqb unit "hour" then Ok 1
        else if String.eqb unit "min" then Ok (1 # 60)
        else Raise KeyError in
      Ok (lifetime * inject_Z (py_int lifetime_multiplier))
  | None => Ok 0
  end.

(** The attributes of a PlantAgent that [PlantAgent.step] reads and writes. *)
Record plant := mkPlant {
  pl_active : bool;
  pl_cause_of_death : option string;
  pl_agent_type : string;
  pl_age : Q;
  pl_amount : Z;
  pl_full_amount : Z;
  pl_delay_start : Q;
  pl_grown : bool;
  pl_reproduce : bool;  (** truthiness of [char_reproduce] *)
  pl_lifetime : Q;  (** hours *)
  pl_agent_step_num : Q;
  pl_current_growth : Q;
  pl_growth_rate : Q;
  pl_total_growth : Q;
  pl_growth_criteria : option string;  (** [char_growth_criteria] *)
  pl_carbon_fixation : option string;  (** [char_carbon_fixation] *)
  pl_co2_scale : list (string * Q);
  pl_missing_desired : bool;  (** set by [GeneralAgent.step] *)
  pl_step_exchange_buffer : gmap string (gmap string (gmap string Q))  (** prefix -> currency -> storage -> amount, set by [GeneralAgent.step] *)
}.

Definition set_delay_start (p : plant) (x : Q) : plant :=
  mkPlant (pl_active p) (pl_cause_of_death p) (pl_agent_type p) (pl_age p)
    (pl_amount p) (pl_full_amount p) x (pl_grown p) (pl_reproduce p) (pl_lifetime p)
    (pl_agent_step_num p) (pl_current_growth p) (pl_growth_rate p)
    (pl_total_growth p) (pl_growth_criteria p) (pl_carbon_fixation p) (pl_co2_scale p)
    (pl_missing_desired p) (pl_step_exchange_buffer p).

Definition set_grown (p : plant) (x : bool) : plant :=
  mkPlant (pl_active p) (pl_cause_of_death p) (pl_agent_type p) (pl_age p)
    (pl_amount p) (pl_full_amount p) (pl_delay_start p) x (pl_reproduce p) (pl_lifetime p)
    (pl_agent_step_num p) (pl_current_growth p) (pl_growth_rate p)
    (pl_total_growth p) (pl_growth_criteria p) (pl_carbon_fixation p) (pl_co2_scale p)
    (pl_missing_desired p) (pl_step_exchange_buffer p).

Definition set_co2_scale (p : plant) (x : list (string * Q)) : plant :=
  mkPlant (pl_active p) (pl_cause_of_death p) (pl_agent_type p) (pl_age p)
    (pl_amount p) (pl_full_amount p) (pl_delay_start p) (pl_grown p) (pl_reproduce p)
    (pl_lifetime p) (pl_agent_step_num p) (pl_current_growth p) (pl_growth_rate p)
    (pl_total_growth p) (pl_growth_criteria p) (pl_carbon_fixation p) x
    (pl_missing_desired p) (pl_step_exchange_buffer p).

Definition set_agent_step_num (p : plant) (x : Q) : plant :=
  mkPlant (pl_active p) (pl_cause_of_death p) (pl_agent_type p) (pl_age p)
    (pl_amount p) (pl_full_amount p) (pl_delay_start p) (pl_grown p) (pl_reproduce p)
    (pl_lifetime p) x (pl_current_growth p) (pl_growth_rate p) (pl_total_growth p)
    (pl_growth_criteria p) (pl_carbon_fixation p) (pl_co2_scale p)
    (pl_missing_desired p) (pl_step_exchange_buffer p).

Definition set_growth (p : plant) (cg : Q) (gr : Q) : plant :=
  mkPlant (pl_active p) (pl_cause_of_death p) (pl_agent_type p) (pl_age p)
    (pl_amount p) (pl_full_amount p) (pl_delay_start p) (pl_grown p) (pl_reproduce p)
    (pl_lifetime p) (pl_agent_step_num p) cg gr (pl_total_growth p)
    (pl_growth_criteria p) (pl_carbon_fixation p) (pl_co2_scale p)
    (pl_missing_desired p) (pl_step_exchange_buffer p).

(** [self.cause_of_death = reason; self.active = False] of [destroy]. *)
Definition set_destroyed (p : plant) (reason : string) : plant :=
  mkPlant false (Some reason) (pl_agent_type p) (pl_age p) (pl_amount p)
    (pl_full_amount p) (pl_delay_start p) (pl_grown p) (pl_reproduce p)
    (pl_lifetime p) (pl_agent_step_num p) (pl_current_growth p) (pl_growth_rate p)
    (pl_total_growth p) (pl_growth_criteria p) (pl_carbon_fixation p)
    (pl_co2_scale p) (pl_missing_desired p) (pl_step_exchange_buffer p).

(** The reset of a reproducing plant. *)
Definition reset_plant (p : plant) (delay : Z) : plant :=
  mkPlant (pl_active p) (pl_cause_of_death p) (pl_agent_type p) 0 (pl_full_amount p)
    (pl_full_amount p) (inject_Z delay) false (pl_reproduce p) (pl_lifetime p) 0 0 0
    (pl_total_growth p) (pl_growth_criteria p) (pl_carbon_fixation p)
    (pl_co2_scale p) (pl_missing_desired p) (pl_step_exchange_buffer p).

(** Python's truthiness of an optional string. *)
Definition str_truthy (s : option string) : bool :=
  match s with Some x => negb (String.eqb x "") | None => false end.

Section PlantStep.

Context {M : Type}.
(** [model.hours_per_step] and [model.day_length_hours]. *)
Variable hours_per_step : M -> Q.
Variable day_length_hours : M -> Q.
(** [model.remove(self)] *)
Variable model_remove : plant -> M -> M.
(** [self._calculate_co2_scale(step_num)], which caches its factors in
    [model.storage_ratios]. *)
Variable calculate_co2_scale_fn : plant -> Z -> M -> result (list (string * Q) * M).
(** [super().step()]: [GeneralAgent.step], which calls the plant's
    [_get_step_value] and sets [missing_desired] and
    [step_exchange_buffer]. *)
Variable general_step : plant -> M -> result (plant * M).

(** [BaseAgent.destroy] *)
Definition plant_destroy (p : plant) (m : M) (reason : string) : plant * M :=
  (set_destroyed p reason, model_remove p m).

(** The part of [PlantAgent.step] after [super().step()]. *)
Definition plant_growth (p : plant) (m : M) : result (plant * M) :=
  if pl_missing_desired p then Ok (p, m) else
  let p := set_agent_step_num p (pl_agent_step_num p + hours_per_step m) in
  let* growth_criteria :=
    match pl_growth_criteria p with Some g => Ok g | None => Raise AttributeError end in
  let* pc := split_prefix growth_criteria in
  let '(prefix, currency) := pc in
  let* buf := getitem (pl_step_exchange_buffer p) prefix in
  match buf !! currency with
  | Some step_data =>
      if bool_decide (step_data = ∅) then Ok (p, m) else
      let growth_value := map_fold (fun _ v acc => v + acc) 0 step_data in
      if Z.eqb (pl_amount p) 0 then Raise ZeroDivisionError else
      let current_growth := pl_current_growth p + growth_value / inject_Z (pl_amount p) in
      if Qeq_bool (pl_total_growth p) 0 then Raise ZeroDivisionError else
      Ok (set_growth p current_growth (current_growth / pl_total_growth p), m)
  | None => Ok (p, m)
  end.

(** The part of [PlantAgent.step] between the lifecycle checks and
    [super().step()]. *)
Definition plant_pre_step (p : plant) (m : M) : result (plant * M) :=
  if Qle_bool (pl_lifetime p - 1) (pl_agent_step_num p) && qlt 0 (pl_lifetime p - 1) then
    Ok (set_grown p true, m)
  else if str_truthy (pl_carbon_fixation p) then
    let* r := calculate_co2_scale_fn p (py_int (pl_agent_step_num p + 1)) m in
    Ok (set_co2_scale p (fst r), snd r)
  else Ok (p, m).

(** [PlantAgent.step] *)
Definition plant_step (p : plant) (m : M) : result (plant * M) :=
  if qlt 0 (pl_delay_start p) then
    Ok (set_delay_start p (pl_delay_start p - hours_per_step m), m)
  else
  let* r :=
    if pl_grown p then
      if pl_reproduce p then
        let step_num := py_int (pl_age p) in
        let day_length := py_int (day_length_hours m) in
        if Z.eqb day_length 0 then Raise ZeroDivisionError else
        let current_hour := Z.modulo step_num day_length in
        let delay := (day_length - current_hour - 1)%Z in
        Ok (inl (reset_plant p delay))
      else
        Ok (inr (plant_destroy p m
                   (String.append "Lifetime limit has been reached by "
                      (String.append (pl_agent_type p) ". Killing the agent."))))
    else Ok (inr (p, m)) in
  match r with
  | inl p => Ok (p, m)
  | inr (p, m) =>
      let* r := plant_pre_step p m in
      let* r := general_step (fst r) (snd r) in
      plant_growth (fst r) (snd r)
  end.

(** [n] calls of [PlantAgent.step]. *)
Fixpoint plant_steps (n : nat) (p : plant) (m : M) : result (plant * M) :=
  match n with
  | O => Ok (p, m)
  | S n' => let* r := plant_step p m in plant_steps n' (fst r) (snd r)
  end.

End PlantStep.

(** ** Concrete agents and models *)

(** A random state counting its draws: [rand()] always gives 0 and
    [get_variable] always 1. *)
Definition counter_rand (n : nat) : Q * nat := (0, S n).
Definition counter_variable (n : nat) (_ _ : Q) (_ : string) : Q * nat := (1, n).
Definition no_custom_function (_ : string)
  : option (agent -> @model_state nat -> result (agent * @model_state nat)) := None.

(** A plant killed when the [co2] ratio of its atmosphere exceeds 0.1. *)
Definition threshold_config : agent_config :=
  mkAgentConfig "plant" [AThreshold "upper" "co2" (1 # 10)]
                [("co2", ["atmosphere"])] [] ∅ None false.

Definition fresh_agent (cfg : agent_config) : agent :=
  mkAgent cfg 0 1 true ∅ ∅ 1 (mkEventState ∅ ∅) false.

Definition atmosphere_model : @model_state nat :=
  mkModelState ∅ (<["atmosphere" := <["co2_ratio" := 1 # 2]> ∅]> ∅) 1 24 0%nat.

(** An input of potable water, 1 per hour, with a deprivation budget of
    5 hours consumed 1 per step, optionally mandatory. *)
Definition potable_flow (is_required : option string) : flow_attr :=
  mkFlowAttr 1 [] is_required 5 1 (mkCriteriaDetails None ">" None None) 0
             (repeat 1 24).

(** A machine pushing 10 units of [potable] to two empty tanks. *)
Definition two_tanks : gmap string storage :=
  <["tank_a" := water_tank 0 0]> (<["tank_b" := water_tank 0 0]> ∅).

Definition two_tank_conns : list conn :=
  [mkConn "tank_a" 0 100; mkConn "tank_b" 0 100].

(** An individual multiplier event: a new instance whenever [rand()]
    is at most 0.5, of magnitude 1/2 lasting 3 hours. *)
Definition heat_event : event_details :=
  mkEventDetails 1 "individual" (1 # 2) (1 # 2) None (Some 3) None.

(** A lettuce plant exchanging co2, potable water, o2 and h2o, with
    1 as both ratios (the values at 350 ppm for a c4 plant). *)
Definition lettuce_attrs : list string := ["in_co2"; "in_potable"; "out_o2"; "out_h2o"].

Definition lettuce_step_values (co2 potable o2 h2o : Q) : gmap string (list Q) :=
  <["in_co2" := [co2]]> (<["in_potable" := [potable]]>
    (<["out_o2" := [o2]]> (<["out_h2o" := [h2o]]> ∅))).

Definition value_eps : Q := 1 # 1000000000000.

(** A lettuce plant of 30 days (720 hours) growing on [in_co2], grown
    at age 725 and reproducing. *)
Definition grown_lettuce : plant :=
  mkPlant true None "lettuce" 725 1 1 0 true true 720 719 0 0 100 (Some "in_co2") None []
          false ∅.


(** A young lettuce plant with 2 units of co2 received in its last exchange. *)
Definition growing_lettuce : plant :=
  mkPlant true None "lettuce" 10 1 1 0 false true 720 10 (1 # 20) (1 # 20) 100 (Some "in_co2")
          None [] false (<["in" := <["co2" := <["lettuce" := 2]> ∅]> ∅]> ∅).

(** [PlantAgent.step] in a model of one-hour steps and 24-hour days, with
    a [super().step()] and a co2 computation that change nothing. *)
Definition lettuce_step : plant -> unit -> result (plant * unit) :=
  plant_step (fun _ => 1) (fun _ => 24) (fun _ m => m) (fun _ _ m => Ok ([], m))
             (fun p m => Ok (p, m)).

Definition lettuce_steps : nat -> plant -> unit -> result (plant * unit) :=
  plant_steps (fun _ => 1) (fun _ => 24) (fun _ m => m) (fun _ _ m => Ok ([], m))
              (fun p m => Ok (p, m)).

(** A young lettuce plant without growth criteria, short of a desired input. *)
Definition starved_lettuce : plant :=
  mkPlant true None "lettuce" 10 1 1 0 false true 720 10 0 0 100 None None [] true ∅.


(** ** GeneralAgent._init_events *)

(** The entries of [attr_details['event_<type>']] that [_init_events]
    reads and writes; [None] for a key the dict does not have. *)
Record event_attr := mkEventAttr {
  ea_probability_value : option Q;
  ea_probability_unit : option string;
  ea_duration_value : option Q;
  ea_duration_unit : option string;
  ea_probability_per_step : option Q;
  ea_duration_delta_per_step : option Q
}.

Definition set_probability_per_step (ad : event_attr) (x : Q) : event_attr :=
  mkEventAttr (ea_probability_value ad) (ea_probability_unit ad) (ea_duration_value ad)
              (ea_duration_unit ad) (Some x) (ea_duration_delta_per_step ad).

Definition set_duration_delta_per_step (ad : event_attr) (x : Q) : event_attr :=
  mkEventAttr (ea_probability_value ad) (ea_probability_unit ad) (ea_duration_value ad)
              (ea_duration_unit ad) (ea_probability_per_step ad) (Some x).

(** [dict(min=60, hour=1, day=1/int(self.model.day_length_hours))]: the
    dict is built before it is read, so [1/int(...)] raises whenever
    [int(day_length_hours)] is 0, whatever the unit looked up. *)
Definition unit_multipliers (day_length_hours : Q) : result (list (string * Q)) :=
  if Z.eqb (py_int day_length_hours) 0 then Raise ZeroDivisionError
  else Ok [("min", 60); ("hour", 1); ("day", 1 / inject_Z (py_int day_length_hours))].

(** The body of the loop of [_init_events] for one event attribute. *)
Definition init_event_attr (hours_per_step day_length_hours : Q) (ad : event_attr)
  : result event_attr :=
  let* probability := match ea_probability_value ad with Some v => Ok v | None => Raise KeyError end in
  let* probability_unit :=
    match ea_probability_unit ad with Some u => Ok u | None => Raise KeyError end in
  let* ms := unit_multipliers day_length_hours in
  let multiplier := default 0 (dict_get ms probability_unit) in
  let ad := set_probability_per_step ad (probability * hours_per_step * multiplier) in
  match ea_duration_value ad with
  | Some duration =>
      if Qeq_bool duration 0 then Ok ad else
      let duration_unit := default "hour" (ea_duration_unit ad) in
      let* ms := unit_multipliers day_length_hours in
      let multiplier := default 1 (dict_get ms duration_unit) in
      Ok (set_duration_delta_per_step ad (hours_per_step * multiplier))
  | None => Ok ad
  end.

(** [GeneralAgent._init_events] over the attribute names [attrs] (the
    keys of [self.attrs], in order): the new [attr_details]. *)
Fixpoint init_events (hours_per_step day_length_hours : Q) (attrs : list string)
    (attr_details : gmap string event_attr) : result (gmap string event_attr) :=
  match attrs with
  | [] => Ok attr_details
  | attr :: rest =>
      if String.prefix "event" attr then
        let* ad := getitem attr_details attr in
        let* ad := init_event_attr hours_per_step day_length_hours ad in
        init_events hours_per_step day_length_hours rest (<[attr := ad]> attr_details)
      else init_events hours_per_step day_length_hours rest attr_details
  end.


(** An agent with one event attribute: a failure with probability 1/100
    per day and a duration of 3 (in hours). *)
Definition failure_details : gmap string event_attr :=
  <["event_failure" := mkEventAttr (Some (1 # 100)) (Some "day") (Some 3) None None None]> ∅.

(** ** GeneralAgent._calculate_step_values *)

(** The exceptions of agent initialisation: Python's own, the bare
    [Exception(msg)], [AgentInitializationError(msg)] and a [TypeError]. *)
Inductive init_exn :=
| PyExn (e : exn)
| Exception (msg : string)
| AgentInitializationError (msg : string)
| TypeError (msg : string).

Inductive iresult (A : Type) :=
| IOk (a : A)
| IRaise (e : init_exn).
Arguments IOk {A} a.
Arguments IRaise {A} e.

Definition ibind {A B} (m : iresult A) (k : A -> iresult B) : iresult B :=
  match m with IOk a => k a | IRaise e => IRaise e end.

Notation "'let+' x := m 'in' k" := (ibind m (fun x => k))
  (at level 200, x name, m at level 100, k at level 200).

Definition lift {A} (m : result A) : iresult A :=
  match m with Ok a => IOk a | Raise e => IRaise (PyExn e) end.

(** Python truthiness of an optional float, and [x or d]. *)
Definition q_truthy (o : option Q) : bool :=
  match o with Some x => negb (Qeq_bool x 0) | None => false end.

Definition q_or (o : option Q) (d : Q) : Q :=
  match o with Some x => if Qeq_bool x 0 then d else x | None => d end.

Definition q_or_none (o : option Q) : option Q :=
  if q_truthy o then o else None.

(** Python's slice bounds [l[a:b]] on a list of length [len]. *)
Definition py_index (len i : Z) : Z :=
  if (i <? 0)%Z then Z.max 0 (i + len) else Z.min i len.

(** [a[i:j]] on a numpy array. *)
Definition np_slice (l : list Q) (i j : Z) : list Q :=
  let len := Z.of_nat (length l) in
  let a := py_index len i in
  let b := py_index len j in
  firstn (Z.to_nat (b - a)) (skipn (Z.to_nat a) l).

(** [a[i:j] = v] on a numpy array: [v] of the slice's length, or of
    length 1 (broadcast); [ValueError] otherwise. *)
Definition np_setslice (l : list Q) (i j : Z) (v : list Q) : iresult (list Q) :=
  let len := Z.of_nat (length l) in
  let a := Z.to_nat (py_index len i) in
  let n := Z.to_nat (py_index len j - py_index len i) in
  let v := match v with [x] => repeat x n | _ => v end in
  if Nat.eqb (length v) n then IOk (firstn a l ++ v ++ skipn (a + n) l)
  else IRaise (PyExn ValueError).

(** [np.ones(n) * x] *)
Definition np_ones_times (n : Z) (x : Q) : iresult (list Q) :=
  if (n <? 0)%Z then IRaise (PyExn ValueError) else IOk (repeat (1 * x) (Z.to_nat n)).

(** [np.mean], [np.min], [np.max] of a day's values: [np.min] raises
    [ValueError] on an empty array. *)
Definition np_mean (l : list Q) : Q := qsum l / inject_Z (Z.of_nat (length l)).

Definition np_min (l : list Q) : Q :=
  match l with [] => 0 | x :: r => fold_left Qmin r x end.

Definition np_max (l : list Q) : Q :=
  match l with [] => 0 | x :: r => fold_left Qmax r x end.

(** [range(start, stop, step)] *)
Definition py_range (start stop step : Z) : iresult (list Z) :=
  if (step =? 0)%Z then IRaise (PyExn ValueError) else
  let count :=
    if (0 <? step)%Z then
      if (start <? stop)%Z then ((stop - start + step - 1) / step)%Z else 0%Z
    else
      if (stop <? start)%Z then ((start - stop - step - 1) / (- step))%Z else 0%Z in
  IOk (map (fun k => start + Z.of_nat k * step)%Z (seq 0 (Z.to_nat count))).

(** The keyword arguments of [growth_func.get_growth_values]; [None] for
    a keyword that is not passed. *)
Record growth_kwargs := mkGrowthKwargs {
  gk_agent_value : Q;
  gk_max_value : option Q;
  gk_num_values : Z;
  gk_growth_type : string;
  gk_min_value : Q;
  gk_min_threshold : Z;
  gk_max_threshold : Z;
  gk_center : option Q;
  gk_noise : bool;
  gk_invert : bool;
  gk_scale : option Q;
  gk_steepness : option Q
}.

(** The entries of [attr_details[attr]] read by [_calculate_step_values]
    (all read with [ad[...]]); [None] is Python's [None], and [invert] and
    [noise] are kept as their [bool(...)]. *)
Record sv_details := mkSvDetails {
  sd_flow_time : string;
  sd_lifetime_growth_type : option string;
  sd_lifetime_growth_center : option Q;
  sd_lifetime_growth_min_value : option Q;
  sd_lifetime_growth_max_value : option Q;
  sd_daily_growth_type : option string;
  sd_daily_growth_center : option Q;
  sd_daily_growth_min_value : option Q;
  sd_lifetime_growth_min_threshold : option Q;
  sd_lifetime_growth_max_threshold : option Q;
  sd_daily_growth_min_threshold : option Q;
  sd_daily_growth_max_threshold : option Q;
  sd_daily_growth_invert : bool;
  sd_lifetime_growth_invert : bool;
  sd_daily_growth_noise : bool;
  sd_lifetime_growth_noise : bool;
  sd_daily_growth_scale : option Q;
  sd_lifetime_growth_scale : option Q;
  sd_daily_growth_steepness : option Q;
  sd_lifetime_growth_steepness : option Q
}.

(** The [multiplier] of a flow for its [flow_time]. *)
Definition flow_multiplier (agent_flow_time : string) (hours_per_step day_length_hours : Q)
  : iresult Q :=
  if String.eqb agent_flow_time "min" then IOk (1 * (hours_per_step * 60))
  else if String.eqb agent_flow_time "hour" then IOk (1 * hours_per_step)
  else if String.eqb agent_flow_time "day" then
    if Qeq_bool day_length_hours 0 then IRaise (PyExn ZeroDivisionError)
    else IOk (1 * (hours_per_step / day_length_hours))
  else IRaise (Exception "Unknown agent flow_rate.time value.").

Section StepValues.

(** [growth_func.get_growth_values], called with [kwargs] (a module outside this
    repository). *)
Variable get_growth_values : growth_kwargs -> iresult (list Q).

(** The body of [for i in range(0, n_steps, day_length)]: the new
    [day_length] and [step_values]. *)
Definition daily_step (ad : sv_details) (n_steps : Z) (day_length_hours : Q)
    (i day_length : Z) (step_values : list Q) : iresult (Z * list Q) :=
  let center := q_or_none (sd_daily_growth_center ad) in
  let min_threshold := q_or (sd_daily_growth_min_threshold ad) 0 * day_length_hours in
  let max_threshold := q_or (sd_daily_growth_max_threshold ad) 0 * day_length_hours in
  let day_values := np_slice step_values i (i + day_length) in
  match day_values with [] => IRaise (PyExn ValueError) | _ =>
  let agent_value := np_mean day_values in
  let daily_min := np_min day_values in
  let daily_max := np_max day_values in
  let start_value :=
    if q_truthy (sd_daily_growth_min_value ad) then
      agent_value * default 0 (sd_daily_growth_min_value ad)
    else if qlt daily_min daily_max then (if Qeq_bool daily_min 0 then 0 else daily_min)
    else 0 in
  let day_length := if (n_steps <? i + day_length)%Z then (n_steps - i)%Z else day_length in
  let '(scale, max_value) :=
    if q_truthy (sd_daily_growth_scale ad) then (sd_daily_growth_scale ad, None)
    else if str_truthy (sd_lifetime_growth_type ad) then (Some (1 # 2), Some (agent_value * (11 # 10)))
    else (None, None) in
  let kwargs :=
    mkGrowthKwargs agent_value max_value day_length (default "" (sd_daily_growth_type ad))
      start_value (py_int min_threshold) (py_int max_threshold) center
      (sd_daily_growth_noise ad) (sd_daily_growth_invert ad) scale
      (if q_truthy (sd_daily_growth_steepness ad) then sd_daily_growth_steepness ad else None) in
  let+ values :=
    if Qeq_bool start_value agent_value then np_ones_times day_length agent_value
    else get_growth_values kwargs in
  let+ step_values := np_setslice step_values i (i + day_length) values in
  IOk (day_length, step_values)
  end.

Fixpoint daily_loop (ad : sv_details) (n_steps : Z) (day_length_hours : Q) (is : list Z)
    (day_length : Z) (step_values : list Q) : iresult (list Q) :=
  match is with
  | [] => IOk step_values
  | i :: is' =>
      let+ r := daily_step ad n_steps day_length_hours i day_length step_values in
      daily_loop ad n_steps day_length_hours is' (fst r) (snd r)
  end.

(** [GeneralAgent._calculate_step_values(attr, n_steps, hours_per_step,
    day_length_hours)], over [self.attrs] and [self.attr_details]. *)
Definition calculate_step_values (attrs : gmap string Q) (attr_details : gmap string sv_details)
    (attr : string) (n_steps : Z) (hours_per_step day_length_hours : Q) : iresult (list Q) :=
  let+ ad := lift (getitem attr_details attr) in
  let+ multiplier := flow_multiplier (sd_flow_time ad) hours_per_step day_length_hours in
  let+ agent_value := lift (getitem attrs attr) in
  let agent_value := agent_value * multiplier in
  let+ step_values :=
    if str_truthy (sd_lifetime_growth_type ad) then
      let min_threshold := q_or (sd_lifetime_growth_min_threshold ad) 0 * inject_Z n_steps in
      let max_threshold := q_or (sd_lifetime_growth_max_threshold ad) 0 * inject_Z n_steps in
      get_growth_values
        (mkGrowthKwargs agent_value (Some (q_or (sd_lifetime_growth_max_value ad) 0)) n_steps
           (default "" (sd_lifetime_growth_type ad)) (q_or (sd_lifetime_growth_min_value ad) 0)
           (py_int min_threshold) (py_int max_threshold)
           (q_or_none (sd_lifetime_growth_center ad))
           (sd_lifetime_growth_noise ad) (sd_lifetime_growth_invert ad)
           (if q_truthy (sd_lifetime_growth_scale ad) then sd_lifetime_growth_scale ad else None)
           (if q_truthy (sd_lifetime_growth_steepness ad) then sd_lifetime_growth_steepness ad
            else None))
    else np_ones_times n_steps agent_value in
  if str_truthy (sd_daily_growth_type ad) then
    let day_length := py_int day_length_hours in
    let+ is := py_range 0 n_steps day_length in
    daily_loop ad n_steps day_length_hours is day_length step_values
  else IOk step_values.

End StepValues.


(** A flow of potable water given per day, with optional lifetime and
    daily growth curve types and no other growth entries. *)
Definition potable_flow_details (lifetime_type daily_type : option string) : sv_details :=
  mkSvDetails "day" lifetime_type None None None daily_type None None None None None None
              false false false false None None None None.

(** A growth curve that is flat at [agent_value], of the requested length. *)
Definition flat_growth (kw : growth_kwargs) : iresult (list Q) :=
  if (gk_num_values kw <? 0)%Z then IRaise (PyExn ValueError)
  else IOk (repeat (gk_agent_value kw) (Z.to_nat (gk_num_values kw))).

(** ** GeneralAgent._init_currency_exchange *)

(** The entries of [attr_details[attr]] of a flow attribute that
    [_init_currency_exchange] reads; [None] for a key the dict does not
    have (or a [None] value, for the [get]s). *)
Record flow_init_details := mkFlowInitDetails {
  fi_flow_unit : option string;
  fi_deprive_value : option Q;
  fi_deprive_unit : option string;
  fi_criteria_buffer : option Q
}.

(** The fields [_init_currency_exchange] writes. *)
Record exchange_state := mkExchangeState {
  xs_has_flows : bool;
  xs_currency_dict : gmap string currency_data;
  xs_selected_in : list (string * list string);
  xs_selected_out : list (string * list string);
  xs_deprive : gmap string Q;
  xs_delta_per_step : gmap string Q;   (** [attr_details[attr]['delta_per_step']] *)
  xs_buffer : gmap string Q;
  xs_step_values : gmap string (list Q)
}.

(** [d[k] = v] and [d.get(k)] on an insertion-ordered dict of lists. *)
Fixpoint sel_set (d : list (string * list string)) (k : string) (v : list string)
  : list (string * list string) :=
  match d with
  | [] => [(k, v)]
  | (k', v') :: d' => if String.eqb k k' then (k, v) :: d' else (k', v') :: sel_set d' k v
  end.

Fixpoint sel_get (d : list (string * list string)) (k : string) : option (list string) :=
  match d with
  | [] => None
  | (k', v) :: d' => if String.eqb k k' then Some v else sel_get d' k
  end.

Definition set_has_flows (xs : exchange_state) : exchange_state :=
  mkExchangeState true (xs_currency_dict xs) (xs_selected_in xs) (xs_selected_out xs)
    (xs_deprive xs) (xs_delta_per_step xs) (xs_buffer xs) (xs_step_values xs).

Definition set_currency_dict (xs : exchange_state) (x : gmap string currency_data)
  : exchange_state :=
  mkExchangeState (xs_has_flows xs) x (xs_selected_in xs) (xs_selected_out xs)
    (xs_deprive xs) (xs_delta_per_step xs) (xs_buffer xs) (xs_step_values xs).

(** [self.selected_storage[prefix][currency] = l] *)
Definition set_selected (xs : exchange_state) (prefix currency : string) (l : list string)
  : exchange_state :=
  if String.eqb prefix "in" then
    mkExchangeState (xs_has_flows xs) (xs_currency_dict xs)
      (sel_set (xs_selected_in xs) currency l) (xs_selected_out xs)
      (xs_deprive xs) (xs_delta_per_step xs) (xs_buffer xs) (xs_step_values xs)
  else
    mkExchangeState (xs_has_flows xs) (xs_currency_dict xs)
      (xs_selected_in xs) (sel_set (xs_selected_out xs) currency l)
      (xs_deprive xs) (xs_delta_per_step xs) (xs_buffer xs) (xs_step_values xs).

Definition set_deprive_delta (xs : exchange_state) (d delta : gmap string Q) : exchange_state :=
  mkExchangeState (xs_has_flows xs) (xs_currency_dict xs) (xs_selected_in xs)
    (xs_selected_out xs) d delta (xs_buffer xs) (xs_step_values xs).

Definition set_xs_buffer (xs : exchange_state) (b : gmap string Q) : exchange_state :=
  mkExchangeState (xs_has_flows xs) (xs_currency_dict xs) (xs_selected_in xs)
    (xs_selected_out xs) (xs_deprive xs) (xs_delta_per_step xs) b (xs_step_values xs).

Definition set_step_values (xs : exchange_state) (s : gmap string (list Q)) : exchange_state :=
  mkExchangeState (xs_has_flows xs) (xs_currency_dict xs) (xs_selected_in xs)
    (xs_selected_out xs) (xs_deprive xs) (xs_delta_per_step xs) (xs_buffer xs) s.

(** [self.selected_storage[prefix]] *)
Definition selected (xs : exchange_state) (prefix : string) : list (string * list string) :=
  if String.eqb prefix "in" then xs_selected_in xs else xs_selected_out xs.

Section ExchangeInit.

Variable get_growth_values : growth_kwargs -> iresult (list Q).

(** [self.model.get_agents_by_type(agent_type=t)] (the model class is
    outside this package); an agent is given by the [unit]s of its
    [attr_details], per attribute. *)
Variable get_agents_by_type : string -> list (gmap string string).

(** The read-only inputs: [self.agent_type], [self.amount], the keys of
    [self.attrs] in order and [self.attrs] itself, the two views of
    [self.attr_details] and the [unit]s of its entries, [self.connections]
    and [model.currency_dict], [hours_per_step] and [day_length_hours]. *)
Record exchange_inputs := mkExchangeInputs {
  xi_agent_type : string;
  xi_amount : Z;
  xi_attr_names : list string;
  xi_attrs : gmap string Q;
  xi_flow_details : gmap string flow_init_details;
  xi_sv_details : gmap string sv_details;
  xi_units : gmap string string;
  xi_connections : gmap string (gmap string (list string));
  xi_model_currency_dict : gmap string currency_data;
  xi_hours_per_step : Q;
  xi_day_length_hours : Q
}.

Variable xi : exchange_inputs.

(** The inner loop over [connected_agents]: the unit check of each
    selected storage. *)
Fixpoint check_storage_units (currency attr_unit : string) (connected : list string)
  : iresult unit :=
  match connected with
  | [] => IOk tt
  | agent_type :: rest =>
      let+ units :=
        if String.eqb agent_type (xi_agent_type xi) then IOk (xi_units xi)
        else match get_agents_by_type agent_type with
             | u :: _ => IOk u
             | [] => IRaise (PyExn IndexError)
             end in
      let+ storage_unit := lift (getitem units (String.append "char_capacity_" currency)) in
      if String.eqb storage_unit attr_unit then check_storage_units currency attr_unit rest
      else IRaise (AgentInitializationError
             (String.append "Units for " (String.append (xi_agent_type xi)
             (String.append " " (String.append currency (String.append " ("
             (String.append attr_unit (String.append ") do not match storage ("
             (String.append storage_unit ")")))))))))
  end.

(** [# Deprive]: a new entry of [self.deprive] and its [delta_per_step]. *)
Definition init_deprive (fd : flow_init_details) (attr : string) (xs : exchange_state)
  : iresult exchange_state :=
  if q_truthy (fi_deprive_value fd) && negb (bool_decide (is_Some (xs_deprive xs !! attr))) then
    let deprive :=
      <[attr := default 0 (fi_deprive_value fd) * inject_Z (xi_amount xi)]> (xs_deprive xs) in
    let+ deprive_unit :=
      lift (match fi_deprive_unit fd with Some u => Ok u | None => Raise KeyError end) in
    let+ ms := lift (unit_multipliers (xi_day_length_hours xi)) in
    let multiplier := default 0 (dict_get ms deprive_unit) in
    IOk (set_deprive_delta xs deprive
           (<[attr := xi_hours_per_step xi * multiplier]> (xs_delta_per_step xs)))
  else IOk xs.

(** [# Criteria Buffer] *)
Definition init_buffer (fd : flow_init_details) (attr : string) (xs : exchange_state)
  : exchange_state :=
  if q_truthy (fi_criteria_buffer fd) && negb (bool_decide (is_Some (xs_buffer xs !! attr))) then
    set_xs_buffer xs (<[attr := default 0 (fi_criteria_buffer fd)]> (xs_buffer xs))
  else xs.

(** [# Step Values] *)
Definition init_step_values (n_steps : Z) (attr : string) (xs : exchange_state)
  : iresult exchange_state :=
  if bool_decide (is_Some (xs_step_values xs !! attr)) then IOk xs else
  let+ step_values :=
    calculate_step_values get_growth_values (xi_attrs xi) (xi_sv_details xi) attr n_steps
      (xi_hours_per_step xi) (xi_day_length_hours xi) in
  IOk (set_step_values xs (<[attr := step_values]> (xs_step_values xs))).

(** The body of [for attr in self.attrs], with [n_steps] already set. *)
Definition init_exchange_attr (n_steps : Z) (xs : exchange_state) (attr : string)
  : iresult exchange_state :=
  let+ pc := lift (split_prefix attr) in
  let prefix := fst pc in
  let currency := snd pc in
  if negb (String.eqb prefix "in" || String.eqb prefix "out") then IOk xs else
  let xs := set_has_flows xs in
  let+ cd :=
    match add_currency_to_dict (xi_model_currency_dict xi) (xs_currency_dict xs) currency with
    | Some r => lift r
    | None => IRaise (PyExn KeyError)   (* never reached: [add_currency_terminates] *)
    end in
  let xs := set_currency_dict xs cd in
  let+ fd := lift (getitem (xi_flow_details xi) attr) in
  let+ attr_unit := lift (match fi_flow_unit fd with Some u => Ok u | None => Raise KeyError end) in
  let+ by_prefix := lift (getitem (xi_connections xi) prefix) in
  let+ connected_agents := lift (getitem by_prefix currency) in
  match connected_agents with
  | [] => IRaise (AgentInitializationError
            (String.append "No connection found for " (String.append currency
            (String.append " in " (String.append (xi_agent_type xi) ".")))))
  | _ =>
      let+ _ := check_storage_units currency attr_unit connected_agents in
      let xs := set_selected xs prefix currency connected_agents in
      let+ xs := init_deprive fd attr xs in
      let xs := init_buffer fd attr xs in
      init_step_values n_steps attr xs
  end.

Fixpoint init_exchange_loop (n_steps : Z) (attrs : list string) (xs : exchange_state)
  : iresult exchange_state :=
  match attrs with
  | [] => IOk xs
  | attr :: rest =>
      let+ xs := init_exchange_attr n_steps xs attr in
      init_exchange_loop n_steps rest xs
  end.

(** [GeneralAgent._init_currency_exchange(n_steps)]: [n_steps or
    int(day_length_hours)] steps. *)
Definition init_currency_exchange (n_steps : option Z) (xs : exchange_state)
  : iresult exchange_state :=
  let n_steps :=
    match n_steps with
    | Some n => if (n =? 0)%Z then py_int (xi_day_length_hours xi) else n
    | None => py_int (xi_day_length_hours xi)
    end in
  init_exchange_loop n_steps (xi_attr_names xi) xs.

End ExchangeInit.


(** A human drinking potable water from a [water_storage], with the
    units of the storage's [char_capacity_potable]. *)
Definition water_storage_agents (agent_type : string) : list (gmap string string) :=
  if String.eqb agent_type "water_storage" then [<["char_capacity_potable" := "kg"]> ∅] else [].

Definition human_exchange_inputs : exchange_inputs :=
  mkExchangeInputs "human" 2 ["in_potable"; "char_mass"]
    (<["in_potable" := 3]> (<["char_mass" := 60]> ∅))
    (<["in_potable" := mkFlowInitDetails (Some "kg") (Some 3) (Some "day") None]> ∅)
    (<["in_potable" := potable_flow_details None None]> ∅)
    ∅
    (<["in" := <["potable" := ["water_storage"]]> ∅]> ∅)
    water_currency_dict 1 24.

Definition empty_exchange_state : exchange_state :=
  mkExchangeState false ∅ [] [] ∅ ∅ ∅ ∅.


(** ** PlantAgent._init_currency_exchange *)

(** The loop that fills [self.co2_scale]: 1 for every [in_]/[out_] attribute. *)
Fixpoint co2_scale_loop (attrs : list string) (co2_scale : gmap string Q)
  : iresult (gmap string Q) :=
  match attrs with
  | [] => IOk co2_scale
  | attr :: rest =>
      let+ pc := lift (split_prefix attr) in
      let co2_scale :=
        if String.eqb (fst pc) "in" || String.eqb (fst pc) "out" then <[attr := 1]> co2_scale
        else co2_scale in
      co2_scale_loop rest co2_scale
  end.

(** [PlantAgent._init_currency_exchange()], from [self.lifetime],
    [self.growth_criteria] and [self.total_growth]; it returns the new
    exchange state, [total_growth] and [co2_scale]. *)
Definition plant_init_currency_exchange
    (get_growth_values : growth_kwargs -> iresult (list Q))
    (get_agents_by_type : string -> list (gmap string string)) (xi : exchange_inputs)
    (lifetime : Q) (growth_criteria : option string) (total_growth : Q) (xs : exchange_state)
  : iresult (exchange_state * Q * gmap string Q) :=
  let n_steps := py_int lifetime in
  let+ xs := init_currency_exchange get_growth_values get_agents_by_type xi (Some n_steps) xs in
  let+ total_growth :=
    if str_truthy growth_criteria && Qeq_bool total_growth 0 then
      let+ sv := lift (getitem (xs_step_values xs) (default "" growth_criteria)) in
      IOk (qsum sv)
    else IOk total_growth in
  let+ co2_scale := co2_scale_loop (xi_attr_names xi) ∅ in
  IOk (xs, total_growth, co2_scale).

(** Whether [attr.split('_', 1)[0]] is ['in'] or ['out']. *)
Definition is_flow_attr (attr : string) : bool :=
  match split_once attr with
  | Some (p, _) => String.eqb p "in" || String.eqb p "out"
  | None => false
  end.


(** A lettuce taking [co2] from a [greenhouse], with [co2] as its growth
    criteria. *)
Definition co2_currency_dict : gmap string currency_data :=
  <["atmosphere" := mkCurrencyData TCurrencyClass "" ["co2"]]>
  (<["co2" := mkCurrencyData TCurrency "atmosphere" []]> ∅).

Definition greenhouse_agents (agent_type : string) : list (gmap string string) :=
  if String.eqb agent_type "greenhouse" then [<["char_capacity_co2" := "kg"]> ∅] else [].

Definition co2_flow_details : sv_details :=
  mkSvDetails "hour" None None None None None None None None None None None
              false false false false None None None None.

Definition lettuce_exchange_inputs : exchange_inputs :=
  mkExchangeInputs "lettuce" 10 ["in_co2"; "char_lifetime"]
    (<["in_co2" := 2]> (<["char_lifetime" := 30]> ∅))
    (<["in_co2" := mkFlowInitDetails (Some "kg") None None None]> ∅)
    (<["in_co2" := co2_flow_details]> ∅)
    ∅
    (<["in" := <["co2" := ["greenhouse"]]> ∅]> ∅)
    co2_currency_dict 1 24.


(** ** BaseAgent._init_variation *)

(** [iv.get('upper', 0)] and [iv.get('lower', 0)]: a number, or a dict
    of one value per currency. *)
Inductive var_bound :=
| VScalar (x : Q)
| VDict (d : gmap string Q).

(** A truthy [variation['initial']]. *)
Record initial_variation := mkInitialVariation {
  iv_upper : var_bound;
  iv_lower : var_bound;
  iv_distribution : option string;
  iv_stdev_range : option Q;
  iv_characteristics : list string
}.

(** A truthy [variation['step']], and [self.step_variation] itself:
    [upper], [lower] and [distribution]. *)
Record step_variation_spec := mkStepVariationSpec {
  svs_upper : Q;
  svs_lower : Q;
  svs_distribution : option string
}.

(** The attributes [_init_variation] reads and writes; [None] for an
    attribute not assigned yet (and [Some None] for a [None] value). *)
Record variation_state := mkVariationState {
  vst_attrs : gmap string Q;
  vst_initial_variable : option Q;
  vst_step_variation : option (option step_variation_spec);
  vst_step_variable : option Q
}.

Definition set_vst_attrs (st : variation_state) (x : gmap string Q) : variation_state :=
  mkVariationState x (vst_initial_variable st) (vst_step_variation st) (vst_step_variable st).

Definition set_initial_variable (st : variation_state) (x : Q) : variation_state :=
  mkVariationState (vst_attrs st) (Some x) (vst_step_variation st) (vst_step_variable st).

Definition set_step_variation (st : variation_state) (x : option step_variation_spec) (y : Q)
  : variation_state :=
  mkVariationState (vst_attrs st) (vst_initial_variable st) (Some x) (Some y).

(** [np.interp(x, [0, 1], [a, b])] *)
Definition np_interp01 (x a b : Q) : Q :=
  if Qle_bool x 0 then a else if Qle_bool 1 x then b else a + x * (b - a).

(** [prefix in ['in', 'out'] or field in characteristics] *)
Definition varied (characteristics : list string) (prefix field : string) : bool :=
  String.eqb prefix "in" || String.eqb prefix "out" || existsb (String.eqb field) characteristics.

(** The loop of the per-currency case. *)
Fixpoint interp_loop (characteristics : list string) (x_norm : Q) (y_ref : var_bound)
    (names : list string) (attrs : gmap string Q) : iresult (gmap string Q) :=
  match names with
  | [] => IOk attrs
  | attr :: rest =>
      let+ pc := lift (split_prefix attr) in
      if varied characteristics (fst pc) (snd pc) then
        let+ y := match y_ref with
                  | VScalar _ => IRaise (TypeError "argument is not iterable")
                  | VDict d =>
                      match d !! snd pc with
                      | Some y => IOk y
                      | None => IRaise (PyExn ValueError)
                      end
                  end in
        let+ attr_value := lift (getitem attrs attr) in
        interp_loop characteristics x_norm y_ref rest
          (<[attr := np_interp01 x_norm attr_value y]> attrs)
      else interp_loop characteristics x_norm y_ref rest attrs
  end.

(** The loop of the scalar case. *)
Fixpoint scale_loop (characteristics : list string) (v : Q) (names : list string)
    (attrs : gmap string Q) : iresult (gmap string Q) :=
  match names with
  | [] => IOk attrs
  | attr :: rest =>
      let+ pc := lift (split_prefix attr) in
      if varied characteristics (fst pc) (snd pc) then
        let+ attr_value := lift (getitem attrs attr) in
        scale_loop characteristics v rest (<[attr := attr_value * v]> attrs)
      else scale_loop characteristics v rest attrs
  end.

Section Variation.

(** [self.model.random_state] and [variation_func.get_variable(random_state,
    upper, lower, distribution, stdev_range)] (outside this package). *)
Context {rng : Type}.
Variable get_variable : rng -> Q -> Q -> option string -> option Q -> Q * rng.

(** [self._init_variation(variation)] with [ge = self.model.global_entropy],
    the keys of [self.attrs] in order, [variation.get('initial')] and
    [variation.get('step')] ([None] when falsy). *)
Definition init_variation (ge : Q) (names : list string) (iv : option initial_variation)
    (sv : option step_variation_spec) (st : variation_state) (r : rng)
  : iresult (variation_state * rng) :=
  let+ t :=
    match iv with
    | None => IOk (st, r, false)
    | Some iv =>
        match iv_upper iv, iv_lower iv with
        | VScalar upper, VScalar lower =>
            let upper := upper * ge in
            let lower := lower * ge in
            let '(v, r) := get_variable r upper lower (iv_distribution iv) (iv_stdev_range iv) in
            let st := set_initial_variable st v in
            let+ attrs := scale_loop (iv_characteristics iv) v names (vst_attrs st) in
            IOk (set_vst_attrs st attrs, r, false)
        | upper, lower =>
            let '(v, r) := get_variable r ge ge (iv_distribution iv) (iv_stdev_range iv) in
            let st := set_initial_variable st v in
            if Qeq_bool v 1 then IOk (st, r, true) else
            let y_ref := if qlt v 1 then lower else upper in
            let x_norm := Qabs (v - 1) in
            let+ attrs := interp_loop (iv_characteristics iv) x_norm y_ref names (vst_attrs st) in
            IOk (set_vst_attrs st attrs, r, false)
        end
    end in
  let '(st, r, returned) := t in
  if returned then IOk (st, r) else
  match sv with
  | Some s =>
      IOk (set_step_variation st
             (Some (mkStepVariationSpec (ge * svs_upper s) (ge * svs_lower s)
                      (svs_distribution s))) 1, r)
  | None => IOk (st, r)
  end.

End Variation.

(** Whether [_init_variation] varies [attr]. *)
Definition is_varied (characteristics : list string) (attr : string) : bool :=
  match split_once attr with
  | Some (p, f) => varied characteristics p f
  | None => false
  end.


(** A draw that always returns [upper]. *)
Definition upper_variable (n : nat) (upper _ : Q) (_ : option string) (_ : option Q) : Q * nat :=
  (upper, S n).

(** A human with a potable water flow and a mass characteristic. *)
Definition human_variation_attrs : gmap string Q :=
  <["in_potable" := 3]> (<["char_mass" := 60]> (<["char_height" := 2]> ∅)).

Definition human_variation_names : list string := ["in_potable"; "char_mass"; "char_height"].

Definition no_variation_state : variation_state :=
  mkVariationState human_variation_attrs None None None.

(* ================================================================== *)
(** * Proofs *)

(** ** Helpers on the runtime *)

Lemma qlt_spec x y : qlt x y = true <-> x < y.
Proof.
  unfold qlt. rewrite negb_true_iff. split; intro H.
  - apply Qnot_le_lt. intro Hle. apply Qle_bool_iff in Hle. congruence.
  - destruct (Qle_bool y x) eqn:E; [|reflexivity].
    apply Qle_bool_iff in E. exfalso. apply (Qlt_not_le x y); assumption.
Qed.

Lemma qle_spec x y : qle x y = true <-> x <= y.
Proof. apply Qle_bool_iff. Qed.

Lemma qlt_false x y : qlt x y = false <-> y <= x.
Proof.
  unfold qlt. rewrite negb_false_iff. apply Qle_bool_iff.
Qed.

Lemma qle_false x y : qle x y = false <-> y < x.
Proof.
  split; intro H.
  - apply Qnot_le_lt. intro Hle. apply qle_spec in Hle. congruence.
  - destruct (qle x y) eqn:E; [|reflexivity].
    apply qle_spec in E. exfalso. apply (Qlt_not_le y x); assumption.
Qed.

Lemma dedup_go_spec (seen l : list string) :
  NoDup (dedup_go seen l) /\
  (forall x, x ∈ dedup_go seen l -> (x ∉ seen) /\ x ∈ l).
Proof.
  revert seen. induction l as [|y l IH]; intros seen; simpl.
  - split; [constructor|]. intros x Hx. inversion Hx.
  - case_bool_decide as Hy.
    + destruct (IH seen) as [Hnd Hin]. split; [exact Hnd|].
      intros x Hx. destruct (Hin x Hx) as [H1 H2]. split; [exact H1|].
      right; exact H2.
    + destruct (IH (y :: seen)) as [Hnd Hin]. split.
      * constructor; [|exact Hnd].
        intro Hx. destruct (Hin y Hx) as [H1 _]. apply H1. left.
      * intros x Hx. apply elem_of_cons in Hx as [->|Hx].
        -- split; [exact Hy| left].
        -- destruct (Hin x Hx) as [H1 H2]. split.
           ++ intro Hs. apply H1. right. exact Hs.
           ++ right. exact H2.
Qed.

(** The dict a view returns has distinct keys, and its values are the
    current balances. *)
Lemma view_spec (s : storage) v cs :
  view s v = Ok cs ->
  NoDup (map fst cs) /\ Forall (fun p => st_balance s !! p.1 = Some p.2) cs.
Proof.
  unfold view, rbind, getitem.
  destruct (st_currency_dict s !! v) as [d|]; [|discriminate].
  destruct (cd_type d).
  - destruct (st_balance s !! v) as [b|] eqn:Hb; [|discriminate].
    intros H. injection H as <-. simpl. split.
    + constructor; [apply not_elem_of_nil | constructor].
    + constructor; [exact Hb | constructor].
  - set (ks := dict_keys _). intros H.
    assert (Hnd : NoDup ks) by apply dedup_go_spec.
    clearbody ks. revert cs H.
    induction ks as [|k ks IH]; intros cs H; simpl in H.
    + injection H as <-. split; constructor.
    + destruct (st_balance s !! k) as [b|] eqn:Hb; [|discriminate].
      destruct (fold_right _ _ ks) as [rest|e] eqn:Hrest; [|discriminate].
      injection H as <-. apply NoDup_cons in Hnd as [Hk Hnd].
      destruct (IH Hnd rest eq_refl) as [H1 H2]. split.
      * simpl. constructor; [|exact H1].
        assert (Hm : map fst rest = ks).
        { clear -Hrest. revert rest Hrest. induction ks as [|k' ks IH];
            intros rest Hrest; simpl in Hrest.
          - injection Hrest as <-. reflexivity.
          - destruct (st_balance s !! k') eqn:?; [|discriminate].
            destruct (fold_right _ _ ks) eqn:?; [|discriminate].
            injection Hrest as <-. simpl. f_equal. apply IH. reflexivity. }
        rewrite Hm. exact Hk.
      * constructor; [exact Hb | exact H2].
  - discriminate.
Qed.

(** ** StorageAgent.increment *)

Lemma decrement_loop_spec (a t : Q) (cs : list (string * Q)) (s : storage) :
  NoDup (map fst cs) -> Forall (fun p => st_balance s !! p.1 = Some p.2) cs ->
  decrement_loop a (map (fun '(c, b) => (c, b / t)) cs) s =
  Ok (set_balances s (map (fun '(c, b) => (c, decrement_member a t b)) cs),
      map (fun '(c, b) => (c, b - decrement_member a t b)) cs).
Proof.
  revert s. induction cs as [|[c b] cs IH]; intros s Hnd Hbal; [reflexivity|].
  simpl in *. apply NoDup_cons in Hnd as [Hc Hnd].
  apply Forall_cons in Hbal as [Hb Hbal]. simpl in Hb.
  unfold getitem at 1. rewrite Hb. simpl.
  rewrite IH; [reflexivity | exact Hnd |].
  apply Forall_forall. intros [c' b'] Hin. simpl.
  rewrite lookup_insert_ne.
  - exact (proj1 (Forall_forall _ _) Hbal _ Hin).
  - intros ->. apply Hc. apply list_elem_of_In, in_map_iff.
    exists (c', b'). split; [reflexivity|]. apply list_elem_of_In. exact Hin.
Qed.

Lemma decrement_member_bounds (a t b : Q) :
  a < 0 -> 0 < t -> 0 <= b ->
  0 <= decrement_member a t b /\ decrement_member a t b <= b.
Proof.
  intros Ha Ht Hb. unfold decrement_member.
  assert (Hq : 0 <= b / t) by (apply Qle_shift_div_l; lra).
  assert (Hm : a * (b / t) <= 0) by nra.
  destruct (Q.max_spec (b + a * (b / t)) 0) as [[H1 H2]|[H1 H2]];
    rewrite H2; lra.
Qed.

Lemma decrement_member_proportional (a t b : Q) :
  0 < t -> 0 <= b -> - a <= t ->
  b - decrement_member a t b == - a * (b / t).
Proof.
  intros Ht Hb Hat. unfold decrement_member.
  assert (Hq : 0 <= b / t) by (apply Qle_shift_div_l; lra).
  assert (Hbt : b == t * (b / t)) by (field; lra).
  assert (Hpos : 0 <= b + a * (b / t)) by nra.
  destruct (Q.max_spec (b + a * (b / t)) 0) as [[H1 H2]|[H1 H2]];
    rewrite H2; lra.
Qed.

(** C1: a positive increment of a currency sets its balance to
    [min(old + a, capacity * amount)] as the docstring says, but returns
    [old - new], the NEGATED amount applied, which is
    [- min(a, capacity * amount - old)] when [old <= capacity * amount],
    where the docstring promises "the actual amount incremented"; on the
    tank of capacity 100 holding 0, adding 150 gives balance 100 and
    returned delta [-100] instead of [100]. *)
Theorem increment_positive_spec (s : storage) (v : string) (a cap old : Q)
    (d : currency_data) :
  0 < a ->
  st_currency_dict s !! v = Some d -> cd_type d = TCurrency ->
  st_capacity s !! v = Some cap -> st_balance s !! v = Some old ->
  let capacity := cap * inject_Z (st_amount s) in
  let new := Qmin (old + a) capacity in
  increment s v a = Ok (set_balance s v new, [(v, old - new)]) /\
  (old <= capacity -> old - new == - Qmin a (capacity - old)) /\
  increment (water_tank 0 0) "potable" 150 =
    Ok (set_balance (water_tank 0 0) "potable" 100, [("potable", -100)]).
Proof.
  intros Ha Hd Ht Hcap Hold capacity new. split; [|split].
  - unfold increment. replace (qlt 0 a) with true by (symmetry; apply qlt_spec; exact Ha).
    unfold rbind, getitem. rewrite Hd, Ht, Hcap, Hold. reflexivity.
  - intros Hle. unfold new.
    destruct (Q.min_spec (old + a) capacity) as [[H1 H2]|[H1 H2]];
      destruct (Q.min_spec a (capacity - old)) as [[H3 H4]|[H3 H4]];
      rewrite H2, H4; lra.
  - vm_compute. reflexivity.
Qed.

(** C1 as stated fails: the returned value for 150 into the empty tank of
    capacity 100 is [-100], not the applied amount [100]. *)
Lemma increment_positive_returns_applied_cex :
  exists s' f, increment (water_tank 0 0) "potable" 150 = Ok (s', f) /\
    f <> [("potable", 100)].
Proof.
  eexists _, _. split; [vm_compute; reflexivity|]. discriminate.
Qed.

(** C2: a negative increment of a currency or currency class [v] whose
    view is [cs] (total [t]) leaves every member [b] at [max(b + a*b/t, 0)]
    and returns what was removed; with [t <= 0] nothing changes and every
    member gets delta 0.  The removal is the member's share [-a * b / t]
    when the view holds enough; for the tank with potable 30 and grey 10,
    taking 20 from [water] removes 15 and 5. *)
Theorem increment_negative_spec (s : storage) (v : string) (a : Q)
    (cs : list (string * Q)) :
  a < 0 -> view s v = Ok cs ->
  let total := qsum (map snd cs) in
  (total <= 0 -> increment s v a = Ok (s, map (fun '(c, _) => (c, 0)) cs)) /\
  (0 < total ->
     increment s v a =
       Ok (set_balances s (map (fun '(c, b) => (c, decrement_member a total b)) cs),
           map (fun '(c, b) => (c, b - decrement_member a total b)) cs) /\
     (forall c b, (c, b) ∈ cs -> 0 <= b -> - a <= total ->
        b - decrement_member a total b == - a * (b / total))) /\
  (exists s' f, increment (water_tank 30 10) "water" (-20) = Ok (s', f) /\
     map fst f = ["potable"; "grey"] /\
     Forall2 Qeq (map snd f) [15; 5] /\
     st_balance s' !! "potable" = Some (600 # 40) /\
     st_balance s' !! "grey" = Some (200 # 40)).
Proof.
  intros Ha Hv total. unfold total.
  assert (Hneg : qlt 0 a = false) by (apply qlt_false; lra).
  assert (Hneg' : qlt a 0 = true) by (apply qlt_spec; exact Ha).
  destruct (view_spec s v cs Hv) as [Hnd Hbal].
  split; [|split].
  - intros Ht. unfold increment. rewrite Hneg, Hneg', Hv. simpl.
    replace (qle (qsum (map snd cs)) 0) with true by (symmetry; apply qle_spec; exact Ht).
    reflexivity.
  - intros Ht. split.
    + unfold increment. rewrite Hneg, Hneg', Hv. simpl.
      replace (qle (qsum (map snd cs)) 0) with false by (symmetry; apply qle_false; exact Ht).
      apply decrement_loop_spec; assumption.
    + intros c b _ Hb Hat. apply decrement_member_proportional; assumption.
  - eexists _, _. split; [vm_compute; reflexivity|].
    split; [reflexivity|]. split; [|split; reflexivity].
    repeat constructor; vm_compute; reflexivity.
Qed.

Lemma set_balances_bounded (s : storage) (l : list (string * Q)) :
  storage_bounded s ->
  Forall (fun p => forall cap, st_capacity s !! p.1 = Some cap ->
            0 <= p.2 /\ p.2 <= cap * inject_Z (st_amount s)) l ->
  storage_bounded (set_balances s l).
Proof.
  revert s. induction l as [|[c v] l IH]; intros s Hs Hl; [exact Hs|].
  apply Forall_cons in Hl as [Hv Hl]. simpl in *. apply IH; [|exact Hl].
  intros c' cap Hcap. simpl in Hcap.
  destruct (decide (c' = c)) as [->|Hne].
  - exists v. simpl. rewrite lookup_insert_eq. split; [reflexivity|].
    apply Hv. exact Hcap.
  - simpl. rewrite lookup_insert_ne by congruence. apply Hs. exact Hcap.
Qed.

Lemma increment_bounded (s : storage) v a s' f :
  storage_bounded s -> increment s v a = Ok (s', f) -> storage_bounded s'.
Proof.
  intros Hs. unfold increment.
  destruct (qlt 0 a) eqn:Hpos.
  - apply qlt_spec in Hpos. unfold rbind, getitem.
    destruct (st_currency_dict s !! v) as [d|]; [|discriminate].
    destruct (cd_type d); try discriminate.
    destruct (st_capacity s !! v) as [cap|] eqn:Hcap; [|discriminate].
    destruct (st_balance s !! v) as [old|] eqn:Hold; [|discriminate].
    intros H. injection H as <- _.
    apply (set_balances_bounded s [(v, _)] Hs). constructor; [|constructor].
    intros cap' Hcap'. simpl in Hcap'. rewrite Hcap in Hcap'.
    injection Hcap' as <-. simpl.
    destruct (Hs v cap Hcap) as (b & Hb & Hb0 & Hb1).
    rewrite Hold in Hb. injection Hb as <-.
    destruct (Q.min_spec (old + a) (cap * inject_Z (st_amount s)))
      as [[H1 H2]|[H1 H2]]; rewrite H2; lra.
  - destruct (qlt a 0) eqn:Hneg.
    + apply qlt_spec in Hneg. apply qlt_false in Hpos.
      destruct (view s v) as [cs|] eqn:Hv; [|discriminate]. simpl.
      destruct (view_spec s v cs Hv) as [Hnd Hbal].
      destruct (qle (qsum (map snd cs)) 0) eqn:Ht.
      * intros H. injection H as <- _. exact Hs.
      * apply qle_false in Ht.
        rewrite decrement_loop_spec by assumption.
        intros H. injection H as <- _.
        apply set_balances_bounded; [exact Hs|].
        apply Forall_forall. intros [c b'] Hin. simpl.
        apply list_elem_of_In, in_map_iff in Hin as [[c0 b] [Heq Hin]].
        injection Heq as <- <-.
        intros cap Hcap.
        pose proof (proj1 (Forall_forall _ _) Hbal (c0, b)
                      (proj2 (list_elem_of_In _ _) Hin)) as Hb. simpl in Hb.
        destruct (Hs c0 cap Hcap) as (b0 & Hb0 & Hlo & Hhi).
        rewrite Hb in Hb0. injection Hb0 as <-.
        destruct (decrement_member_bounds a (qsum (map snd cs)) b)
          as [Hm0 Hm1]; try assumption.
        split; [exact Hm0 | eapply Qle_trans; eassumption].
    + intros H. injection H as <- _. exact Hs.
Qed.

(** C3: starting from balances within [0, capacity * amount], every
    sequence of [increment] calls keeps them there. *)
Theorem increments_bounded (s : storage) (ops : list (string * Q)) :
  storage_bounded s -> storage_bounded (increments s ops).
Proof.
  revert s. induction ops as [|[v a] ops IH]; intros s Hs; simpl; [exact Hs|].
  destruct (increment s v a) as [[s' f]|e] eqn:Hi.
  - apply IH. exact (increment_bounded s v a s' f Hs Hi).
  - apply IH. exact Hs.
Qed.

Lemma increment_positive_spec_witness :
  0 < 150 /\
  increment (water_tank 30 10) "potable" 150 =
    Ok (set_balance (water_tank 30 10) "potable" (Qmin (30 + 150) (100 * inject_Z 1)),
        [("potable", 30 - Qmin (30 + 150) (100 * inject_Z 1))]).
Proof.
  split; [reflexivity|].
  refine (proj1 (increment_positive_spec (water_tank 30 10) "potable" 150 100 30
                   (mkCurrencyData TCurrency "water" []) _ _ _ _ _));
    reflexivity.
Defined.

Lemma increment_negative_spec_witness :
  view (water_tank 30 10) "water" = Ok [("potable", 30); ("grey", 10)] /\
  increment (water_tank 30 10) "water" (-20) =
    Ok (set_balances (water_tank 30 10)
          (map (fun '(c, b) => (c, decrement_member (-20) (qsum [30; 10]) b))
               [("potable", 30); ("grey", 10)]),
        map (fun '(c, b) => (c, b - decrement_member (-20) (qsum [30; 10]) b))
            [("potable", 30); ("grey", 10)]).
Proof.
  split; [vm_compute; reflexivity|].
  refine (proj1 (proj1 (proj2 (increment_negative_spec (water_tank 30 10) "water" (-20)
                   [("potable", 30); ("grey", 10)] _ _)) _)).
  - reflexivity.
  - vm_compute. reflexivity.
  - reflexivity.
Defined.

Lemma increments_bounded_witness :
  storage_bounded (water_tank 30 10) /\
  storage_bounded (increments (water_tank 30 10)
                     [("potable", 150); ("water", -100); ("grey", 5)]).
Proof.
  assert (H : storage_bounded (water_tank 30 10)).
  { intros c cap Hc. simpl in Hc.
    destruct (decide (c = "potable")) as [->|H1].
    - rewrite lookup_insert_eq in Hc. injection Hc as <-.
      exists 30. split; [reflexivity|]. split; vm_compute; discriminate.
    - rewrite lookup_insert_ne in Hc by congruence.
      destruct (decide (c = "grey")) as [->|H2].
      + rewrite lookup_insert_eq in Hc. injection Hc as <-.
        exists 10. split; [reflexivity|]. split; vm_compute; discriminate.
      + rewrite lookup_insert_ne in Hc by congruence. discriminate. }
  split; [exact H|]. apply increments_bounded. exact H.
Defined.

(** ** GeneralAgent._process_event *)

Section EventProofs.
Context {rng : Type}.
Variable rand : rng -> Q * rng.
Variable get_variable : rng -> Q -> Q -> string -> Q * rng.

Lemma new_instances_length n attr_value ad instances killed r :
  let '(instances', _, _) := new_instances rand get_variable n attr_value ad instances killed r in
  (length instances <= length instances' <= length instances + n)%nat.
Proof.
  revert instances killed r. induction n as [|n IH]; intros instances killed r; simpl.
  - lia.
  - destruct (new_instance rand get_variable attr_value ad r) as [[oi k] r'].
    specialize (IH (match oi with Some i => instances ++ [i] | None => instances end)
                   (killed || k) r').
    destruct (new_instances _ _ n _ _ _ _ _) as [[instances' k'] r''].
    destruct oi; rewrite ?length_app in IH; simpl in IH; lia.
Qed.

Lemma py_slice_upto_length {A} (l : list A) (k : Z) :
  (0 <= k)%Z -> length (py_slice_upto l k) = Nat.min (Z.to_nat k) (length l).
Proof.
  intros Hk. unfold py_slice_upto. destruct (Z.leb_spec 0 k); [|lia].
  apply length_firstn.
Qed.

(** C8: processing an event keeps at most one instance of a ['group']
    event and at most [amount] instances of an ['individual'] one; with
    instances left, the multiplier is
    [(sum of magnitudes + empty slots) / slots]; with none left, the
    event type has no entry in either map.  [event_wf] holds of the
    empty records an agent starts with and is kept by every call. *)
Theorem process_event_spec (event_type attr_value : string) (ad : event_details)
    (amount : Z) (es es' : event_state) (r r' : rng) (killed : bool) :
  (0 <= amount)%Z -> event_wf event_type ad es ->
  process_event rand get_variable event_type attr_value ad amount es r = Ok (es', killed, r') ->
  event_wf event_type ad es' /\
  (Z.of_nat (length (default [] (es_events es' !! event_type))) <= event_slots ad amount)%Z /\
  ((es_events es' !! event_type = None /\ es_multipliers es' !! event_type = None) \/
   (exists instances m,
      es_events es' !! event_type = Some instances /\ instances <> [] /\
      es_multipliers es' !! event_type = Some m /\
      m == (qsum (map inst_magnitude instances) +
            inject_Z (event_slots ad amount - Z.of_nat (length instances)))
           / inject_Z (event_slots ad amount))).
Proof.
  intros Ha [Hsync Hgroup]. unfold process_event.
  set (i0 := default [] (es_events es !! event_type)).
  set (i1 := filter instance_alive (map (age_instance (ev_duration_delta_per_step ad)) i0)).
  assert (Hi1 : (length i1 <= length i0)%nat).
  { unfold i1. rewrite <- (length_map (age_instance (ev_duration_delta_per_step ad)) i0).
    apply length_filter. }
  set (i2 := if (amount <? Z.of_nat (length i1))%Z then py_slice_upto i1 amount else i1).
  assert (Hi2 : (length i2 <= length i1)%nat /\ (Z.of_nat (length i2) <= amount)%Z).
  { unfold i2. destruct (Z.ltb_spec amount (Z.of_nat (length i1))).
    - rewrite py_slice_upto_length by exact Ha. lia.
    - lia. }
  change (if String.eqb (ev_scope ad) "group" then 1%Z else amount)
    with (event_slots ad amount).
  assert (Hms : (Z.of_nat (length i2) <= event_slots ad amount)%Z).
  { unfold event_slots in *. destruct (String.eqb (ev_scope ad) "group").
    - specialize (Hgroup eq_refl). fold i0 in Hgroup. lia.
    - lia. }
  pose proof (new_instances_length
                (Z.to_nat (event_slots ad amount - Z.of_nat (length i2)))
                attr_value ad i2 false r) as Hlen.
  destruct (new_instances _ _ _ _ _ _ _ _) as [[i3 k] r3].
  assert (Hi3 : (Z.of_nat (length i3) <= event_slots ad amount)%Z) by lia.
  destruct (Nat.eqb_spec (length i3) 0) as [H0|H0].
  - destruct (es_events es !! event_type) as [old|] eqn:E.
    + unfold rbind, getitem.
      destruct (es_multipliers es !! event_type) as [m|] eqn:Em; [|discriminate].
      intros H. injection H as <- _ _. unfold event_wf. cbn [es_events es_multipliers].
      rewrite !lookup_delete_eq. split; [split|split].
      * split; intros [? Hx]; congruence.
      * intros _. simpl. lia.
      * simpl. unfold event_slots in *. destruct (String.eqb (ev_scope ad) "group"); lia.
      * left. split; reflexivity.
    + intros H. injection H as <- _ _.
      assert (Em : es_multipliers es !! event_type = None).
      { destruct (es_multipliers es !! event_type) eqn:Em; [|reflexivity].
        exfalso. destruct (proj2 Hsync (ltac:(eexists; reflexivity))) as [? Hx].
        discriminate. }
      unfold event_wf. rewrite E, Em. split; [split|split].
      * split; intros [? Hx]; congruence.
      * intros _. simpl. lia.
      * simpl. unfold event_slots in *. destruct (String.eqb (ev_scope ad) "group"); lia.
      * left. split; [reflexivity | reflexivity].
  - intros H. injection H as <- _ _. unfold event_wf. cbn [es_events es_multipliers].
    rewrite !lookup_insert_eq. split; [split|split].
    + split; intros _; eexists; reflexivity.
    + intros Hg. simpl. unfold event_slots in Hi3. rewrite Hg in Hi3. lia.
    + simpl. exact Hi3.
    + right. eexists _, _. split; [reflexivity|]. split.
      * intros ->. apply H0. reflexivity.
      * split; [reflexivity | apply Qeq_refl].
Qed.

End EventProofs.

(** ** GeneralAgent._get_step_value *)

(** The three outcomes of the criteria gate of [_get_step_value]. *)
Lemma get_step_value_cases (fd : criteria_details) (nm : string)
    (opp : Q -> Q -> bool) (source : Q) (buffer : gmap string Q) (attr : string)
    (step_values : list Q) (day_length_hours step_num : nat) :
  fd_criteria_name fd = Some nm -> criteria_op (fd_criteria_limit fd) = Ok opp ->
  let cr_value := default 0 (fd_criteria_value fd) in
  let cr_buffer := default 0 (fd_criteria_buffer fd) in
  let res := get_step_value fd source buffer attr step_values day_length_hours step_num in
  (opp source cr_value = false ->
     res = Ok (0, if qlt 0 cr_buffer then <[attr := cr_buffer]> buffer else buffer)) /\
  (opp source cr_value = true -> 0 < cr_buffer ->
     forall b, buffer !! attr = Some b -> 0 < b ->
     res = Ok (0, <[attr := b - 1]> buffer)) /\
  (opp source cr_value = true -> cr_buffer <= 0 \/ default 0 (buffer !! attr) <= 0 ->
     res = (let* v := lookup_step_value step_values day_length_hours step_num in
            Ok (v, buffer))).
Proof.
  intros Hn Hop cr_value cr_buffer res. unfold res, get_step_value.
  rewrite Hn. simpl. rewrite Hop. simpl. fold cr_value cr_buffer.
  split; [|split].
  - intros Hf. rewrite Hf. reflexivity.
  - intros Ht Hcb b Hb Hb0. rewrite Ht.
    rewrite (proj2 (qlt_spec 0 cr_buffer) Hcb), Hb. simpl.
    rewrite (proj2 (qlt_spec 0 b) Hb0). simpl. unfold getitem. rewrite Hb.
    reflexivity.
  - intros Ht Hno. rewrite Ht.
    destruct Hno as [Hno|Hno].
    + rewrite (proj2 (qlt_false 0 cr_buffer) Hno). reflexivity.
    + rewrite (proj2 (qlt_false 0 (default 0 (buffer !! attr))) Hno), andb_false_r.
      reflexivity.
Qed.

(** C5 (as the code does it): with a criteria, a failing comparison
    suppresses the flow (value 0) and refills a configured buffer; a
    passing comparison suppresses the flow and consumes one unit of the
    buffer while that buffer is positive, and otherwise passes through to
    the curve lookup with the buffer unchanged. *)
Theorem get_step_value_criteria_gate (fd : criteria_details) (nm : string)
    (opp : Q -> Q -> bool) (source : Q) (buffer : gmap string Q) (attr : string)
    (step_values : list Q) (day_length_hours step_num : nat) :
  fd_criteria_name fd = Some nm -> criteria_op (fd_criteria_limit fd) = Ok opp ->
  let cr_value := default 0 (fd_criteria_value fd) in
  let cr_buffer := default 0 (fd_criteria_buffer fd) in
  let res := get_step_value fd source buffer attr step_values day_length_hours step_num in
  (opp source cr_value = false ->
     res = Ok (0, if qlt 0 cr_buffer then <[attr := cr_buffer]> buffer else buffer)) /\
  (opp source cr_value = true -> 0 < cr_buffer ->
     forall b, buffer !! attr = Some b -> 0 < b ->
     res = Ok (0, <[attr := b - 1]> buffer)) /\
  (opp source cr_value = true -> cr_buffer <= 0 \/ default 0 (buffer !! attr) <= 0 ->
     res = (let* v := lookup_step_value step_values day_length_hours step_num in
            Ok (v, buffer))).
Proof. exact (get_step_value_cases fd nm opp source buffer attr step_values day_length_hours step_num). Qed.

(** C5 as stated fails: [growth_rate = 1 > 0.5] passes the comparison,
    yet with 2 steps of buffer left the flow is suppressed (value 0,
    buffer 1) instead of taking its curve value 7. *)
Lemma criteria_pass_is_suppressed_cex :
  get_step_value growth_criteria 1 (<["in_co2" := 2]> ∅) "in_co2" [7] 24 0 =
    Ok (0, <["in_co2" := 2 - 1]> (<["in_co2" := 2]> ∅)) /\
  lookup_step_value [7] 24 0 = Ok 7.
Proof. split; vm_compute; reflexivity. Qed.



(** ** GeneralAgent.step: age *)

(** Case analysis on the first [rbind], [match] or [if] of a hypothesis. *)
Ltac split_result H :=
  repeat match type of H with
  | rbind ?m _ = _ => let E := fresh "E" in destruct m eqn:E; simpl in H; [|discriminate H]
  | (if ?b then _ else _) = _ => let E := fresh "E" in destruct b eqn:E; simpl in H
  | (let '(_, _) := ?p in _) = _ => destruct p; simpl in H
  end.

Section StepAge.
Context {rng : Type}.
Variable rand : rng -> Q * rng.
Variable get_variable : rng -> Q -> Q -> string -> Q * rng.
Variable custom_function :
  string -> option (agent -> @model_state rng -> result (agent * @model_state rng)).

Lemma flow_step_age prefix currency sids a (m : @model_state rng) influx o a' m' :
  flow_step prefix currency sids a m influx = Ok (o, a', m') ->
  ag_age a' = ag_age a /\
  (forall a'' m'' influx', o = Some (a'', m'', influx') -> ag_age a'' = ag_age a).
Proof.
  unfold flow_step, rbind.
  destruct (getitem _ _) as [fa|]; [|discriminate].
  destruct (Qeq_bool (fa_value fa) 0).
  { intros H. injection H as <- <- <-. split; [reflexivity|].
    intros ? ? ? H. injection H as <- _ _. reflexivity. }
  destruct (negb _).
  { intros H. injection H as <- <- <-. split; [reflexivity|].
    intros ? ? ? H. injection H as <- _ _. reflexivity. }
  destruct (get_step_value _ _ _ _ _ _ _) as [[sv buffer]|]; [|discriminate].
  destruct (available_conns _ _ _) as [conns|]; [|discriminate].
  destruct (update_deficit _ _ _ _ _ _ _ _ _) as [[|amount deprive md|actual amount deprive md]|];
    try discriminate.
  - intros H. injection H as <- <- <-. split; [reflexivity|]. discriminate.
  - intros H. injection H as <- <- <-. split; [reflexivity|]. discriminate.
  - destruct (process_exchange _ _ _ _ _ _) as [r|]; [|discriminate].
    intros H. injection H as <- <- <-. split; [reflexivity|].
    intros ? ? ? H. injection H as <- _ _. reflexivity.
Qed.

Lemma flows_loop_age prefix sel a (m : @model_state rng) influx o a' m' :
  flows_loop prefix sel a m influx = Ok (o, a', m') ->
  ag_age a' = ag_age a /\
  (forall a'' m'' influx', o = Some (a'', m'', influx') -> ag_age a'' = ag_age a).
Proof.
  revert a m influx. induction sel as [|[currency sids] sel IH]; intros a m influx; simpl.
  - intros H. injection H as <- <- <-. split; [reflexivity|].
    intros ? ? ? H. injection H as <- _ _. reflexivity.
  - unfold rbind. destruct (flow_step _ _ _ _ _ _) as [[[[[[a1 m1] inf1]|] a2] m2]|] eqn:E;
      [| |discriminate].
    + destruct (flow_step_age _ _ _ _ _ _ _ _ _ E) as [_ H1].
      specialize (H1 a1 m1 inf1 eq_refl). intros H.
      destruct (IH a1 m1 inf1 H) as [H2 H3]. split; [congruence|].
      intros ? ? ? Ho. rewrite (H3 _ _ _ Ho). exact H1.
    + destruct (flow_step_age _ _ _ _ _ _ _ _ _ E) as [H1 _].
      intros H. injection H as <- <- <-. split; [exact H1|]. discriminate.
Qed.

(** The custom functions (outside this module) leave [age] alone. *)
Hypothesis custom_keeps_age :
  forall name f a m a' m', custom_function name = Some f ->
    f a m = Ok (a', m') -> ag_age a' = ag_age a.

Lemma attrs_loop_age attrs a (m : @model_state rng) st a' m' :
  attrs_loop rand get_variable custom_function attrs a m = Ok (st, a', m') ->
  ag_age a' = ag_age a.
Proof.
  revert a m. induction attrs as [|sa attrs IH]; intros a m; simpl.
  - intros H. injection H as _ <- _. reflexivity.
  - destruct sa as [threshold_type currency limit|name|event_type attr_value ad|].
    + unfold rbind. destruct (threshold_met _ _ _ _ _) as [met|]; [|discriminate].
      destruct met.
      * intros H. injection H as _ <- _. reflexivity.
      * apply IH.
    + destruct (custom_function name) as [f|] eqn:Hf; [|discriminate].
      unfold rbind. destruct (f a m) as [[a1 m1]|] eqn:Ef; [|discriminate].
      intros H. rewrite (IH _ _ H). exact (custom_keeps_age _ _ _ _ _ _ Hf Ef).
    + destruct (ag_process_events (ag_cfg a)); [|apply IH].
      unfold rbind. destruct (process_event _ _ _ _ _ _ _ _) as [[[es killed] rs]|];
        [|discriminate].
      intros H. rewrite (IH _ _ H). destruct killed; reflexivity.
    + apply IH.
Qed.

(** C9 (as the code does it): [step] adds [hours_per_step] to [age]
    before anything else, so every step that returns, including the
    threshold kill and the mandatory-deficit abort, advances [age] by
    exactly [hours_per_step]. *)
Theorem step_advances_age (a : agent) (m : @model_state rng) a' m' :
  step rand get_variable custom_function a m = Ok (a', m') ->
  ag_age a' = ag_age a + ms_hours_per_step m.
Proof.
  unfold step, rbind.
  set (a1 := set_age a (ag_age a + ms_hours_per_step m)).
  assert (Ha1 : ag_age a1 = ag_age a + ms_hours_per_step m) by reflexivity.
  destruct (attrs_loop _ _ _ _ a1 m) as [[[st a2] m2]|] eqn:E; [|discriminate].
  pose proof (attrs_loop_age _ _ _ _ _ _ E) as Ha2.
  destruct st.
  - set (p := match ag_step_variation (ag_cfg a2) with
              | Some (upper, lower, distribution) => _ | None => _ end).
    assert (Hp : ag_age (fst p) = ag_age a2).
    { unfold p. destruct (ag_step_variation (ag_cfg a2)) as [[[u l] d]|]; [|reflexivity].
      destruct (get_variable _ _ _ _). reflexivity. }
    destruct p as [a3 m3]. simpl in Hp.
    destruct (flows_loop In _ _ m3 []) as [[[[[[a4 m4] inf4]|] a5] m5]|] eqn:Ein;
      [| |discriminate].
    + destruct (flows_loop_age _ _ _ _ _ _ _ _ Ein) as [_ H4].
      specialize (H4 _ _ _ eq_refl).
      destruct (flows_loop Out _ a4 m4 inf4) as [[[o a6] m6]|] eqn:Eout; [|discriminate].
      destruct (flows_loop_age _ _ _ _ _ _ _ _ Eout) as [H6 _].
      intros H. injection H as <- _. simpl. rewrite H6, H4. simpl. congruence.
    + destruct (flows_loop_age _ _ _ _ _ _ _ _ Ein) as [H5 _].
      intros H. injection H as <- _. rewrite H5. simpl. congruence.
  - intros H. injection H as <- _. congruence.
Qed.

End StepAge.

(** C9 as stated fails: the plant killed by its [co2] threshold in its
    first step still ages by one hour. *)
Lemma threshold_kill_advances_age_cex :
  exists a' m',
    step counter_rand counter_variable no_custom_function
         (fresh_agent threshold_config) atmosphere_model = Ok (a', m') /\
    ag_active a' = false /\ ag_age a' = 1 /\ ag_age (fresh_agent threshold_config) = 0.
Proof. eexists _, _. split; [vm_compute; reflexivity|]. split; [|split]; reflexivity. Qed.

Lemma step_advances_age_witness :
  step counter_rand counter_variable no_custom_function
       (fresh_agent threshold_config) atmosphere_model =
    Ok (kill (set_age (fresh_agent threshold_config) 1), atmosphere_model) /\
  ag_age (kill (set_age (fresh_agent threshold_config) 1)) = 0 + 1.
Proof.
  assert (Hc : forall name f a m a' m', no_custom_function name = Some f ->
     f a m = Ok (a', m') -> ag_age a' = ag_age a) by discriminate.
  assert (Hs : step counter_rand counter_variable no_custom_function
       (fresh_agent threshold_config) atmosphere_model =
    Ok (kill (set_age (fresh_agent threshold_config) 1), atmosphere_model))
    by (vm_compute; reflexivity).
  split; [exact Hs|].
  exact (step_advances_age counter_rand counter_variable no_custom_function Hc
           (fresh_agent threshold_config) atmosphere_model _ _ Hs).
Defined.

(** ** GeneralAgent.step: deficit and deprivation (steps 8.1, 8.2) *)

Lemma Qfloor_nonneg (x : Q) : 0 <= x -> (0 <= Qfloor x)%Z.
Proof. intros H. rewrite <- (Qfloor_Z 0). apply Qfloor_resp_le. exact H. Qed.

Lemma Qfloor_lt_Z (x : Q) (n : Z) : x < inject_Z n -> (Qfloor x < n)%Z.
Proof.
  intros H. rewrite Zlt_Qlt. eapply Qle_lt_trans; [apply Qfloor_le | exact H].
Qed.

(** A [mandatory] attribute never reaches the deprivation kill: with a
    deficit [update_deficit] returns [DAbort] first. *)
Lemma update_deficit_mandatory_not_killed prefix fa attr available target step_mag
    amount deprive md amount' deprive' md' :
  fa_is_required fa = Some "mandatory" ->
  update_deficit prefix fa attr available target step_mag amount deprive md <>
    Ok (DKilled amount' deprive' md').
Proof.
  intros Hm. unfold update_deficit. rewrite Hm.
  rewrite (bool_decide_true (Some "mandatory" = Some "mandatory")) by reflexivity.
  destruct prefix; [destruct (qlt available target)|]; cbn [andb]; try discriminate;
    destruct (qlt 0 _); unfold rbind; try discriminate;
    destruct (getitem _ _); discriminate.
Qed.

(** C4 (as the code does it), for an attribute with a deprivation budget
    [d] consumed at a positive rate [delta].  For a [mandatory] attribute,
    an [in] deficit makes [update_deficit] return [DAbort], and a flow step
    of such an attribute that ends the agent's step changes only the
    buffer: [amount], the budget and the model are unchanged.  For any
    other attribute, on an [in] deficit [floor(available / step_mag)]
    instances are satisfied and the exchanged quantity is that count
    times [step_mag]; [min(amount - satisfied, floor(max(d, 0) / delta))]
    deprived instances survive and pay [delta] each; the others are
    removed from [amount], and the agent is killed iff the new amount is
    [<= 0], which (with a positive [step_mag] and nothing negative
    available) is iff it is 0.  Without a deficit the budget becomes
    [min(deprive_value * amount, d + deprive_value)]. *)
Theorem update_deficit_deprive (fa : flow_attr) (attr : string)
    (available step_mag : Q) (amount : Z) (deprive : gmap string Q) (md : bool) (d : Q) :
  0 < fa_deprive_value fa ->
  0 < fa_delta_per_step fa -> ~ step_mag == 0 -> deprive !! attr = Some d ->
  let target := step_mag * inject_Z amount in
  let delta := fa_delta_per_step fa in
  let replenished :=
    <[attr := Qmin (fa_deprive_value fa * inject_Z amount) (d + fa_deprive_value fa)]> deprive in
  (available < target -> fa_is_required fa = Some "mandatory" ->
     update_deficit In fa attr available target step_mag amount deprive md = Ok DAbort) /\
  (forall (rng : Type) currency sids (a : agent) (m : @model_state rng) influx a' m',
     ag_flows (ag_cfg a) !! String.append "in_" currency = Some fa ->
     fa_is_required fa = Some "mandatory" ->
     flow_step In currency sids a m influx = Ok (None, a', m') ->
     (exists buffer, a' = set_buffer a buffer) /\
     ag_amount a' = ag_amount a /\ ag_deprive a' = ag_deprive a /\ m' = m) /\
  (available < target -> fa_is_required fa <> Some "mandatory" ->
     let n_satisfied := Qfloor (available / step_mag) in
     let n_survive := Z.min (amount - n_satisfied) (Qfloor (Qmax d 0 / delta)) in
     let amount' := (n_satisfied + n_survive)%Z in
     let deprive' := <[attr := d - delta * inject_Z n_survive]> deprive in
     let md' := if bool_decide (fa_is_required fa = Some "desired") then true else md in
     update_deficit In fa attr available target step_mag amount deprive md =
       (if (amount' <=? 0)%Z then Ok (DKilled amount' deprive' md')
        else Ok (DContinue (inject_Z n_satisfied * step_mag) amount' deprive' md')) /\
     (0 <= available -> 0 < step_mag ->
        (0 <= n_satisfied < amount)%Z /\ (0 <= n_survive)%Z /\ (0 <= amount')%Z)) /\
  (target <= available ->
     update_deficit In fa attr available target step_mag amount deprive md =
       Ok (DContinue target amount replenished md)) /\
  update_deficit Out fa attr available target step_mag amount deprive md =
    Ok (DContinue target amount replenished md).
Proof.
  intros Hdv Hdelta Hmag Hd target delta replenished.
  assert (Hdv' : qlt 0 (fa_deprive_value fa) = true) by (apply qlt_spec; exact Hdv).
  split; [|split; [|split; [|split]]].
  - intros Hdef Hm. unfold update_deficit.
    rewrite (proj2 (qlt_spec _ _) Hdef), Hm.
    rewrite (bool_decide_true (Some "mandatory" = Some "mandatory")) by reflexivity.
    reflexivity.
  - intros rng currency sids a m influx a' m' Hfa Hm H.
    unfold flow_step in H. cbv zeta in H.
    change (String.append (direction_name In) (String.append "_" currency))
      with (String.append "in_" currency) in H.
    unfold getitem at 1 in H. rewrite Hfa in H. cbn [rbind] in H.
    destruct (Qeq_bool (fa_value fa) 0); [discriminate|].
    destruct (negb _); [discriminate|].
    destruct (get_step_value _ _ _ _ _ _ _) as [[sv buffer]|]; [|discriminate].
    cbn [rbind] in H.
    destruct (available_conns _ _ _) as [conns|]; [|discriminate].
    cbn [rbind] in H.
    destruct (update_deficit _ _ _ _ _ _ _ _ _) as [[|amt dep md1|act amt dep md1]|] eqn:E;
      cbn [rbind] in H; try discriminate.
    + injection H as <- <-. split; [exists buffer; reflexivity|]. repeat split.
    + exfalso. exact (update_deficit_mandatory_not_killed _ _ _ _ _ _ _ _ _ _ _ _ Hm E).
    + destruct (process_exchange _ _ _ _ _ _); discriminate.
  - intros Hdef Hmand n_satisfied n_survive amount' deprive' md'.
    assert (Hmand' : bool_decide (fa_is_required fa = Some "mandatory") = false)
      by (apply bool_decide_eq_false; exact Hmand).
    split.
    + unfold update_deficit.
      rewrite (proj2 (qlt_spec _ _) Hdef), Hmand', Hdv'. cbn [andb].
      replace (Qeq_bool step_mag 0) with false
        by (symmetry; apply not_true_iff_false; intros E;
            apply Qeq_bool_iff in E; contradiction).
      unfold getitem. rewrite Hd. cbn [rbind].
      replace (Qeq_bool (fa_delta_per_step fa) 0) with false
        by (symmetry; apply not_true_iff_false; intros E;
            apply Qeq_bool_iff in E; lra).
      fold delta n_satisfied n_survive md'.
      replace (amount - (amount - n_satisfied - n_survive))%Z with amount' by (unfold amount'; lia).
      reflexivity.
    + intros Ha Hpos.
      assert (H1 : (0 <= n_satisfied)%Z).
      { apply Qfloor_nonneg. apply Qle_shift_div_l; [exact Hpos|]. lra. }
      assert (H2 : (n_satisfied < amount)%Z).
      { apply Qfloor_lt_Z. apply Qlt_shift_div_r; [exact Hpos|].
        unfold target in Hdef. rewrite Qmult_comm. exact Hdef. }
      assert (H3 : (0 <= Qfloor (Qmax d 0 / delta))%Z).
      { apply Qfloor_nonneg. apply Qle_shift_div_l; [exact Hdelta|].
        destruct (Q.max_spec d 0) as [[E0 E]|[E0 E]]; rewrite E; lra. }
      unfold amount', n_survive. lia.
  - intros Hnodef. unfold update_deficit.
    rewrite (proj2 (qlt_false _ _) Hnodef), Hdv'. simpl.
    unfold getitem. rewrite Hd. reflexivity.
  - unfold update_deficit. rewrite Hdv'. simpl.
    unfold getitem. rewrite Hd. reflexivity.
Qed.

(** C4 as stated fails for a mandatory attribute: the step returns at
    8.1 before any deprivation bookkeeping, so with nothing available
    neither [amount] nor the budget changes. *)
Lemma mandatory_deficit_skips_deprive_cex :
  update_deficit In (potable_flow (Some "mandatory")) "in_potable" 0 1 1 1
    (<["in_potable" := 5]> ∅) false = Ok DAbort /\
  update_deficit In (potable_flow None) "in_potable" 0 1 1 1
    (<["in_potable" := 5]> ∅) false =
    Ok (DContinue 0 1 (<["in_potable" := 5 - 1 * 1]> (<["in_potable" := 5]> ∅)) false).
Proof. split; vm_compute; reflexivity. Qed.

Lemma update_deficit_deprive_witness :
  0 < 1 * inject_Z 3 /\
  update_deficit In (potable_flow (Some "mandatory")) "in_potable" 0 (1 * inject_Z 3) 1 3
    (<["in_potable" := 5]> ∅) false = Ok DAbort /\
  update_deficit In (potable_flow None) "in_potable" 0 (1 * inject_Z 3) 1 3
    (<["in_potable" := 5]> ∅) false =
    Ok (DContinue (inject_Z 0 * 1) 3
          (<["in_potable" := 5 - 1 * inject_Z 3]> (<["in_potable" := 5]> ∅)) false).
Proof.
  assert (Hdef : 0 < 1 * inject_Z 3) by reflexivity.
  split; [exact Hdef|]. split.
  - destruct (update_deficit_deprive (potable_flow (Some "mandatory")) "in_potable" 0 1 3
                (<["in_potable" := 5]> ∅) false 5) as [Hm _].
    + reflexivity.
    + reflexivity.
    + discriminate.
    + reflexivity.
    + exact (Hm Hdef eq_refl).
  - destruct (update_deficit_deprive (potable_flow None) "in_potable" 0 1 3
                (<["in_potable" := 5]> ∅) false 5) as [_ [_ [Hin _]]].
    + reflexivity.
    + reflexivity.
    + discriminate.
    + reflexivity.
    + exact (proj1 (Hin Hdef ltac:(discriminate))).
Defined.

(** ** GeneralAgent.step: exchange with the connected storages (step 9) *)

(** C6: an [in] flow drains the storages in connection order (12 from two
    tanks holding 10 each takes 10 then 2), but an [out] flow does not
    split evenly: each storage gets [remaining_value / n], so 10 pushed to
    two empty tanks puts 5 in the first and 2.5 in the second, and 2.5 is
    never delivered. *)
Theorem process_exchange_out_not_even :
  (exists w f,
     process_exchange In "potable" 2 12
       [mkConn "tank_a" 10 100; mkConn "tank_b" 10 100]
       (<["tank_a" := water_tank 10 0]> (<["tank_b" := water_tank 10 0]> ∅)) = Ok (w, f) /\
     map fst f = ["tank_a"; "tank_b"] /\ Forall2 Qeq (map snd f) [10; 2]) /\
  (exists w f,
     process_exchange Out "potable" 2 10 two_tank_conns two_tanks = Ok (w, f) /\
     map fst f = ["tank_a"; "tank_b"] /\ Forall2 Qeq (map snd f) [5; 5 # 2] /\
     (exists a, option_map (fun s => st_balance s !! "potable") (w !! "tank_a")
                  = Some (Some a) /\ a == 5) /\
     (exists b, option_map (fun s => st_balance s !! "potable") (w !! "tank_b")
                  = Some (Some b) /\ b == 5 # 2)).
Proof.
  split.
  - eexists _, _. split; [vm_compute; reflexivity|]. split; [reflexivity|].
    repeat constructor; vm_compute; reflexivity.
  - eexists _, _. split; [vm_compute; reflexivity|]. split; [reflexivity|].
    split; [repeat constructor; vm_compute; reflexivity|]. split.
    + eexists. split; [vm_compute; reflexivity|]. vm_compute. reflexivity.
    + eexists. split; [vm_compute; reflexivity|]. vm_compute. reflexivity.
Qed.

(** ** Witnesses: the criteria gate, the wrap-around, the events *)

Lemma get_step_value_criteria_gate_witness :
  fd_criteria_name growth_criteria = Some "growth_rate" /\
  criteria_op (fd_criteria_limit growth_criteria) = Ok (fun x y => qlt y x) /\
  get_step_value growth_criteria 0 ∅ "in_co2" [7] 24 0 =
    Ok (0, <["in_co2" := 2]> ∅).
Proof.
  split; [reflexivity|]. split; [reflexivity|].
  exact (proj1 (get_step_value_criteria_gate growth_criteria "growth_rate"
                  (fun x y => qlt y x) 0 ∅ "in_co2" [7] 24 0 eq_refl eq_refl)
               eq_refl).
Defined.


Lemma process_event_spec_witness :
  (0 <= 3)%Z /\ event_wf "heat" heat_event (mkEventState ∅ ∅) /\
  exists es' killed r',
    process_event counter_rand counter_variable "heat" "multiplier" heat_event 3
      (mkEventState ∅ ∅) 0%nat = Ok (es', killed, r') /\
    event_wf "heat" heat_event es' /\
    (Z.of_nat (length (default [] (es_events es' !! "heat")))
       <= event_slots heat_event 3)%Z.
Proof.
  assert (Hwf : event_wf "heat" heat_event (mkEventState ∅ ∅)).
  { split; [split; intros [? Hx]; discriminate Hx | intros Hg; discriminate Hg]. }
  split; [lia|]. split; [exact Hwf|].
  exists (mkEventState
            (<["heat" := repeat (mkInstance (1 # 2) (Some 3)) 3]> ∅)
            (<["heat" := (qsum (repeat (1 # 2) 3) + inject_Z (3 - 3)) / inject_Z 3]> ∅)),
         false, 3%nat.
  assert (E : process_event counter_rand counter_variable "heat" "multiplier" heat_event 3
                (mkEventState ∅ ∅) 0%nat =
              Ok (mkEventState
                    (<["heat" := repeat (mkInstance (1 # 2) (Some 3)) 3]> ∅)
                    (<["heat" := (qsum (repeat (1 # 2) 3) + inject_Z (3 - 3)) / inject_Z 3]> ∅),
                  false, 3%nat)) by reflexivity.
  split; [exact E|].
  destruct (process_event_spec counter_rand counter_variable "heat" "multiplier"
              heat_event 3 _ _ 0%nat 3%nat false ltac:(lia) Hwf E) as [Hwf' [Hlen _]].
  split; [exact Hwf' | exact Hlen].
Defined.

(** ** PlantAgent._calculate_co2_scale *)

Lemma qsum_correct_outputs (l : list (string * Q)) (n e : Q) :
  qsum (map snd (map (fun cv => (fst cv, snd cv + (snd cv / n) * e)) l)) ==
  qsum (map snd l) + (qsum (map snd l) / n) * e.
Proof.
  induction l as [|[c v] l IH]; cbn [map qsum fold_right fst snd].
  - unfold Qdiv. ring.
  - unfold qsum in IH. rewrite IH. unfold Qdiv. ring.
Qed.

(** C7 (as the code does it): the outputs are rebalanced only when the
    co2-adjusted inputs exceed the co2-adjusted outputs by more than
    [value_eps]; then, when the adjusted outputs have a nonzero sum, the
    corrected outputs sum exactly to the adjusted inputs.  Otherwise the
    adjusted values are left as they are. *)
Theorem co2_correction_conserves (agent_type : string) (step_values : gmap string (list Q))
    (step_num : nat) (cu te eps : Q) (attrs : list string)
    (sv_baseline sv_adjusted : step_value_dicts) :
  co2_adjust_loop agent_type step_values step_num cu te attrs sv_empty sv_empty =
    Ok (sv_baseline, sv_adjusted) ->
  let net_inputs := qsum (map snd (sv_in sv_adjusted)) in
  let net_outputs := qsum (map snd (sv_out sv_adjusted)) in
  let corrected := co2_correct eps sv_adjusted in
  co2_adjusted agent_type step_values step_num cu te eps attrs = Ok (sv_baseline, corrected) /\
  (eps < net_inputs - net_outputs -> ~ net_outputs == 0 ->
     qsum (map snd (sv_out corrected)) == qsum (map snd (sv_in corrected))) /\
  (net_inputs - net_outputs <= eps -> corrected = sv_adjusted).
Proof.
  intros Hloop net_inputs net_outputs corrected.
  split; [|split].
  - unfold co2_adjusted. rewrite Hloop. reflexivity.
  - intros Herr Hn. unfold corrected, co2_correct. fold net_inputs net_outputs.
    rewrite (proj2 (qlt_spec _ _) Herr). cbn [sv_in sv_out].
    rewrite qsum_correct_outputs. fold net_outputs. fold net_inputs.
    field. exact Hn.
  - intros Herr. unfold corrected, co2_correct. fold net_inputs net_outputs.
    rewrite (proj2 (qlt_false _ _) Herr). reflexivity.
Qed.

(** C7 as stated fails: with co2 in 1 and o2 out 2 (both ratios 1),
    the adjusted inputs sum to 1 and the adjusted outputs to 2, and no
    correction is made: the scale factors are all 1. *)
Lemma co2_outputs_exceed_inputs_cex :
  co2_adjusted "lettuce" (lettuce_step_values 1 0 2 0) 0 1 1 value_eps ["in_co2"; "out_o2"] =
    Ok (mkSV [("co2", 1 * 1)] [("o2", 2 * 1)], mkSV [("co2", 1 * 1)] [("o2", 2 * 1)]) /\
  calculate_co2_scale "lettuce" (lettuce_step_values 1 0 2 0) 0 1 1 value_eps
    ["in_co2"; "out_o2"] = Ok [("in_co2", 1 * 1 / 1); ("out_o2", 2 * 1 / 2)].
Proof. split; vm_compute; reflexivity. Qed.

Lemma co2_correction_conserves_witness :
  exists b a,
    co2_adjust_loop "lettuce" (lettuce_step_values 2 3 1 1) 0 1 1 lettuce_attrs
      sv_empty sv_empty = Ok (b, a) /\
    value_eps < qsum (map snd (sv_in a)) - qsum (map snd (sv_out a)) /\
    ~ qsum (map snd (sv_out a)) == 0 /\
    qsum (map snd (sv_out (co2_correct value_eps a))) ==
      qsum (map snd (sv_in (co2_correct value_eps a))).
Proof.
  assert (E : co2_adjust_loop "lettuce" (lettuce_step_values 2 3 1 1) 0 1 1 lettuce_attrs
                sv_empty sv_empty =
              Ok (mkSV [("co2", 2); ("potable", 3)] [("o2", 1); ("h2o", 1)],
                  mkSV [("co2", 2 * 1); ("potable", 3 * (1 / 1))]
                       [("o2", 1 * 1); ("h2o", 1 * (1 / 1))])) by (vm_compute; reflexivity).
  eexists _, _. split; [exact E|].
  assert (Herr : value_eps < qsum (map snd [("co2", 2 * 1); ("potable", 3 * (1 / 1))]) -
                             qsum (map snd [("o2", 1 * 1); ("h2o", 1 * (1 / 1))]))
    by (vm_compute; reflexivity).
  assert (Hn : ~ qsum (map snd [("o2", 1 * 1); ("h2o", 1 * (1 / 1))]) == 0)
    by (vm_compute; discriminate).
  split; [exact Herr|]. split; [exact Hn|].
  exact (proj1 (proj2 (co2_correction_conserves "lettuce" (lettuce_step_values 2 3 1 1) 0 1 1
                         value_eps lettuce_attrs _ _ E)) Herr Hn).
Defined.

(** ** BaseAgent.add_currency_to_dict *)

Lemma filter_length_mono {A} (p q : A -> bool) (l : list A) :
  (forall x, p x = true -> q x = true) ->
  (length (List.filter p l) <= length (List.filter q l))%nat.
Proof.
  intros HPQ. induction l as [|x l IH]; [simpl; lia|]. cbn [List.filter].
  destruct (p x) eqn:Hp.
  - rewrite (HPQ x Hp). cbn [length]. lia.
  - destruct (q x); cbn [length]; lia.
Qed.

Lemma filter_length_drop {A} (p q : A -> bool) (l : list A) (y : A) :
  (forall x, p x = true -> q x = true) -> p y = false -> q y = true -> List.In y l ->
  (length (List.filter p l) < length (List.filter q l))%nat.
Proof.
  intros HPQ Hy Hy' Hin. induction l as [|x l IH]; [destruct Hin|]. cbn [List.filter].
  destruct Hin as [->|Hin].
  - rewrite Hy, Hy'. cbn [length].
    pose proof (filter_length_mono p q l HPQ). lia.
  - destruct (p x) eqn:Hp.
    + rewrite (HPQ x Hp). cbn [length]. specialize (IH Hin). lia.
    + specialize (IH Hin). destruct (q x); cbn [length]; lia.
Qed.

Lemma filter_length_le {A} (p : A -> bool) (l : list A) :
  (length (List.filter p l) <= length l)%nat.
Proof.
  induction l as [|x l IH]; [simpl; lia|]. cbn [List.filter].
  destruct (p x); cbn [length]; lia.
Qed.

Lemma missing_currencies_insert model_currency_dict currency_dict c d :
  model_currency_dict !! c = Some d -> currency_dict !! c = None ->
  (missing_currencies model_currency_dict (<[c := d]> currency_dict) <
   missing_currencies model_currency_dict currency_dict)%nat.
Proof.
  intros Hm Hc. unfold missing_currencies.
  apply (filter_length_drop _ _ _ c).
  - intros k Hk. apply bool_decide_eq_true in Hk. apply bool_decide_eq_true.
    destruct (String.eq_dec c k) as [->|Hne].
    + rewrite lookup_insert_eq in Hk. discriminate.
    + rewrite lookup_insert_ne in Hk by exact Hne. exact Hk.
  - apply bool_decide_eq_false. rewrite lookup_insert_eq. discriminate.
  - apply bool_decide_eq_true. exact Hc.
  - apply in_map_iff. exists (c, d). split; [reflexivity|].
    apply list_elem_of_In. apply elem_of_map_to_list. exact Hm.
Qed.

Lemma add_currency_go_enough fuel model_currency_dict currency_dict currency :
  (missing_currencies model_currency_dict currency_dict < fuel)%nat ->
  add_currency_go fuel model_currency_dict currency_dict currency <> None.
Proof.
  revert currency_dict currency. induction fuel as [|fuel IH];
    intros currency_dict currency Hf; [lia|].
  cbn [add_currency_go]. case_bool_decide as Hin; [discriminate|].
  destruct (model_currency_dict !! currency) as [d|] eqn:Hd; [|discriminate].
  destruct (cd_type d); try discriminate.
  apply IH.
  assert (Hc : currency_dict !! currency = None)
    by (destruct (currency_dict !! currency) eqn:E; [exfalso; apply Hin; eauto|reflexivity]).
  pose proof (missing_currencies_insert model_currency_dict currency_dict currency d Hd Hc).
  lia.
Qed.

(** [add_currency_to_dict] always terminates: whatever the classes of
    the currencies of [model.currency_dict] (even a class that is a
    currency of its own class, or a cycle of them), the recursion stops
    within one call per entry of [model.currency_dict] plus one. *)
Theorem add_currency_terminates (model_currency_dict currency_dict : gmap string currency_data)
    (currency : string) :
  add_currency_to_dict model_currency_dict currency_dict currency <> None.
Proof.
  apply add_currency_go_enough. unfold missing_currencies.
  pose proof (filter_length_le (fun k => bool_decide (currency_dict !! k = None))
                (map fst (map_to_list model_currency_dict))).
  rewrite length_map in H. lia.
Qed.

Lemma add_currency_go_spec fuel model_currency_dict currency_dict currency cd' :
  add_currency_go fuel model_currency_dict currency_dict currency = Some (Ok cd') ->
  currency_dict ⊆ cd' /\ is_Some (cd' !! currency) /\
  (forall k d, currency_dict !! k = None -> cd' !! k = Some d ->
     model_currency_dict !! k = Some d /\
     (cd_type d = TCurrency -> is_Some (cd' !! cd_class d))).
Proof.
  revert currency_dict currency. induction fuel as [|fuel IH];
    intros currency_dict currency H; [discriminate|].
  cbn [add_currency_go] in H. case_bool_decide as Hin.
  - injection H as <-. split; [reflexivity|]. split; [exact Hin|].
    intros k d Hk Hk'. congruence.
  - assert (Hc : currency_dict !! currency = None)
      by (destruct (currency_dict !! currency) eqn:E; [exfalso; apply Hin; eauto|reflexivity]).
    destruct (model_currency_dict !! currency) as [d|] eqn:Hd; [|discriminate].
    assert (Hsub : currency_dict ⊆ <[currency := d]> currency_dict)
      by (apply insert_subseteq; exact Hc).
    destruct (cd_type d) eqn:Ht.
    + destruct (IH _ _ H) as (Hsub' & Hcls & Hnew).
      assert (Hcd : cd' !! currency = Some d)
        by (eapply lookup_weaken; [apply lookup_insert_eq | exact Hsub']).
      split; [etransitivity; eassumption|]. split; [eauto|].
      intros k d' Hk Hk'. destruct (String.eq_dec k currency) as [->|Hne].
      * rewrite Hcd in Hk'. injection Hk' as <-. split; [exact Hd|]. intros _. exact Hcls.
      * apply Hnew; [|exact Hk']. rewrite lookup_insert_ne by congruence. exact Hk.
    + injection H as <-. split; [exact Hsub|]. split; [rewrite lookup_insert_eq; eauto|].
      intros k d' Hk Hk'. destruct (String.eq_dec k currency) as [->|Hne].
      * rewrite lookup_insert_eq in Hk'. injection Hk' as <-. split; [exact Hd|].
        rewrite Ht. discriminate.
      * rewrite lookup_insert_ne in Hk' by congruence. congruence.
    + injection H as <-. split; [exact Hsub|]. split; [rewrite lookup_insert_eq; eauto|].
      intros k d' Hk Hk'. destruct (String.eq_dec k currency) as [->|Hne].
      * rewrite lookup_insert_eq in Hk'. injection Hk' as <-. split; [exact Hd|].
        rewrite Ht. discriminate.
      * rewrite lookup_insert_ne in Hk' by congruence. congruence.
Qed.

(** After [add_currency_to_dict], the entries already there are kept,
    the currency is in [currency_dict], and every entry it added is the
    entry of [model.currency_dict] and, for a currency (not a class),
    comes with its class. *)
Theorem add_currency_to_dict_spec (model_currency_dict currency_dict cd' : gmap string currency_data)
    (currency : string) :
  add_currency_to_dict model_currency_dict currency_dict currency = Some (Ok cd') ->
  currency_dict ⊆ cd' /\ is_Some (cd' !! currency) /\
  (forall k d, currency_dict !! k = None -> cd' !! k = Some d ->
     model_currency_dict !! k = Some d /\
     (cd_type d = TCurrency -> is_Some (cd' !! cd_class d))).
Proof. apply add_currency_go_spec. Qed.

(** ** StorageAgent._calculate_storage_ratios *)

Lemma string_length_append (a s : string) :
  String.length (String.append a s) = (String.length a + String.length s)%nat.
Proof. induction a as [|c a IH]; simpl; [reflexivity | rewrite IH; reflexivity]. Qed.

Lemma string_append_inj_l (a b s : string) :
  String.append a s = String.append b s -> a = b.
Proof.
  revert b. induction a as [|c a IH]; intros b H; destruct b as [|c' b]; simpl in H.
  - reflexivity.
  - exfalso. apply (f_equal String.length) in H. simpl in H.
    rewrite ?string_length_append in H. simpl in H. rewrite ?string_length_append in H. lia.
  - exfalso. apply (f_equal String.length) in H. simpl in H.
    rewrite ?string_length_append in H. simpl in H. rewrite ?string_length_append in H. lia.
  - injection H as -> H. f_equal. apply IH. exact H.
Qed.

Lemma dict_set_notin (d : list (string * Q)) (k : string) (v : Q) :
  ~ List.In k (map fst d) -> dict_set d k v = d ++ [(k, v)].
Proof.
  induction d as [|[k' v'] d IH]; intros Hk; [reflexivity|]. simpl in *.
  destruct (String.eqb_spec k k') as [->|Hne].
  - exfalso. apply Hk. left. reflexivity.
  - rewrite IH; [reflexivity|]. intros H. apply Hk. right. exact H.
Qed.

Lemma qsum_app (l1 l2 : list Q) : qsum (l1 ++ l2) == qsum l1 + qsum l2.
Proof.
  induction l1 as [|x l1 IH]; simpl; [ring|]. unfold qsum in *. simpl.
  rewrite IH. ring.
Qed.

Lemma qsum_nonneg (l : list Q) : Forall (fun x => 0 <= x) l -> 0 <= qsum l.
Proof.
  induction 1 as [|x l Hx Hl IH]; unfold qsum in *; simpl; lra.
Qed.

Lemma qsum_elem_le (l : list (string * Q)) (c : string) (v : Q) :
  Forall (fun e => 0 <= e.2) l -> List.In (c, v) l -> v <= qsum (map snd l).
Proof.
  induction l as [|[c' v'] l IH]; intros Hl Hin; [destruct Hin|].
  apply Forall_cons in Hl as [Hv' Hl]. simpl in Hv'. unfold qsum in *; simpl.
  destruct Hin as [Heq|Hin].
  - injection Heq as <- <-.
    pose proof (qsum_nonneg (map snd l)) as Hs.
    assert (Forall (fun x => 0 <= x) (map snd l))
      by (apply Forall_map; exact Hl).
    unfold qsum in Hs. specialize (Hs H). lra.
  - specialize (IH Hl Hin). lra.
Qed.

Section StorageRatioProofs.
Variable unit_factor : string -> string -> Q.
Hypothesis unit_factor_pos : forall u v, 0 < unit_factor u v.

Lemma ratio_temp_spec units vals attrs total temp total' temp' :
  (forall c b, c ∈ capacity_currencies attrs -> vals !! c = Some b -> 0 <= b) ->
  NoDup (map fst temp ++ capacity_currencies attrs) ->
  temp_inv total temp ->
  ratio_temp unit_factor units vals attrs total temp = Ok (total', temp') ->
  temp_inv total' temp' /\
  map fst temp' = map fst temp ++ capacity_currencies attrs /\
  (forall e, List.In e temp -> List.In e temp') /\
  (forall c b, c ∈ capacity_currencies attrs -> vals !! c = Some b -> 0 < b ->
     exists v, List.In (c, v) temp' /\ 0 < v).
Proof.
  revert total temp. induction attrs as [|attr attrs IH]; intros total temp Hnn Hnd Hinv H.
  - cbn [ratio_temp] in H. injection H as <- <-. rewrite app_nil_r.
    split; [exact Hinv|]. split; [reflexivity|]. split; [auto|].
    intros c b Hc. inversion Hc.
  - cbn [ratio_temp] in H.
    assert (Hcc : capacity_currencies (attr :: attrs) =
      (if String.prefix "char_capacity" attr then
         match split2_third attr with Ok c => [c] | Raise _ => [] end else []) ++
      capacity_currencies attrs).
    { unfold capacity_currencies. simpl.
      destruct (String.prefix _ _); [destruct (split2_third attr)|]; reflexivity. }
    rewrite Hcc in Hnn, Hnd |- *.
    destruct (String.prefix "char_capacity" attr) eqn:Hp; [|eapply IH; eassumption].
    destruct (split2_third attr) as [currency|e] eqn:Hs; [|discriminate H].
    cbn [rbind app] in H, Hnn, Hnd |- *.
    destruct (units !! attr) as [u|] eqn:Hu; unfold getitem in H; rewrite ?Hu in H;
      [|discriminate H]. cbn [rbind] in H.
    destruct (vals !! currency) as [b|] eqn:Hb; [|discriminate H]. cbn [rbind] in H.
    assert (Hb0 : 0 <= b) by (apply (Hnn currency); [left|exact Hb]).
    assert (Hnn' : forall c b, c ∈ capacity_currencies attrs -> vals !! c = Some b -> 0 <= b)
      by (intros c b' Hc; apply Hnn; right; exact Hc).
    assert (Hfresh : ~ List.In currency (map fst temp)).
    { intros Hin. apply NoDup_app in Hnd as (_ & Hdis & _).
      apply (Hdis currency); [apply list_elem_of_In; exact Hin | left]. }
    assert (Hnd' : NoDup (map fst (temp ++ [(currency, 0)]) ++ capacity_currencies attrs)).
    { rewrite map_app. simpl. rewrite <- app_assoc. exact Hnd. }
    destruct Hinv as [Hpos Htot].
    (* the three branches add [(currency, v)] with [v] nonnegative and
       positive when [b] is *)
    assert (Hgen : forall v t' tu',
      0 <= v -> (0 < b -> 0 < v) -> t' == qsum (map snd (temp ++ [(currency, v)])) ->
      ratio_temp unit_factor units vals attrs (Some (t', tu')) (temp ++ [(currency, v)]) =
        Ok (total', temp') ->
      temp_inv total' temp' /\
      map fst temp' = map fst temp ++ currency :: capacity_currencies attrs /\
      (forall e, List.In e temp -> List.In e temp') /\
      (forall c b0, c ∈ currency :: capacity_currencies attrs -> vals !! c = Some b0 -> 0 < b0 ->
         exists v0, List.In (c, v0) temp' /\ 0 < v0)).
    { intros v t' tu' Hv Hvp Ht' Hrec.
      assert (Hnd'' : NoDup (map fst (temp ++ [(currency, v)]) ++ capacity_currencies attrs)).
      { rewrite map_app. simpl. rewrite <- app_assoc. exact Hnd. }
      assert (Hinv' : temp_inv (Some (t', tu')) (temp ++ [(currency, v)])).
      { split; [apply Forall_app; split; [exact Hpos | constructor; [exact Hv | constructor]]|].
        exact Ht'. }
      destruct (IH _ _ Hnn' Hnd'' Hinv' Hrec) as (Hi & Hm & Hkeep & Hex).
      split; [exact Hi|]. split.
      { rewrite Hm, map_app. simpl. rewrite <- app_assoc. reflexivity. }
      split.
      { intros e He. apply Hkeep. apply in_or_app. left. exact He. }
      intros c b0 Hc Hb0' Hpos0. apply elem_of_cons in Hc as [->|Hc].
      - rewrite Hb in Hb0'. injection Hb0' as <-. exists v. split; [|exact (Hvp Hpos0)].
        apply Hkeep. apply in_or_app. right. left. reflexivity.
      - exact (Hex c b0 Hc Hb0' Hpos0). }
    destruct total as [[t tu]|]; rewrite ?(dict_set_notin _ _ _ Hfresh) in H.
    + destruct (negb (Qeq_bool t 0)) eqn:Ht0; rewrite ?(dict_set_notin _ _ _ Hfresh) in H.
      * pose proof (unit_factor_pos u tu) as Hf.
        apply (Hgen (b * unit_factor u tu) (t + b * unit_factor u tu) tu); [nra|nra| |exact H].
        rewrite map_app, qsum_app, <- Htot. unfold qsum; simpl; ring.
      * apply negb_false_iff, Qeq_bool_iff in Ht0.
        apply (Hgen b b u); [exact Hb0|auto| |exact H].
        rewrite map_app, qsum_app, <- Htot, Ht0. unfold qsum; simpl; ring.
    + apply (Hgen b b u); [exact Hb0|auto| |exact H].
      rewrite Htot. unfold qsum; simpl; ring.
Qed.

End StorageRatioProofs.

Lemma ratio_entries_spec t tu temp entries :
  Forall (fun e => 0 <= e.2 /\ e.2 <= t) temp ->
  ratio_entries (Some (t, tu)) temp = Ok entries ->
  map fst entries = map fst temp /\
  (forall c r, List.In (c, r) entries -> 0 <= r /\ r <= 1) /\
  (0 < t -> qsum (map snd entries) == qsum (map snd temp) / t).
Proof.
  revert entries. induction temp as [|[c v] temp IH]; intros entries Hb H.
  - cbn [ratio_entries] in H. injection H as <-. split; [reflexivity|].
    split; [intros c r []|]. intros Ht. unfold qsum; simpl. unfold Qdiv. ring.
  - apply Forall_cons in Hb as [[Hv0 Hvt] Hb]. simpl in Hv0, Hvt.
    cbn [ratio_entries] in H.
    assert (Hr : exists r, (if qlt 0 v then
                              if Qeq_bool t 0 then Raise ZeroDivisionError else Ok (v / t)
                            else Ok 0) = Ok r /\ 0 <= r /\ r <= 1 /\ (0 < t -> r == v / t)).
    { destruct (qlt 0 v) eqn:Hv.
      - apply qlt_spec in Hv.
        assert (Ht : 0 < t) by lra.
        assert (Ht' : Qeq_bool t 0 = false)
          by (apply not_true_iff_false; intros E; apply Qeq_bool_iff in E; lra).
        rewrite Ht'. exists (v / t). split; [reflexivity|]. split.
        + apply Qle_shift_div_l; lra.
        + split; [apply Qle_shift_div_r; lra | intros; reflexivity].
      - apply qlt_false in Hv. exists 0. split; [reflexivity|]. split; [lra|].
        split; [lra|]. intros Ht.
        assert (v == 0) as -> by lra. unfold Qdiv. ring. }
    destruct Hr as (r & Er & Hr0 & Hr1 & Hrt). rewrite Er in H. cbn [rbind] in H.
    destruct (ratio_entries (Some (t, tu)) temp) as [rs|e] eqn:Hrs; [|discriminate H].
    cbn [rbind] in H. injection H as <-.
    destruct (IH rs Hb eq_refl) as (Hm & Hin & Hsum).
    split; [simpl; rewrite Hm; reflexivity|]. split.
    + intros c' r' [Heq|Hin']; [injection Heq as <- <-; split; assumption|].
      exact (Hin c' r' Hin').
    + intros Ht. unfold qsum in *. simpl. rewrite (Hsum Ht), (Hrt Ht).
      field. lra.
Qed.

Lemma fold_insert_other (f : string -> string) (l : list (string * Q))
    (m : gmap string Q) (k : string) :
  (forall cr, List.In cr l -> f cr.1 <> k) ->
  fold_left (fun m cr => <[f cr.1 := cr.2]> m) l m !! k = m !! k.
Proof.
  revert m. induction l as [|cr l IH]; intros m Hl; [reflexivity|]. simpl.
  rewrite IH; [|intros cr' Hin; apply Hl; right; exact Hin].
  apply lookup_insert_ne. apply Hl. left. reflexivity.
Qed.

Lemma fold_insert_elem (f : string -> string) (l : list (string * Q))
    (m : gmap string Q) (c : string) (r : Q) :
  (forall a b, f a = f b -> a = b) -> NoDup (map fst l) -> List.In (c, r) l ->
  fold_left (fun m cr => <[f cr.1 := cr.2]> m) l m !! f c = Some r.
Proof.
  intros Hf. revert m. induction l as [|[c' r'] l IH]; intros m Hnd Hin; [destruct Hin|].
  simpl in Hnd. apply NoDup_cons in Hnd as [Hc' Hnd]. simpl.
  destruct Hin as [Heq|Hin].
  - injection Heq as -> ->. rewrite fold_insert_other.
    + apply lookup_insert_eq.
    + intros [c'' r''] Hin Heq. simpl in Heq. apply Hf in Heq. subst c''.
      apply Hc'. apply list_elem_of_In. apply in_map_iff. exists (c, r''). auto.
  - apply IH; assumption.
Qed.

Lemma append_ratio_inj : forall a b : string,
  String.append a "_ratio" = String.append b "_ratio" -> a = b.
Proof. intros a b. apply string_append_inj_l. Qed.

(** [_calculate_storage_ratios] (with every balance nonnegative and
    units converted by positive factors) gives each capacity currency a
    ratio [<currency>_ratio] between 0 and 1, and when some balance is
    positive these ratios sum to 1.  The other keys of the storage's
    entry (ratios written earlier) and the other storages' entries are
    kept. *)
Theorem storage_ratios_normalised (unit_factor : string -> string -> Q)
    (storage_id : string) (units : gmap string string) (vals : gmap string Q)
    (attrs : list string) (storage_ratios sr' : gmap string (gmap string Q)) :
  (forall u v, 0 < unit_factor u v) ->
  (forall c b, c ∈ capacity_currencies attrs -> vals !! c = Some b -> 0 <= b) ->
  NoDup (capacity_currencies attrs) ->
  calculate_storage_ratios unit_factor storage_id units vals attrs storage_ratios = Ok sr' ->
  (forall sid, sid <> storage_id -> sr' !! sid = storage_ratios !! sid) /\
  exists entries inner,
    sr' !! storage_id = Some inner /\
    map fst entries = capacity_currencies attrs /\
    (forall c r, List.In (c, r) entries ->
       inner !! String.append c "_ratio" = Some r /\ 0 <= r /\ r <= 1) /\
    (forall k, (forall c, c ∈ capacity_currencies attrs -> k <> String.append c "_ratio") ->
       inner !! k = default ∅ (storage_ratios !! storage_id) !! k) /\
    ((exists c b, c ∈ capacity_currencies attrs /\ vals !! c = Some b /\ 0 < b) ->
       qsum (map snd entries) == 1).
Proof.
  intros Hf Hnn Hnd H. unfold calculate_storage_ratios in H.
  destruct (ratio_temp unit_factor units vals attrs None []) as [[total temp]|e] eqn:Ht;
    [|discriminate H].
  cbn [rbind fst snd] in H.
  destruct (ratio_entries total temp) as [entries|e] eqn:He; [|discriminate H].
  cbn [rbind] in H. injection H as <-.
  assert (Hinv0 : temp_inv None []) by (split; [constructor|reflexivity]).
  destruct (ratio_temp_spec unit_factor Hf units vals attrs None [] total temp Hnn
              ltac:(exact Hnd) Hinv0 Ht) as ((Hpos & Htot) & Hm & _ & Hex).
  simpl in Hm.
  set (inner := fold_left _ entries _).
  split; [intros sid Hsid; apply lookup_insert_ne; congruence|].
  destruct total as [[t tu]|].
  2:{ subst temp. cbn [ratio_entries] in He. injection He as <-.
      exists [], inner. split; [apply lookup_insert_eq|]. split; [exact Hm|].
      split; [intros c r []|]. split; [intros k _; reflexivity|].
      intros (c & b & Hc & Hb & Hb0). destruct (Hex c b Hc Hb Hb0) as (v & [] & _). }
  assert (Hbd : Forall (fun e => 0 <= e.2 /\ e.2 <= t) temp).
  { apply Forall_forall. intros [c v] Hin. pose proof (proj1 (list_elem_of_In _ _) Hin) as Hin'. split.
    - exact (proj1 (Forall_forall _ _) Hpos _ Hin).
    - rewrite Htot. apply (qsum_elem_le temp c v Hpos Hin'). }
  destruct (ratio_entries_spec t tu temp entries Hbd He) as (Hme & Hr & Hsum).
  exists entries, inner. split; [apply lookup_insert_eq|].
  split; [rewrite Hme; exact Hm|].
  assert (Hnde : NoDup (map fst entries)) by (rewrite Hme, Hm; exact Hnd).
  split.
  - intros c r Hin. split; [|exact (Hr c r Hin)].
    unfold inner.
    apply (fold_insert_elem (fun c => String.append c "_ratio")); [exact append_ratio_inj | exact Hnde | exact Hin].
  - split.
    + intros k Hk. unfold inner. apply (fold_insert_other (fun c => String.append c "_ratio")).
      intros [c r] Hin Heq. apply (Hk c); [|symmetry; exact Heq].
      rewrite <- Hm, <- Hme. apply list_elem_of_In. apply in_map_iff.
      exists (c, r). auto.
    + intros (c & b & Hc & Hb & Hb0). destruct (Hex c b Hc Hb Hb0) as (v & Hin & Hv).
      pose proof (qsum_elem_le temp c v Hpos Hin) as Hle.
      assert (Htp : 0 < t) by (rewrite Htot; lra).
      rewrite (Hsum Htp), <- Htot. field. lra.
Qed.

Lemma add_currency_to_dict_spec_witness :
  match add_currency_to_dict water_currency_dict ∅ "potable" with
  | Some (Ok cd') =>
      ∅ ⊆ cd' /\ is_Some (cd' !! "potable") /\
      (forall k d, (∅ : gmap string currency_data) !! k = None -> cd' !! k = Some d ->
         water_currency_dict !! k = Some d /\
         (cd_type d = TCurrency -> is_Some (cd' !! cd_class d)))
  | _ => False
  end.
Proof.
  destruct (add_currency_to_dict water_currency_dict ∅ "potable") as [[cd'|e]|] eqn:E;
    [|vm_compute in E; discriminate E|vm_compute in E; discriminate E].
  exact (add_currency_to_dict_spec water_currency_dict ∅ cd' "potable" E).
Defined.

Lemma storage_ratios_normalised_witness :
  match calculate_storage_ratios (fun _ _ => 1) "tank"
    (<["char_capacity_potable" := "kg"]> (<["char_capacity_grey" := "kg"]> ∅))
    (<["potable" := 30]> (<["grey" := 10]> ∅))
    ["char_capacity_potable"; "char_capacity_grey"] ∅ with
  | Raise _ => False
  | Ok sr' =>
  (forall sid, sid <> "tank" -> sr' !! sid = (∅ : gmap string (gmap string Q)) !! sid) /\
  exists entries inner,
    sr' !! "tank" = Some inner /\
    map fst entries = capacity_currencies ["char_capacity_potable"; "char_capacity_grey"] /\
    (forall c r, List.In (c, r) entries ->
       inner !! String.append c "_ratio" = Some r /\ 0 <= r /\ r <= 1) /\
    (forall k, (forall c, c ∈ capacity_currencies ["char_capacity_potable"; "char_capacity_grey"] ->
                  k <> String.append c "_ratio") ->
       inner !! k = default ∅ ((∅ : gmap string (gmap string Q)) !! "tank") !! k) /\
    ((exists c b, c ∈ capacity_currencies ["char_capacity_potable"; "char_capacity_grey"] /\
                  (<["potable" := 30]> (<["grey" := 10]> ∅) : gmap string Q) !! c = Some b /\
                  0 < b) ->
       qsum (map snd entries) == 1)
  end.
Proof.
  destruct (calculate_storage_ratios (fun _ _ => 1) "tank"
    (<["char_capacity_potable" := "kg"]> (<["char_capacity_grey" := "kg"]> ∅))
    (<["potable" := 30]> (<["grey" := 10]> ∅))
    ["char_capacity_potable"; "char_capacity_grey"] ∅) as [sr'|e] eqn:E;
    [|vm_compute in E; discriminate E].
  apply (storage_ratios_normalised (fun _ _ => 1) "tank"
    (<["char_capacity_potable" := "kg"]> (<["char_capacity_grey" := "kg"]> ∅))
    (<["potable" := 30]> (<["grey" := 10]> ∅))
    ["char_capacity_potable"; "char_capacity_grey"] ∅ sr').
  - intros u v. reflexivity.
  - intros c b Hc Hb.
    assert (Hc' : c ∈ ["potable"; "grey"]) by exact Hc.
    rewrite !elem_of_cons, elem_of_nil in Hc'.
    destruct Hc' as [->|[->|[]]]; vm_compute in Hb; injection Hb as <-; lra.
  - apply (bool_decide_unpack _). vm_compute. reflexivity.
  - exact E.
Defined.

Lemma split_all_app (a b : string) :
  no_underscore a = true ->
  split_all (String.append a (String "_"%char b)) = a :: split_all b.
Proof.
  induction a as [|ch a IH]; intros H; [reflexivity|].
  unfold no_underscore in H. simpl in H. apply andb_prop in H as [Hch H].
  simpl. apply negb_true_iff in Hch. rewrite Hch. rewrite IH by exact H. reflexivity.
Qed.

Lemma split_all_single (a : string) :
  no_underscore a = true -> split_all a = [a].
Proof.
  induction a as [|ch a IH]; intros H; [reflexivity|].
  unfold no_underscore in H. simpl in H. apply andb_prop in H as [Hch H].
  simpl. apply negb_true_iff in Hch. rewrite Hch. rewrite IH by exact H. reflexivity.
Qed.

(** [_get_storage_ratio] on a name [<currency>_<name>_in] (or [_out])
    whose currency and name have no ['_']: it reads the entry
    [<currency>_<name>] of [model.storage_ratios] for the first storage
    selected for that currency in that direction; with [<name>] the
    word [ratio] this is the ratio that [_calculate_storage_ratios]
    stores. *)
Theorem get_storage_ratio_first_storage
    (selected_in selected_out sel : list (string * list string))
    (storage_ratios : gmap string (gmap string Q)) (currency name d sid : string)
    (sids : list string) (r : gmap string Q) (v : Q) :
  no_underscore currency = true -> no_underscore name = true ->
  (d = "in" /\ sel = selected_in) \/ (d = "out" /\ sel = selected_out) ->
  list_to_map (M := gmap string (list string)) sel !! currency = Some (sid :: sids) ->
  storage_ratios !! sid = Some r ->
  r !! String.append currency (String.append "_" name) = Some v ->
  exists x, get_storage_ratio selected_in selected_out storage_ratios
              (String.append currency (String.append "_" (String.append name (String.append "_" d))))
            = Ok x /\ x == v.
Proof.
  intros Hc Hn Hd Hsel Hsid Hv.
  assert (Hdn : no_underscore d = true)
    by (destruct Hd as [[-> _]|[-> _]]; reflexivity).
  unfold get_storage_ratio.
  change (String.append "_" (String.append name (String.append "_" d)))
    with (String "_"%char (String.append name (String "_"%char d))).
  rewrite (split_all_app currency _ Hc), (split_all_app name _ Hn), (split_all_single d Hdn).
  cbn [List.last hd firstn join_underscore].
  destruct Hd as [[-> ->]|[-> ->]]; cbn [String.eqb orb Ascii.eqb Bool.eqb];
    rewrite Hsel; cbn [rbind getitem]; unfold getitem; rewrite Hsid; cbn [rbind];
    rewrite Hv; cbn [rbind]; eexists; split; [reflexivity| |reflexivity|]; ring.
Qed.

Lemma get_storage_ratio_first_storage_witness :
  exists x, get_storage_ratio [("potable", ["tank"; "reservoir"])] []
              (<["tank" := <["potable_ratio" := 3 # 4]> ∅]> ∅)
              (String.append "potable" (String.append "_" (String.append "ratio" (String.append "_" "in"))))
            = Ok x /\ x == 3 # 4.
Proof.
  apply (get_storage_ratio_first_storage [("potable", ["tank"; "reservoir"])] []
           [("potable", ["tank"; "reservoir"])]
           (<["tank" := <["potable_ratio" := 3 # 4]> ∅]> ∅) "potable" "ratio" "in" "tank"
           ["reservoir"] (<["potable_ratio" := 3 # 4]> ∅) (3 # 4)).
  - reflexivity.
  - reflexivity.
  - left. split; reflexivity.
  - reflexivity.
  - reflexivity.
  - reflexivity.
Defined.

Lemma dict_get_set_eq (d : list (string * Q)) (k : string) (v : Q) :
  dict_get (dict_set d k v) k = Some v.
Proof.
  induction d as [|[k' v'] d IH]; simpl; [rewrite String.eqb_refl; reflexivity|].
  destruct (String.eqb_spec k k') as [->|Hne]; simpl.
  - rewrite String.eqb_refl. reflexivity.
  - apply String.eqb_neq in Hne. rewrite Hne. exact IH.
Qed.

Lemma dict_get_set_ne (d : list (string * Q)) (k k2 : string) (v : Q) :
  k2 <> k -> dict_get (dict_set d k v) k2 = dict_get d k2.
Proof.
  intros Hne. induction d as [|[k' v'] d IH]; simpl.
  - apply String.eqb_neq in Hne. rewrite Hne. reflexivity.
  - destruct (String.eqb_spec k k') as [->|Hne']; simpl.
    + apply String.eqb_neq in Hne. rewrite Hne. reflexivity.
    + destruct (String.eqb k2 k'); [reflexivity|exact IH].
Qed.

Lemma dict_get_app (d : list (string * Q)) (k k2 : string) (v : Q) :
  dict_get d k = None ->
  dict_get (d ++ [(k, v)]) k2 = if String.eqb k2 k then Some v else dict_get d k2.
Proof.
  induction d as [|[k' v'] d IH]; intros Hk; simpl; [destruct (String.eqb k2 k); reflexivity|].
  simpl in Hk. destruct (String.eqb_spec k k') as [->|Hne]; [discriminate Hk|].
  destruct (String.eqb_spec k2 k') as [->|Hne2].
  - apply String.eqb_neq in Hne. rewrite String.eqb_sym, Hne. reflexivity.
  - exact (IH Hk).
Qed.

Lemma sdict_get_app (d : list (string * string)) (k k2 u : string) :
  is_Some (sdict_get d k2) \/ k2 = k -> is_Some (sdict_get (d ++ [(k, u)]) k2).
Proof.
  induction d as [|[k' u'] d IH]; intros H; simpl.
  - destruct H as [[x Hx]| ->]; [discriminate Hx|]. rewrite String.eqb_refl. eexists; reflexivity.
  - simpl in H. destruct (String.eqb k2 k'); [eexists; reflexivity|]. exact (IH H).
Qed.

Lemma string_append_cancel_l (p a b : string) :
  String.append p a = String.append p b -> a = b.
Proof. induction p as [|ch p IH]; simpl; [auto|]. intros H. injection H. exact IH. Qed.

(** The first loop of [StorageAgent.__init__]: the agent's copy of the
    currency dict stays a part of the model's, every key of
    [class_capacities] has a unit, [class_capacities] gets the classes
    and sums of the capacities, and attributes other than those the
    loop writes are left alone. *)
Lemma capacity_loop_spec model_currency_dict units balances attrs sa cc cu sa' cc' cu' :
  capacity_loop model_currency_dict units balances attrs sa cc cu = Ok (sa', cc', cu') ->
  (forall k d, sa_currency_dict sa !! k = Some d -> model_currency_dict !! k = Some d) ->
  (forall cls, is_Some (dict_get cc cls) -> is_Some (sdict_get cu cls)) ->
  (forall k d, sa_currency_dict sa' !! k = Some d -> model_currency_dict !! k = Some d) /\
  (forall cls, is_Some (dict_get cc' cls) -> is_Some (sdict_get cu' cls)) /\
  (forall cls, is_Some (dict_get cc' cls) <->
     is_Some (dict_get cc cls) \/ class_capacity_values model_currency_dict attrs cls <> []) /\
  (forall cls, default 0 (dict_get cc' cls) ==
     default 0 (dict_get cc cls) + qsum (class_capacity_values model_currency_dict attrs cls)) /\
  (forall k, (forall a v, List.In (a, v) attrs -> String.prefix "char_capacity" a = true ->
                a <> k /\ split2_third a <> Ok k) ->
     sa_attrs sa' !! k = sa_attrs sa !! k).
Proof.
  revert sa cc cu.
  induction attrs as [|[a v] attrs IH]; intros sa cc cu H Hcd Hcu.
  - cbn [capacity_loop] in H. injection H as <- <- <-.
    split; [exact Hcd|]. split; [exact Hcu|].
    split; [intros cls; unfold class_capacity_values; simpl; tauto|].
    split; [intros cls; unfold class_capacity_values, qsum; simpl; ring|].
    intros k _. reflexivity.
  - cbn [capacity_loop] in H.
    assert (Hcls : forall cls, class_capacity_values model_currency_dict ((a, v) :: attrs) cls =
              match capacity_class model_currency_dict a with
              | Some c => if String.eqb c cls then v :: class_capacity_values model_currency_dict attrs cls
                          else class_capacity_values model_currency_dict attrs cls
              | None => class_capacity_values model_currency_dict attrs cls
              end).
    { intros cls. unfold class_capacity_values. cbn [List.filter fst].
      destruct (capacity_class model_currency_dict a) as [c|]; [|reflexivity].
      destruct (String.eqb c cls); reflexivity. }
    destruct (String.prefix "char_capacity" a) eqn:Hp.
    2:{ destruct (IH sa cc cu H Hcd Hcu) as (H1 & H2 & H3 & H4 & H5).
        assert (Hn : capacity_class model_currency_dict a = None)
          by (unfold capacity_class; rewrite Hp; reflexivity).
        split; [exact H1|]. split; [exact H2|].
        split; [intros cls; rewrite Hcls, Hn; apply H3|].
        split; [intros cls; rewrite Hcls, Hn; apply H4|].
        intros k Hk. apply H5. intros a' v' Hin. exact (Hk a' v' (or_intror Hin)). }
    destruct (split2_third a) as [c|e] eqn:Hs; cbn [rbind] in H; [|discriminate H].
    destruct (add_currency_to_dict model_currency_dict (sa_currency_dict sa) c)
      as [[cd|e]|] eqn:Ha; cbn [rbind] in H; [|discriminate H|discriminate H].
    destruct (add_currency_to_dict_spec _ _ _ _ Ha) as (Hsub & _ & Hnew).
    unfold getitem in H at 1.
    destruct (cd !! c) as [dc|] eqn:Hdc; cbn [rbind] in H; [|discriminate H].
    assert (Hcd' : forall k d, cd !! k = Some d -> model_currency_dict !! k = Some d).
    { intros k d Hk. destruct (sa_currency_dict sa !! k) as [d'|] eqn:Hold.
      - rewrite (lookup_weaken _ _ _ _ Hold Hsub) in Hk. injection Hk as <-.
        exact (Hcd k d' Hold).
      - exact (proj1 (Hnew k d Hold Hk)). }
    assert (Hcc : capacity_class model_currency_dict a = Some (cd_class dc))
      by (unfold capacity_class; rewrite Hp, Hs, (Hcd' c dc Hdc); reflexivity).
    remember (cd_class dc) as cls0 eqn:Hcls0.
    assert (Hstep : exists cc1 cu1,
              capacity_loop model_currency_dict units balances attrs
                (mkStorageAttrs true
                   (<[c := default 0 (balances !! c)]> (<[a := v]> (sa_attrs sa)))
                   (sa_class_units sa) cd)
                (dict_set cc1 cls0 (default 0 (dict_get cc1 cls0) + v)) cu1 = Ok (sa', cc', cu') /\
              dict_get cc1 cls0 = Some (default 0 (dict_get cc cls0)) /\
              (forall cls, cls <> cls0 -> dict_get cc1 cls = dict_get cc cls) /\
              (forall cls, is_Some (dict_get cc1 cls) -> is_Some (sdict_get cu1 cls))).
    { destruct (dict_get cc cls0) as [x|] eqn:Hg; cbn [rbind] in H.
      - exists cc, cu. split; [exact H|]. split; [exact Hg|].
        split; [reflexivity|exact Hcu].
      - unfold getitem in H. destruct (units !! a) as [u|]; cbn [rbind] in H; [|discriminate H].
        exists (cc ++ [(cls0, 0)]), (cu ++ [(cls0, u)]). split; [exact H|].
        split; [rewrite (dict_get_app _ _ _ _ Hg), String.eqb_refl; reflexivity|].
        split.
        + intros cls Hne. rewrite (dict_get_app _ _ _ _ Hg).
          apply String.eqb_neq in Hne. rewrite Hne. reflexivity.
        + intros cls Hs1. apply sdict_get_app.
          rewrite (dict_get_app _ _ _ _ Hg) in Hs1.
          destruct (String.eqb_spec cls cls0) as [Heq|Hne]; [right; exact Heq|].
          left. exact (Hcu cls Hs1). }
    destruct Hstep as (cc1 & cu1 & Hloop & Hg1 & Hgo & Hcu1).
    assert (Hcu2 : forall cls, is_Some (dict_get (dict_set cc1 cls0 (default 0 (dict_get cc1 cls0) + v)) cls) ->
                     is_Some (sdict_get cu1 cls)).
    { intros cls Hs1. destruct (String.eqb_spec cls cls0) as [->|Hne].
      - apply Hcu1. rewrite Hg1. eexists; reflexivity.
      - rewrite dict_get_set_ne in Hs1 by exact Hne. exact (Hcu1 cls Hs1). }
    destruct (IH _ _ _ Hloop Hcd' Hcu2) as (H1 & H2 & H3 & H4 & H5).
    split; [exact H1|]. split; [exact H2|]. split.
    + intros cls. rewrite H3, Hcls, Hcc.
      destruct (String.eqb_spec cls0 cls) as [<-|Hne].
      * rewrite dict_get_set_eq. split; [intros _; right; discriminate|intros _; left; eexists; reflexivity].
      * rewrite dict_get_set_ne by congruence. rewrite Hgo by congruence. reflexivity.
    + split.
      * intros cls. rewrite H4, Hcls, Hcc.
        destruct (String.eqb_spec cls0 cls) as [<-|Hne].
        -- rewrite dict_get_set_eq, Hg1. cbn [default]. unfold qsum. simpl. fold (qsum (class_capacity_values model_currency_dict attrs cls0)). ring.
        -- rewrite dict_get_set_ne by congruence. rewrite Hgo by congruence. reflexivity.
      * intros k Hk. rewrite H5.
        -- cbn [sa_attrs]. destruct (Hk a v (or_introl eq_refl) Hp) as [Hak Hck].
           rewrite lookup_insert_ne by congruence. apply lookup_insert_ne. congruence.
        -- intros a' v' Hin. exact (Hk a' v' (or_intror Hin)).
Qed.

Lemma capacity_loop_frame model_currency_dict units balances attrs sa cc cu sa' cc' cu' k :
  capacity_loop model_currency_dict units balances attrs sa cc cu = Ok (sa', cc', cu') ->
  (forall a v, List.In (a, v) attrs -> String.prefix "char_capacity" a = true ->
     a <> k /\ split2_third a <> Ok k) ->
  sa_attrs sa' !! k = sa_attrs sa !! k.
Proof.
  revert sa cc cu.
  induction attrs as [|[a v] attrs IH]; intros sa cc cu H Hk.
  - cbn [capacity_loop] in H. injection H as <- <- <-. reflexivity.
  - assert (Hk' : forall a' v', List.In (a', v') attrs -> String.prefix "char_capacity" a' = true ->
                    a' <> k /\ split2_third a' <> Ok k)
      by (intros a' v' Hin; exact (Hk a' v' (or_intror Hin))).
    cbn [capacity_loop] in H.
    destruct (String.prefix "char_capacity" a) eqn:Hp; [|exact (IH sa cc cu H Hk')].
    destruct (Hk a v (or_introl eq_refl) Hp) as [Hak Hck].
    destruct (split2_third a) as [c|e] eqn:Hs; cbn [rbind] in H; [|discriminate H].
    destruct (add_currency_to_dict model_currency_dict (sa_currency_dict sa) c)
      as [[cd|e]|]; cbn [rbind] in H; [|discriminate H|discriminate H].
    unfold getitem in H at 1.
    destruct (cd !! c) as [dc|]; cbn [rbind] in H; [|discriminate H].
    destruct (dict_get cc (cd_class dc)); cbn [rbind] in H.
    + rewrite (IH _ _ _ H Hk'). cbn [sa_attrs].
      rewrite lookup_insert_ne by congruence. apply lookup_insert_ne. congruence.
    + unfold getitem in H. destruct (units !! a); cbn [rbind] in H; [|discriminate H].
      rewrite (IH _ _ _ H Hk'). cbn [sa_attrs].
      rewrite lookup_insert_ne by congruence. apply lookup_insert_ne. congruence.
Qed.

Lemma capacity_loop_sets_attr model_currency_dict units balances attrs sa cc cu sa' cc' cu' a v :
  capacity_loop model_currency_dict units balances attrs sa cc cu = Ok (sa', cc', cu') ->
  List.In (a, v) attrs -> String.prefix "char_capacity" a = true ->
  NoDup (map fst attrs) ->
  (forall a' v', List.In (a', v') attrs -> String.prefix "char_capacity" a' = true ->
     split2_third a' <> Ok a) ->
  sa_attrs sa' !! a = Some v.
Proof.
  revert sa cc cu.
  induction attrs as [|[a0 v0] attrs IH]; intros sa cc cu H Hin Hp Hnd Hc; [destruct Hin|].
  simpl in Hnd. apply NoDup_cons in Hnd as [Ha0 Hnd].
  assert (Hc' : forall a' v', List.In (a', v') attrs -> String.prefix "char_capacity" a' = true ->
                  split2_third a' <> Ok a)
    by (intros a' v' Hin'; exact (Hc a' v' (or_intror Hin'))).
  destruct Hin as [Heq|Hin].
  - injection Heq as -> ->.
    assert (Hfr : forall a' v', List.In (a', v') attrs -> String.prefix "char_capacity" a' = true ->
                    a' <> a /\ split2_third a' <> Ok a).
    { intros a' v' Hin' Hp'. split; [|exact (Hc' a' v' Hin' Hp')].
      intros ->. apply Ha0. apply list_elem_of_In. apply in_map_iff.
      exists (a, v'). auto. }
    pose proof (Hc a v (or_introl eq_refl) Hp) as Hca.
    cbn [capacity_loop] in H. rewrite Hp in H.
    destruct (split2_third a) as [c|e] eqn:Hs; cbn [rbind] in H; [|discriminate H].
    assert (Hcne : c <> a) by congruence.
    destruct (add_currency_to_dict model_currency_dict (sa_currency_dict sa) c)
      as [[cd|e]|]; cbn [rbind] in H; [|discriminate H|discriminate H].
    unfold getitem in H at 1.
    destruct (cd !! c) as [dc|]; cbn [rbind] in H; [|discriminate H].
    destruct (dict_get cc (cd_class dc)); cbn [rbind] in H.
    + rewrite (capacity_loop_frame _ _ _ _ _ _ _ _ _ _ a H Hfr). cbn [sa_attrs].
      rewrite lookup_insert_ne by congruence. apply lookup_insert_eq.
    + unfold getitem in H. destruct (units !! a); cbn [rbind] in H; [|discriminate H].
      rewrite (capacity_loop_frame _ _ _ _ _ _ _ _ _ _ a H Hfr). cbn [sa_attrs].
      rewrite lookup_insert_ne by congruence. apply lookup_insert_eq.
  - cbn [capacity_loop] in H.
    destruct (String.prefix "char_capacity" a0) eqn:Hp0; [|exact (IH sa cc cu H Hin Hp Hnd Hc')].
    destruct (split2_third a0) as [c|e] eqn:Hs; cbn [rbind] in H; [|discriminate H].
    destruct (add_currency_to_dict model_currency_dict (sa_currency_dict sa) c)
      as [[cd|e]|]; cbn [rbind] in H; [|discriminate H|discriminate H].
    unfold getitem in H at 1.
    destruct (cd !! c) as [dc|]; cbn [rbind] in H; [|discriminate H].
    destruct (dict_get cc (cd_class dc)); cbn [rbind] in H.
    + exact (IH _ _ _ H Hin Hp Hnd Hc').
    + unfold getitem in H. destruct (units !! a0); cbn [rbind] in H; [|discriminate H].
      exact (IH _ _ _ H Hin Hp Hnd Hc').
Qed.

Lemma class_capacity_loop_keep class_capacities class_unit sa sa' k :
  class_capacity_loop class_capacities class_unit sa = Ok sa' ->
  is_Some (sa_attrs sa !! k) -> sa_attrs sa' !! k = sa_attrs sa !! k.
Proof.
  revert sa. induction class_capacities as [|[cls cap] cc IH]; intros sa H Hk.
  - cbn [class_capacity_loop] in H. injection H as <-. reflexivity.
  - cbn [class_capacity_loop] in H.
    case_bool_decide as Hs; [exact (IH sa H Hk)|].
    destruct (sdict_get class_unit cls) as [u|]; cbn [rbind] in H; [|discriminate H].
    assert (Hne : String.append "char_capacity_" cls <> k) by (intros Heq; apply Hs; rewrite Heq; exact Hk).
    rewrite (IH _ H); cbn [sa_attrs].
    + apply lookup_insert_ne. exact Hne.
    + rewrite lookup_insert_ne by exact Hne. exact Hk.
Qed.

Lemma class_capacity_loop_sets class_capacities class_unit sa sa' cls x :
  class_capacity_loop class_capacities class_unit sa = Ok sa' ->
  dict_get class_capacities cls = Some x ->
  sa_attrs sa !! String.append "char_capacity_" cls = None ->
  sa_attrs sa' !! String.append "char_capacity_" cls = Some x.
Proof.
  revert sa. induction class_capacities as [|[c cap] cc IH]; intros sa H Hg Hn; [discriminate Hg|].
  cbn [class_capacity_loop] in H. simpl in Hg.
  destruct (String.eqb_spec cls c) as [<-|Hne].
  - injection Hg as <-.
    case_bool_decide as Hs; [rewrite Hn in Hs; destruct Hs as [? Hs]; discriminate Hs|].
    destruct (sdict_get class_unit cls) as [u|]; cbn [rbind] in H; [|discriminate H].
    rewrite (class_capacity_loop_keep _ _ _ _ _ H); cbn [sa_attrs]; rewrite lookup_insert_eq;
      [reflexivity|eexists; reflexivity].
  - case_bool_decide as Hs; [exact (IH sa H Hg Hn)|].
    destruct (sdict_get class_unit c) as [u|]; cbn [rbind] in H; [|discriminate H].
    apply (IH _ H Hg). cbn [sa_attrs]. rewrite lookup_insert_ne; [exact Hn|].
    intros Heq. apply string_append_cancel_l in Heq. congruence.
Qed.

(** [StorageAgent.__init__] gives a currency class [cls] of its
    capacities the attribute [char_capacity_<cls>] with the sum of the
    capacities of the currencies of that class (the class read from
    [model.currency_dict]), when no attribute of the agent has that name. *)
Theorem storage_init_class_capacity model_currency_dict units balances attrs sa cls :
  storage_init model_currency_dict units balances attrs = Ok sa ->
  class_capacity_values model_currency_dict attrs cls <> [] ->
  (forall a v, List.In (a, v) attrs -> String.prefix "char_capacity" a = true ->
     a <> String.append "char_capacity_" cls /\
     split2_third a <> Ok (String.append "char_capacity_" cls)) ->
  exists x, sa_attrs sa !! String.append "char_capacity_" cls = Some x /\
    x == qsum (class_capacity_values model_currency_dict attrs cls).
Proof.
  intros H Hne Hk. unfold storage_init in H.
  destruct (capacity_loop model_currency_dict units balances attrs (mkStorageAttrs false ∅ ∅ ∅) [] [])
    as [[[sa1 cc] cu]|e] eqn:H1; cbn [rbind] in H; [|discriminate H].
  destruct (capacity_loop_spec _ _ _ _ _ _ _ _ _ _ H1) as (_ & _ & H3 & H4 & _).
  - intros k d Hd. cbn [sa_currency_dict] in Hd. rewrite lookup_empty in Hd. discriminate Hd.
  - intros cls' [? Hs]. discriminate Hs.
  - destruct (proj2 (H3 cls) (or_intror Hne)) as [x Hx].
    exists x. split.
    + apply (class_capacity_loop_sets _ _ _ _ _ _ H Hx).
      rewrite (capacity_loop_frame _ _ _ _ _ _ _ _ _ _ _ H1 Hk). apply lookup_empty.
    + pose proof (H4 cls) as H4c. rewrite Hx in H4c. cbn [default dict_get] in H4c.
      rewrite H4c. ring.
Qed.

(** [StorageAgent.__init__] keeps every [char_capacity*] attribute of
    the agent with its configured value: a class capacity set in the
    configuration is not replaced by the sum of its members (unless a
    currency has the attribute's name). *)
Theorem storage_init_keeps_capacity model_currency_dict units balances attrs sa a v :
  storage_init model_currency_dict units balances attrs = Ok sa ->
  NoDup (map fst attrs) ->
  List.In (a, v) attrs -> String.prefix "char_capacity" a = true ->
  (forall a' v', List.In (a', v') attrs -> String.prefix "char_capacity" a' = true ->
     split2_third a' <> Ok a) ->
  sa_attrs sa !! a = Some v.
Proof.
  intros H Hnd Hin Hp Hc. unfold storage_init in H.
  destruct (capacity_loop model_currency_dict units balances attrs (mkStorageAttrs false ∅ ∅ ∅) [] [])
    as [[[sa1 cc] cu]|e] eqn:H1; cbn [rbind] in H; [|discriminate H].
  pose proof (capacity_loop_sets_attr _ _ _ _ _ _ _ _ _ _ _ _ H1 Hin Hp Hnd Hc) as Ha.
  rewrite (class_capacity_loop_keep _ _ _ _ _ H); [exact Ha|].
  rewrite Ha. eexists; reflexivity.
Qed.

Lemma storage_init_class_capacity_witness :
  match storage_init water_currency_dict
          (<["char_capacity_potable" := "kg"]> (<["char_capacity_grey" := "kg"]> ∅))
          (<["potable" := 10]> ∅)
          [("char_capacity_potable", 100); ("char_capacity_grey", 50)] with
  | Ok sa =>
      exists x, sa_attrs sa !! String.append "char_capacity_" "water" = Some x /\
        x == qsum (class_capacity_values water_currency_dict
                     [("char_capacity_potable", 100); ("char_capacity_grey", 50)] "water")
  | Raise _ => False
  end.
Proof.
  destruct (storage_init water_currency_dict
          (<["char_capacity_potable" := "kg"]> (<["char_capacity_grey" := "kg"]> ∅))
          (<["potable" := 10]> ∅)
          [("char_capacity_potable", 100); ("char_capacity_grey", 50)]) as [sa|e] eqn:E;
    [|vm_compute in E; discriminate E].
  apply (storage_init_class_capacity water_currency_dict
          (<["char_capacity_potable" := "kg"]> (<["char_capacity_grey" := "kg"]> ∅))
          (<["potable" := 10]> ∅)
          [("char_capacity_potable", 100); ("char_capacity_grey", 50)] sa "water" E).
  - vm_compute. discriminate.
  - intros a v Hin Hp. destruct Hin as [Ea|[Ea|[]]]; injection Ea as <- <-;
      split; intros Eb; vm_compute in Eb; discriminate Eb.
Defined.

Lemma storage_init_keeps_capacity_witness :
  match storage_init water_currency_dict
          (<["char_capacity_potable" := "kg"]> (<["char_capacity_grey" := "kg"]>
            (<["char_capacity_water" := "kg"]> ∅)))
          (<["potable" := 10]> ∅)
          [("char_capacity_potable", 100); ("char_capacity_grey", 50);
           ("char_capacity_water", 120)] with
  | Ok sa => sa_attrs sa !! "char_capacity_water" = Some 120
  | Raise _ => False
  end.
Proof.
  destruct (storage_init water_currency_dict
          (<["char_capacity_potable" := "kg"]> (<["char_capacity_grey" := "kg"]>
            (<["char_capacity_water" := "kg"]> ∅)))
          (<["potable" := 10]> ∅)
          [("char_capacity_potable", 100); ("char_capacity_grey", 50);
           ("char_capacity_water", 120)]) as [sa|e] eqn:E;
    [|vm_compute in E; discriminate E].
  apply (storage_init_keeps_capacity water_currency_dict
          (<["char_capacity_potable" := "kg"]> (<["char_capacity_grey" := "kg"]>
            (<["char_capacity_water" := "kg"]> ∅)))
          (<["potable" := 10]> ∅)
          [("char_capacity_potable", 100); ("char_capacity_grey", 50);
           ("char_capacity_water", 120)] sa "char_capacity_water" 120 E).
  - apply (bool_decide_unpack _). vm_compute. reflexivity.
  - right. right. left. reflexivity.
  - reflexivity.
  - intros a v Hin Hp. destruct Hin as [Ea|[Ea|[Ea|[]]]]; injection Ea as <- <-;
      intros Eb; vm_compute in Eb; discriminate Eb.
Defined.

Lemma set_balances_fields (s : storage) (l : list (string * Q)) :
  st_capacity (set_balances s l) = st_capacity s /\
  st_amount (set_balances s l) = st_amount s /\
  st_currency_dict (set_balances s l) = st_currency_dict s /\
  (forall c, c ∉ map fst l -> st_balance (set_balances s l) !! c = st_balance s !! c).
Proof.
  revert s. induction l as [|[c v] l IH]; intros s; [repeat split; reflexivity|].
  simpl. destruct (IH (set_balance s c v)) as (H1 & H2 & H3 & H4).
  rewrite H1, H2, H3. repeat split; try reflexivity.
  intros c' Hc'. rewrite H4.
  - simpl. apply lookup_insert_ne. intros ->. apply Hc'. left.
  - intros Hin. apply Hc'. right. exact Hin.
Qed.

Lemma map_fst_pairs (g : Q -> Q) (cs : list (string * Q)) :
  map fst (map (fun '(c, b) => (c, g b)) cs) = map fst cs.
Proof. induction cs as [|[c b] cs IH]; simpl; [reflexivity|]. rewrite IH. reflexivity. Qed.

(** [increment] writes only the balances of the currencies in the dict
    it returns: every other balance, the capacities, the amount and the
    currency dict are left as they were. *)
Theorem increment_frame (s : storage) (v : string) (a : Q) (s' : storage)
    (f : list (string * Q)) :
  increment s v a = Ok (s', f) ->
  st_capacity s' = st_capacity s /\ st_amount s' = st_amount s /\
  st_currency_dict s' = st_currency_dict s /\
  (forall c, c ∉ map fst f -> st_balance s' !! c = st_balance s !! c).
Proof.
  unfold increment. intros H.
  destruct (qlt 0 a).
  - unfold getitem in H at 1. destruct (st_currency_dict s !! v) as [d|]; cbn [rbind] in H;
      [|discriminate H].
    destruct (cd_type d); try discriminate H.
    unfold getitem in H. destruct (st_capacity s !! v); cbn [rbind] in H; [|discriminate H].
    destruct (st_balance s !! v); cbn [rbind] in H; [|discriminate H].
    injection H as <- <-. repeat split; try reflexivity.
    intros c Hc. simpl. apply lookup_insert_ne. intros ->. apply Hc. left.
  - destruct (qlt a 0); [|injection H as <- <-; repeat split; reflexivity].
    destruct (view s v) as [cs|e] eqn:Hv; cbn [rbind] in H; [|discriminate H].
    destruct (view_spec s v cs Hv) as [Hnd Hbal].
    destruct (qle (qsum (map snd cs)) 0).
    + injection H as <- <-. repeat split; reflexivity.
    + rewrite decrement_loop_spec in H by assumption. injection H as <- <-.
      destruct (set_balances_fields s (map (fun '(c, b) => (c, decrement_member a (qsum (map snd cs)) b)) cs))
        as (H1 & H2 & H3 & H4).
      repeat split; try assumption.
      intros c Hc. apply H4. rewrite map_fst_pairs. rewrite map_fst_pairs in Hc. exact Hc.
Qed.

Lemma removed_sum_proportional (a t : Q) (cs : list (string * Q)) :
  0 < t -> - a <= t -> Forall (fun p => 0 <= p.2) cs ->
  qsum (map snd (map (fun '(c, b) => (c, b - decrement_member a t b)) cs)) ==
  - a * (qsum (map snd cs) / t).
Proof.
  intros Ht Hat. induction cs as [|[c b] cs IH]; intros Hnn.
  - unfold qsum. simpl. unfold Qdiv. ring.
  - apply Forall_cons in Hnn as [Hb Hnn]. simpl in Hb.
    unfold qsum in *. simpl. rewrite (IH Hnn).
    rewrite (decrement_member_proportional a t b Ht Hb Hat). field. lra.
Qed.

Lemma removed_sum_all (a t : Q) (cs : list (string * Q)) :
  0 < t -> t < - a -> Forall (fun p => 0 <= p.2) cs ->
  qsum (map snd (map (fun '(c, b) => (c, b - decrement_member a t b)) cs)) ==
  qsum (map snd cs).
Proof.
  intros Ht Hat. induction cs as [|[c b] cs IH]; intros Hnn; [reflexivity|].
  apply Forall_cons in Hnn as [Hb Hnn]. simpl in Hb.
  unfold qsum in *. simpl. rewrite (IH Hnn).
  assert (Hdm : decrement_member a t b == 0).
  { unfold decrement_member.
    assert (Hq : 0 <= b / t) by (apply Qle_shift_div_l; lra).
    assert (Hbt : b == t * (b / t)) by (field; lra).
    assert (Hle : b + a * (b / t) <= 0) by nra.
    destruct (Q.max_spec (b + a * (b / t)) 0) as [[H1 H2]|[H1 H2]]; rewrite H2; lra. }
  rewrite Hdm. ring.
Qed.

(** A negative [increment] of a view whose balances are nonnegative
    removes, over all the currencies of the view, [min(-a, total)] in
    total: the request when the view holds enough, everything it holds
    otherwise. *)
Theorem increment_negative_removes (s : storage) (v : string) (a : Q)
    (cs : list (string * Q)) (s' : storage) (f : list (string * Q)) :
  a < 0 -> view s v = Ok cs -> Forall (fun p => 0 <= p.2) cs ->
  increment s v a = Ok (s', f) ->
  qsum (map snd f) == Qmin (- a) (qsum (map snd cs)).
Proof.
  intros Ha Hv Hnn H.
  assert (Hneg : qlt 0 a = false) by (apply qlt_false; lra).
  assert (Hneg' : qlt a 0 = true) by (apply qlt_spec; exact Ha).
  destruct (view_spec s v cs Hv) as [Hnd Hbal].
  pose proof (qsum_nonneg (map snd cs) (proj2 (Forall_map _ _ _) Hnn)) as Ht0.
  unfold increment in H. rewrite Hneg, Hneg', Hv in H. cbn [rbind] in H.
  destruct (qle (qsum (map snd cs)) 0) eqn:Hle.
  - apply qle_spec in Hle. injection H as <- <-.
    assert (Hz : qsum (map snd (map (fun '(c, _) => (c, 0)) cs)) == 0).
    { clear. induction cs as [|[c b] cs IH]; [reflexivity|].
      unfold qsum in *. simpl. rewrite IH. reflexivity. }
    rewrite Hz. rewrite Q.min_r by lra. lra.
  - apply qle_false in Hle.
    rewrite decrement_loop_spec in H by assumption. injection H as <- <-.
    destruct (Qlt_le_dec (qsum (map snd cs)) (- a)) as [Hlt|Hge].
    + rewrite (removed_sum_all a _ cs Hle Hlt Hnn). rewrite Q.min_r by lra. reflexivity.
    + rewrite (removed_sum_proportional a _ cs Hle Hge Hnn). rewrite Q.min_l by lra.
      field. lra.
Qed.

Lemma increment_negative_removes_witness :
  match increment (water_tank 30 10) "water" (-50) with
  | Ok (s', f) => qsum (map snd f) == Qmin (- (-50)) (qsum (map snd [("potable", 30); ("grey", 10)]))
  | Raise _ => False
  end.
Proof.
  destruct (increment (water_tank 30 10) "water" (-50)) as [[s' f]|e] eqn:E;
    [|vm_compute in E; discriminate E].
  apply (increment_negative_removes (water_tank 30 10) "water" (-50)
           [("potable", 30); ("grey", 10)] s' f).
  - reflexivity.
  - vm_compute. reflexivity.
  - repeat constructor; simpl; discriminate.
  - exact E.
Defined.

Lemma increment_frame_witness :
  match increment (water_tank 30 10) "potable" 5 with
  | Ok (s', f) =>
      st_capacity s' = st_capacity (water_tank 30 10) /\
      st_amount s' = st_amount (water_tank 30 10) /\
      st_currency_dict s' = st_currency_dict (water_tank 30 10) /\
      (forall c, c ∉ map fst f -> st_balance s' !! c = st_balance (water_tank 30 10) !! c)
  | Raise _ => False
  end.
Proof.
  destruct (increment (water_tank 30 10) "potable" 5) as [[s' f]|e] eqn:E;
    [|vm_compute in E; discriminate E].
  exact (increment_frame (water_tank 30 10) "potable" 5 s' f E).
Defined.

(** ** PlantAgent.step *)

Section PlantStepProofs.

Context {M : Type}.
Variable hours_per_step : M -> Q.
Variable day_length_hours : M -> Q.
Variable model_remove : plant -> M -> M.
Variable calculate_co2_scale_fn : plant -> Z -> M -> result (list (string * Q) * M).
Variable general_step : plant -> M -> result (plant * M).

Local Abbreviation pstep := (plant_step hours_per_step day_length_hours model_remove
                          calculate_co2_scale_fn general_step).
Local Abbreviation psteps := (plant_steps hours_per_step day_length_hours model_remove
                          calculate_co2_scale_fn general_step).

Lemma plant_pre_step_fields p m p' m' :
  plant_pre_step calculate_co2_scale_fn p m = Ok (p', m') ->
  pl_agent_step_num p' = pl_agent_step_num p /\ pl_active p' = pl_active p /\
  pl_growth_criteria p' = pl_growth_criteria p /\ pl_lifetime p' = pl_lifetime p /\
  pl_cause_of_death p' = pl_cause_of_death p /\
  (qlt 0 (pl_lifetime p - 1) = false -> pl_grown p' = pl_grown p).
Proof.
  unfold plant_pre_step. intros H.
  destruct (Qle_bool (pl_lifetime p - 1) (pl_agent_step_num p) && qlt 0 (pl_lifetime p - 1))
    eqn:Hg.
  - injection H as <- <-. repeat split; try reflexivity.
    intros Hl. rewrite Hl, andb_false_r in Hg. discriminate Hg.
  - destruct (str_truthy (pl_carbon_fixation p)).
    + destruct (calculate_co2_scale_fn p (py_int (pl_agent_step_num p + 1)) m) as [r|e];
        cbn [rbind fst snd] in H; [|discriminate H].
      injection H as <- <-. repeat split; reflexivity.
    + injection H as <- <-. repeat split; reflexivity.
Qed.

Lemma plant_growth_fields p m p' m' :
  plant_growth hours_per_step p m = Ok (p', m') ->
  m' = m /\ pl_missing_desired p' = pl_missing_desired p /\ pl_grown p' = pl_grown p /\
  pl_agent_step_num p' = (if pl_missing_desired p then pl_agent_step_num p
                          else pl_agent_step_num p + hours_per_step m) /\
  (pl_missing_desired p = false -> is_Some (pl_growth_criteria p)).
Proof.
  unfold plant_growth. intros H.
  destruct (pl_missing_desired p) eqn:Hmd.
  - injection H as <- <-. repeat split; [exact Hmd | intros E; discriminate E].
  - cbn [set_agent_step_num pl_growth_criteria pl_step_exchange_buffer pl_amount
         pl_total_growth pl_current_growth] in H.
    destruct (pl_growth_criteria p) as [g|] eqn:Hgc; cbn [rbind] in H; [|discriminate H].
    destruct (split_prefix g) as [[prefix currency]|e]; cbn [rbind] in H; [|discriminate H].
    unfold getitem in H.
    destruct (pl_step_exchange_buffer p !! prefix) as [buf|]; cbn [rbind] in H; [|discriminate H].
    assert (Hend : m' = m /\ pl_missing_desired p' = false /\ pl_grown p' = pl_grown p /\
                   pl_agent_step_num p' = pl_agent_step_num p + hours_per_step m).
    { destruct (buf !! currency) as [step_data|].
      - case_bool_decide; [injection H as <- <-; cbn; repeat split; assumption|].
        destruct (Z.eqb (pl_amount p) 0); [discriminate H|].
        destruct (Qeq_bool (pl_total_growth p) 0); [discriminate H|].
        injection H as <- <-. cbn. repeat split; assumption.
      - injection H as <- <-. cbn. repeat split; assumption. }
    destruct Hend as (H1 & H2 & H3 & H4). repeat split; try assumption.
    intros _. eexists; reflexivity.
Qed.

(** A reproducing plant at the end of its lifetime (and past its
    start delay) is reset in that step: age, growth and step number back
    to 0, not grown, its full amount, and a start delay [delay] with
    [0 <= delay < int(day_length_hours)] that makes
    [int(age) + delay + 1] a multiple of the day length, so the new cycle
    starts at hour 0 of a day.  Nothing else is done in that step: the
    model is unchanged, every other attribute keeps its value, and
    neither [super().step()] nor the co2 factors are computed (the step
    does not depend on them). *)
Theorem plant_reproduce_aligned (p : plant) (m : M) :
  pl_delay_start p <= 0 -> pl_grown p = true -> pl_reproduce p = true ->
  (0 < py_int (day_length_hours m))%Z ->
  exists p' delay,
    pstep p m = Ok (p', m) /\
    (forall co2' gs', plant_step hours_per_step day_length_hours model_remove co2' gs' p m =
                      Ok (p', m)) /\
    pl_age p' = 0 /\ pl_grown p' = false /\ pl_agent_step_num p' = 0 /\
    pl_current_growth p' = 0 /\ pl_growth_rate p' = 0 /\
    pl_amount p' = pl_full_amount p /\ pl_delay_start p' = inject_Z delay /\
    (0 <= delay < py_int (day_length_hours m))%Z /\
    ((py_int (pl_age p) + delay + 1) mod py_int (day_length_hours m) = 0)%Z /\
    pl_active p' = pl_active p /\ pl_cause_of_death p' = pl_cause_of_death p /\
    pl_agent_type p' = pl_agent_type p /\ pl_full_amount p' = pl_full_amount p /\
    pl_reproduce p' = pl_reproduce p /\ pl_lifetime p' = pl_lifetime p /\
    pl_total_growth p' = pl_total_growth p /\
    pl_growth_criteria p' = pl_growth_criteria p /\
    pl_carbon_fixation p' = pl_carbon_fixation p /\ pl_co2_scale p' = pl_co2_scale p /\
    pl_missing_desired p' = pl_missing_desired p /\
    pl_step_exchange_buffer p' = pl_step_exchange_buffer p.
Proof.
  intros Hd Hg Hr Hdl.
  assert (Hq : qlt 0 (pl_delay_start p) = false) by (apply qlt_false; exact Hd).
  set (dl := py_int (day_length_hours m)) in *.
  set (a := py_int (pl_age p)).
  exists (reset_plant p (dl - a mod dl - 1)), (dl - a mod dl - 1)%Z.
  assert (Hs : forall co2' gs', plant_step hours_per_step day_length_hours model_remove co2' gs' p m =
                               Ok (reset_plant p (dl - a mod dl - 1), m)).
  { intros co2' gs'. unfold plant_step. rewrite Hq, Hg, Hr. fold dl a.
    replace (Z.eqb dl 0) with false by (symmetry; apply Z.eqb_neq; lia).
    reflexivity. }
  split; [apply Hs|]. split; [exact Hs|].
  repeat split; try reflexivity.
  - pose proof (Z.mod_pos_bound a dl Hdl). lia.
  - pose proof (Z.mod_pos_bound a dl Hdl). lia.
  - rewrite (Z.div_mod a dl) at 1 by lia.
    replace (dl * (a / dl) + a mod dl + (dl - a mod dl - 1) + 1)%Z
      with ((a / dl + 1) * dl)%Z by ring.
    apply Z.mod_mul. lia.
Qed.

Lemma set_delay_start_twice (p : plant) (x y : Q) :
  set_delay_start (set_delay_start p x) y = set_delay_start p y.
Proof. destruct p; reflexivity. Qed.

Lemma set_delay_start_same (p : plant) :
  set_delay_start p (pl_delay_start p) = p.
Proof. destruct p; reflexivity. Qed.

(** While its start delay is positive a plant only counts it down by
    [hours_per_step] per step: [n] steps starting from a delay [d] with
    [d > (n - 1) * hours_per_step] leave it with [d - n * hours_per_step]
    and every other attribute as it was, the model untouched and nothing
    exchanged ([super().step()] is never called). *)
Theorem plant_delay_countdown (n : nat) (p : plant) (m : M) :
  0 <= hours_per_step m ->
  inject_Z (Z.of_nat n) * hours_per_step m < pl_delay_start p + hours_per_step m ->
  exists p', psteps n p m = Ok (p', m) /\
    p' = set_delay_start p (pl_delay_start p') /\
    pl_delay_start p' == pl_delay_start p - inject_Z (Z.of_nat n) * hours_per_step m.
Proof.
  intros Hh. revert p. induction n as [|n IH]; intros p Hn.
  - exists p. split; [reflexivity|]. split; [symmetry; apply set_delay_start_same|].
    unfold inject_Z. simpl. ring.
  - rewrite Nat2Z.inj_succ, <- Z.add_1_r, inject_Z_plus in Hn.
    assert (H0 : 0 <= inject_Z (Z.of_nat n)) by (unfold Qle; simpl; lia).
    change (inject_Z 1) with 1 in Hn.
    assert (Hpos : 0 < pl_delay_start p) by nra.
    destruct (IH (set_delay_start p (pl_delay_start p - hours_per_step m))) as (p' & Hs & Hp' & Hd).
    { cbn [pl_delay_start set_delay_start]. nra. }
    exists p'. split.
    + cbn [plant_steps]. unfold plant_step at 1.
      replace (qlt 0 (pl_delay_start p)) with true by (symmetry; apply qlt_spec; exact Hpos).
      cbn [rbind fst snd]. exact Hs.
    + split.
      * rewrite Hp' at 1. apply set_delay_start_twice.
      * rewrite Hd. cbn [pl_delay_start set_delay_start]. rewrite Nat2Z.inj_succ, <- Z.add_1_r, inject_Z_plus.
        change (inject_Z 1) with 1. ring.
Qed.


(** For a plant past its start delay ([delay_start <= 0]) that is not
    reset for reproduction in the step (not [grown], or not
    reproducing), a step that finishes advances its growth step number
    [agent_step_num] by [hours_per_step] exactly when no desired input
    was missing in that step ([missing_desired] false after the step),
    and leaves it otherwise; this assumes [super().step()] leaves
    [agent_step_num] alone, as [GeneralAgent.step] never writes it. *)
Theorem plant_step_advances (p : plant) (m : M) (p' : plant) (m' : M) :
  (forall q m1 q' m1', general_step q m1 = Ok (q', m1') ->
     pl_agent_step_num q' = pl_agent_step_num q) ->
  pl_delay_start p <= 0 -> (pl_grown p = false \/ pl_reproduce p = false) ->
  pstep p m = Ok (p', m') ->
  pl_agent_step_num p' =
    if pl_missing_desired p' then pl_agent_step_num p
    else pl_agent_step_num p + hours_per_step m'.
Proof.
  intros Hgs Hd Hgr H.
  assert (Hq : qlt 0 (pl_delay_start p) = false) by (apply qlt_false; exact Hd).
  unfold plant_step in H. rewrite Hq in H.
  assert (Hpre : exists p1 m1, pl_agent_step_num p1 = pl_agent_step_num p /\
            (let* r := plant_pre_step calculate_co2_scale_fn p1 m1 in
             let* r := general_step (fst r) (snd r) in
             plant_growth hours_per_step (fst r) (snd r)) = Ok (p', m')).
  { destruct (pl_grown p).
    - destruct (pl_reproduce p); [destruct Hgr; discriminate|].
      cbn [rbind] in H. eexists _, _. split; [|exact H]. reflexivity.
    - cbn [rbind] in H. eexists _, _. split; [|exact H]. reflexivity. }
  destruct Hpre as (p1 & m1 & Hs1 & H1).
  destruct (plant_pre_step calculate_co2_scale_fn p1 m1) as [[p2 m2]|e] eqn:H2;
    cbn [rbind fst snd] in H1; [|discriminate H1].
  destruct (plant_pre_step_fields _ _ _ _ H2) as (Hs2 & _).
  destruct (general_step p2 m2) as [[p3 m3]|e] eqn:H3; cbn [rbind fst snd] in H1; [|discriminate H1].
  pose proof (Hgs _ _ _ _ H3) as Hs3.
  destruct (plant_growth_fields _ _ _ _ H1) as (-> & Hmd & _ & Hs4 & _).
  rewrite Hs4, Hmd, Hs3, Hs2, Hs1. reflexivity.
Qed.

(** A plant without [char_growth_criteria], past its start delay
    ([delay_start <= 0]) and not reset for reproduction in the step (not
    [grown], or not reproducing), can only finish a step in which a
    desired input was missing ([missing_desired] true after it),
    assuming [super().step()] leaves [growth_criteria] alone.  Otherwise
    the part of the step after [super().step()] raises [AttributeError]:
    [growth_criteria.split('_', 1)] on [None]. *)
Theorem plant_no_growth_criteria (p : plant) (m : M) (p' : plant) (m' : M) :
  (forall q m1 q' m1', general_step q m1 = Ok (q', m1') ->
     pl_growth_criteria q' = pl_growth_criteria q) ->
  pl_delay_start p <= 0 -> (pl_grown p = false \/ pl_reproduce p = false) ->
  pl_growth_criteria p = None ->
  (pstep p m = Ok (p', m') -> pl_missing_desired p' = true) /\
  (forall q m1, pl_growth_criteria q = None -> pl_missing_desired q = false ->
     plant_growth hours_per_step q m1 = Raise AttributeError).
Proof.
  intros Hgs Hd Hgr Hgc. split.
  2: { intros q m1 Hq Hmd. unfold plant_growth. rewrite Hmd.
       cbn [set_agent_step_num pl_growth_criteria]. rewrite Hq. reflexivity. }
  intros H.
  assert (Hq : qlt 0 (pl_delay_start p) = false) by (apply qlt_false; exact Hd).
  unfold plant_step in H. rewrite Hq in H.
  assert (Hpre : exists p1 m1, pl_growth_criteria p1 = None /\
            (let* r := plant_pre_step calculate_co2_scale_fn p1 m1 in
             let* r := general_step (fst r) (snd r) in
             plant_growth hours_per_step (fst r) (snd r)) = Ok (p', m')).
  { destruct (pl_grown p).
    - destruct (pl_reproduce p); [destruct Hgr; discriminate|].
      cbn [rbind] in H. eexists _, _. split; [|exact H]. exact Hgc.
    - cbn [rbind] in H. eexists _, _. split; [|exact H]. exact Hgc. }
  destruct Hpre as (p1 & m1 & Hg1 & H1).
  destruct (plant_pre_step calculate_co2_scale_fn p1 m1) as [[p2 m2]|e] eqn:H2;
    cbn [rbind fst snd] in H1; [|discriminate H1].
  destruct (plant_pre_step_fields _ _ _ _ H2) as (_ & _ & Hg2 & _).
  destruct (general_step p2 m2) as [[p3 m3]|e] eqn:H3; cbn [rbind fst snd] in H1; [|discriminate H1].
  pose proof (Hgs _ _ _ _ H3) as Hg3.
  destruct (plant_growth_fields _ _ _ _ H1) as (_ & Hmd & _ & _ & Hgc4).
  rewrite Hmd. destruct (pl_missing_desired p3); [reflexivity|].
  destruct (Hgc4 eq_refl) as [g Hg]. congruence.
Qed.

(** [PlantAgent.__init__] gives a plant whose [char_lifetime] is in
    minutes the lifetime 0 ([int(1/60)] is 0), whatever the configured
    value; and a plant of lifetime 0 is never marked grown by a step
    (when [super().step()] leaves [grown] alone), so it never reaches
    the end of its lifecycle. *)
Theorem plant_minute_lifetime_never_grown (attrs : gmap string Q) (dl L : Q) :
  plant_lifetime attrs (Some "min") dl = Ok L ->
  L == 0 /\
  ((forall q m1 q' m1', general_step q m1 = Ok (q', m1') -> pl_grown q' = pl_grown q) ->
   forall p m p' m', pl_lifetime p == L -> pl_grown p = false ->
     pstep p m = Ok (p', m') -> pl_grown p' = false).
Proof.
  intros Hl.
  assert (HL : L == 0).
  { unfold plant_lifetime in Hl. destruct (attrs !! "char_lifetime") as [lt|];
      cbn [rbind] in Hl; injection Hl as <-; [|reflexivity].
    change (py_int (1 # 60)) with 0%Z. unfold inject_Z. ring. }
  split; [exact HL|].
  intros Hgs p m p' m' HpL Hg H.
  assert (Hlt : qlt 0 (pl_lifetime p - 1) = false) by (apply qlt_false; rewrite HpL, HL; lra).
  unfold plant_step in H. destruct (qlt 0 (pl_delay_start p)).
  - injection H as <- <-. exact Hg.
  - rewrite Hg in H. cbn [rbind] in H.
    destruct (plant_pre_step calculate_co2_scale_fn p m) as [[p2 m2]|e] eqn:H2;
      cbn [rbind fst snd] in H; [|discriminate H].
    destruct (plant_pre_step_fields _ _ _ _ H2) as (_ & _ & _ & _ & _ & Hg2).
    destruct (general_step p2 m2) as [[p3 m3]|e] eqn:H3; cbn [rbind fst snd] in H; [|discriminate H].
    destruct (plant_growth_fields _ _ _ _ H) as (_ & _ & Hg4 & _).
    rewrite Hg4, (Hgs _ _ _ _ H3), (Hg2 Hlt). exact Hg.
Qed.

End PlantStepProofs.

Lemma plant_reproduce_aligned_witness :
  (pl_delay_start grown_lettuce <= 0 /\ pl_grown grown_lettuce = true /\
   pl_reproduce grown_lettuce = true /\ (0 < py_int 24)%Z) /\
  exists (p' : plant) (delay : Z),
    lettuce_step grown_lettuce tt = Ok (p', tt) /\
    pl_age p' = 0 /\ pl_grown p' = false /\ pl_agent_step_num p' = 0 /\
    pl_current_growth p' = 0 /\ pl_growth_rate p' = 0 /\
    pl_amount p' = pl_full_amount grown_lettuce /\ pl_delay_start p' = inject_Z delay /\
    (0 <= delay < py_int 24)%Z /\
    ((py_int (pl_age grown_lettuce) + delay + 1) mod py_int 24)%Z = 0%Z /\
    (forall co2' gs', plant_step (fun _ => 1) (fun _ => 24) (fun _ m => m) co2' gs'
                        grown_lettuce tt = Ok (p', tt)) /\
    pl_active p' = pl_active grown_lettuce.
Proof.
  assert (H1 : pl_delay_start grown_lettuce <= 0) by (cbv; discriminate).
  assert (H4 : (0 < py_int 24)%Z) by (vm_compute; reflexivity).
  split; [split; [exact H1|split; [reflexivity|split; [reflexivity|exact H4]]]|].
  destruct (plant_reproduce_aligned (M:=unit) (fun _ => 1) (fun _ => 24) (fun _ m => m)
              (fun _ _ m => Ok ([], m)) (fun p m => Ok (p, m)) grown_lettuce tt
              H1 eq_refl eq_refl H4)
    as (p' & delay & Hs & Hall & Ha & Hg & Hn & Hc & Hr & Hm & Hd & Hb & Hmod & Hact & _).
  exists p', delay. repeat (split; [assumption|]). exact Hact.
Defined.

Lemma plant_delay_countdown_witness :
  (0 <= 1 /\ inject_Z (Z.of_nat 3) * 1 < pl_delay_start (set_delay_start grown_lettuce 5) + 1) /\
  exists p' : plant,
    lettuce_steps 3 (set_delay_start grown_lettuce 5) tt = Ok (p', tt) /\
    p' = set_delay_start (set_delay_start grown_lettuce 5) (pl_delay_start p') /\
    pl_delay_start p' == pl_delay_start (set_delay_start grown_lettuce 5) - inject_Z (Z.of_nat 3) * 1.
Proof.
  assert (H1 : 0 <= 1) by (cbv; discriminate).
  assert (H2 : inject_Z (Z.of_nat 3) * 1 < pl_delay_start (set_delay_start grown_lettuce 5) + 1)
    by (cbv; reflexivity).
  split; [split; [exact H1|exact H2]|].
  exact (plant_delay_countdown (M:=unit) (fun _ => 1) (fun _ => 24) (fun _ m => m)
           (fun _ _ m => Ok ([], m)) (fun p m => Ok (p, m)) 3 (set_delay_start grown_lettuce 5) tt
           H1 H2).
Defined.


Lemma plant_step_advances_witness :
  match lettuce_step growing_lettuce tt with
  | Ok (p', m') =>
      ((forall q m1 q' m1', (fun (p : plant) (m : unit) => Ok (p, m)) q m1 = Ok (q', m1') ->
          pl_agent_step_num q' = pl_agent_step_num q) /\
       pl_delay_start growing_lettuce <= 0 /\
       (pl_grown growing_lettuce = false \/ pl_reproduce growing_lettuce = false)) /\
      pl_agent_step_num p' =
        if pl_missing_desired p' then pl_agent_step_num growing_lettuce
        else pl_agent_step_num growing_lettuce + 1
  | Raise _ => False
  end.
Proof.
  destruct (lettuce_step growing_lettuce tt) as [[p' m']|e] eqn:E;
    [|vm_compute in E; discriminate E].
  assert (H0 : forall q m1 q' m1',
             (fun (p : plant) (m : unit) => (Ok (p, m) : result (plant * unit))) q m1 = Ok (q', m1') ->
             pl_agent_step_num q' = pl_agent_step_num q)
    by (intros q m1 q' m1' H; injection H as <- <-; reflexivity).
  assert (H1 : pl_delay_start growing_lettuce <= 0) by (cbv; discriminate).
  assert (H2 : pl_grown growing_lettuce = false \/ pl_reproduce growing_lettuce = false)
    by (left; reflexivity).
  split; [split; [exact H0|split; [exact H1|exact H2]]|].
  exact (plant_step_advances (M:=unit) (fun _ => 1) (fun _ => 24) (fun _ m => m)
           (fun _ _ m => Ok ([], m)) (fun p m => Ok (p, m)) growing_lettuce tt p' m'
           H0 H1 H2 E).
Defined.

Lemma plant_no_growth_criteria_witness :
  match lettuce_step starved_lettuce tt with
  | Ok (p', m') =>
      ((forall q m1 q' m1', (fun (p : plant) (m : unit) => Ok (p, m)) q m1 = Ok (q', m1') ->
          pl_growth_criteria q' = pl_growth_criteria q) /\
       pl_delay_start starved_lettuce <= 0 /\
       (pl_grown starved_lettuce = false \/ pl_reproduce starved_lettuce = false) /\
       pl_growth_criteria starved_lettuce = None) /\
      pl_missing_desired p' = true
  | Raise _ => False
  end.
Proof.
  destruct (lettuce_step starved_lettuce tt) as [[p' m']|e] eqn:E;
    [|vm_compute in E; discriminate E].
  assert (H0 : forall q m1 q' m1',
             (fun (p : plant) (m : unit) => (Ok (p, m) : result (plant * unit))) q m1 = Ok (q', m1') ->
             pl_growth_criteria q' = pl_growth_criteria q)
    by (intros q m1 q' m1' H; injection H as <- <-; reflexivity).
  assert (H1 : pl_delay_start starved_lettuce <= 0) by (cbv; discriminate).
  assert (H2 : pl_grown starved_lettuce = false \/ pl_reproduce starved_lettuce = false)
    by (left; reflexivity).
  split; [split; [exact H0|split; [exact H1|split; [exact H2|reflexivity]]]|].
  exact (proj1 (plant_no_growth_criteria (M:=unit) (fun _ => 1) (fun _ => 24) (fun _ m => m)
           (fun _ _ m => Ok ([], m)) (fun p m => Ok (p, m)) starved_lettuce tt p' m'
           H0 H1 H2 eq_refl) E).
Defined.

Lemma plant_minute_lifetime_never_grown_witness :
  match plant_lifetime (<["char_lifetime" := 30]> ∅) (Some "min") 24 with
  | Ok L =>
      L == 0 /\
      ((forall q m1 q' m1', (fun (p : plant) (m : unit) => Ok (p, m)) q m1 = Ok (q', m1') ->
          pl_grown q' = pl_grown q) ->
       forall p m p' m', pl_lifetime p == L -> pl_grown p = false ->
         lettuce_step p m = Ok (p', m') -> pl_grown p' = false)
  | Raise _ => False
  end.
Proof.
  destruct (plant_lifetime (<["char_lifetime" := 30]> ∅) (Some "min") 24) as [L|e] eqn:E;
    [|vm_compute in E; discriminate E].
  exact (plant_minute_lifetime_never_grown (M:=unit) (fun _ => 1) (fun _ => 24) (fun _ m => m)
           (fun _ _ m => Ok ([], m)) (fun p m => Ok (p, m)) (<["char_lifetime" := 30]> ∅) 24 L E).
Defined.

(** ** GeneralAgent._init_events *)

(** With [int(day_length_hours)] equal to 0, [_init_events] raises
    [ZeroDivisionError] on an agent with an event attribute (each event
    attribute having its probability value and unit). *)
Theorem init_events_zero_day_length (hours_per_step day_length_hours : Q)
    (attrs : list string) (attr_details : gmap string event_attr) :
  py_int day_length_hours = 0%Z ->
  (forall a, List.In a attrs -> String.prefix "event" a = true ->
     exists d pv u, attr_details !! a = Some d /\ ea_probability_value d = Some pv /\
                    ea_probability_unit d = Some u) ->
  (exists a, List.In a attrs /\ String.prefix "event" a = true) ->
  init_events hours_per_step day_length_hours attrs attr_details = Raise ZeroDivisionError.
Proof.
  intros Hdl. revert attr_details.
  induction attrs as [|a0 rest IH]; intros ad Hdet [a [Hin Hev]]; [destruct Hin|].
  cbn [init_events]. destruct (String.prefix "event" a0) eqn:Hev0.
  - destruct (Hdet a0 (or_introl eq_refl) Hev0) as (d & pv & u & Hd & Hpv & Hu).
    unfold getitem. rewrite Hd. cbn [rbind]. unfold init_event_attr.
    rewrite Hpv, Hu. cbn [rbind]. unfold unit_multipliers. rewrite Hdl. reflexivity.
  - destruct Hin as [<-|Hin]; [congruence|].
    apply IH; [|exists a; split; assumption].
    intros a' Hin' Hev'. exact (Hdet a' (or_intror Hin') Hev').
Qed.

Lemma unit_multiplier_get (x y : Q) (u : string) :
  default x (dict_get [("min", 60); ("hour", 1); ("day", y)] u) =
  if String.eqb u "min" then 60 else if String.eqb u "hour" then 1
  else if String.eqb u "day" then y else x.
Proof.
  cbn [dict_get]. destruct (String.eqb u "min"); [reflexivity|].
  destruct (String.eqb u "hour"); [reflexivity|].
  destruct (String.eqb u "day"); reflexivity.
Qed.

Lemma init_event_attr_spec (hps dl : Q) (d d' : event_attr) :
  init_event_attr hps dl d = Ok d' ->
  exists pv u,
    ea_probability_value d = Some pv /\ ea_probability_unit d = Some u /\
    d' = mkEventAttr (ea_probability_value d) (ea_probability_unit d) (ea_duration_value d)
           (ea_duration_unit d)
           (Some (pv * hps * (if String.eqb u "min" then 60 else if String.eqb u "hour" then 1
                              else if String.eqb u "day" then 1 / inject_Z (py_int dl) else 0)))
           (match ea_duration_value d with
            | Some dv =>
                if Qeq_bool dv 0 then ea_duration_delta_per_step d else
                let du := default "hour" (ea_duration_unit d) in
                Some (hps * (if String.eqb du "min" then 60 else if String.eqb du "hour" then 1
                             else if String.eqb du "day" then 1 / inject_Z (py_int dl) else 1))
            | None => ea_duration_delta_per_step d
            end).
Proof.
  destruct d as [pv0 pu0 dv0 du0 pps0 dd0].
  unfold init_event_attr. cbn [ea_probability_value ea_probability_unit ea_duration_value
    ea_duration_unit ea_probability_per_step ea_duration_delta_per_step]. intros H.
  destruct pv0 as [pv|]; cbn [rbind] in H; [|discriminate H].
  destruct pu0 as [u|]; cbn [rbind] in H; [|discriminate H].
  exists pv, u. split; [reflexivity|]. split; [reflexivity|].
  unfold unit_multipliers in H. destruct (Z.eqb (py_int dl) 0); cbn [rbind] in H; [discriminate H|].
  rewrite unit_multiplier_get in H.
  cbn [set_probability_per_step ea_duration_value ea_duration_unit] in H.
  destruct dv0 as [dv|].
  - destruct (Qeq_bool dv 0).
    + injection H as <-. reflexivity.
    + cbn [rbind] in H. rewrite unit_multiplier_get in H. injection H as <-. reflexivity.
  - injection H as <-. reflexivity.
Qed.

(** [_init_events] gives each event attribute of [attrs] (distinct
    names) its [probability_per_step]: [probability_value *
    hours_per_step] times 60 for ['min'], 1 for ['hour'], [1/int(day_length_hours)]
    for ['day'] and 0 for any other unit.  An event with a nonzero
    [duration_value] gets [duration_delta_per_step = hours_per_step] times
    the multiplier of its [duration_unit] (['hour'] by default, 1 for an
    unknown unit).  The other entries of [attr_details] are not touched. *)
Theorem init_events_spec (hours_per_step day_length_hours : Q) (attrs : list string)
    (attr_details attr_details' : gmap string event_attr) :
  NoDup attrs ->
  init_events hours_per_step day_length_hours attrs attr_details = Ok attr_details' ->
  (forall a, (List.In a attrs -> String.prefix "event" a = false) ->
     attr_details' !! a = attr_details !! a) /\
  (forall a, List.In a attrs -> String.prefix "event" a = true ->
     exists d pv u,
       attr_details !! a = Some d /\ ea_probability_value d = Some pv /\
       ea_probability_unit d = Some u /\
       attr_details' !! a =
         Some (mkEventAttr (ea_probability_value d) (ea_probability_unit d) (ea_duration_value d)
           (ea_duration_unit d)
           (Some (pv * hours_per_step *
                  (if String.eqb u "min" then 60 else if String.eqb u "hour" then 1
                   else if String.eqb u "day" then 1 / inject_Z (py_int day_length_hours) else 0)))
           (match ea_duration_value d with
            | Some dv =>
                if Qeq_bool dv 0 then ea_duration_delta_per_step d else
                let du := default "hour" (ea_duration_unit d) in
                Some (hours_per_step *
                      (if String.eqb du "min" then 60 else if String.eqb du "hour" then 1
                       else if String.eqb du "day" then 1 / inject_Z (py_int day_length_hours)
                       else 1))
            | None => ea_duration_delta_per_step d
            end))).
Proof.
  revert attr_details.
  induction attrs as [|a0 rest IH]; intros ad Hnd H.
  - cbn [init_events] in H. injection H as <-. split; [reflexivity|]. intros a [].
  - apply NoDup_cons in Hnd as [Hnin Hnd]. rewrite list_elem_of_In in Hnin.
    cbn [init_events] in H. destruct (String.prefix "event" a0) eqn:Hev0.
    + unfold getitem in H at 1. destruct (ad !! a0) as [d0|] eqn:Hd0; cbn [rbind] in H;
        [|discriminate H].
      destruct (init_event_attr hours_per_step day_length_hours d0) as [d0'|e] eqn:Hi;
        cbn [rbind] in H; [|discriminate H].
      destruct (IH _ Hnd H) as [Hfr Hsp].
      split.
      * intros a Hna. assert (Hne : a <> a0).
        { intros ->. rewrite (Hna (or_introl eq_refl)) in Hev0. discriminate Hev0. }
        rewrite Hfr by (intros Hin; exact (Hna (or_intror Hin))).
        apply lookup_insert_ne. congruence.
      * intros a [<-|Hin] Hev.
        -- destruct (init_event_attr_spec _ _ _ _ Hi) as (pv & u & Hpv & Hu & Hd').
           exists d0, pv, u. split; [exact Hd0|]. split; [exact Hpv|]. split; [exact Hu|].
           rewrite Hfr by (intros Hin; contradiction).
           rewrite lookup_insert_eq. rewrite Hd'. reflexivity.
        -- destruct (Hsp a Hin Hev) as (d & pv & u & Hd & Hrest).
           assert (Hne : a <> a0) by (intros ->; contradiction).
           rewrite lookup_insert_ne in Hd by congruence.
           exists d, pv, u. split; [exact Hd|exact Hrest].
    + destruct (IH _ Hnd H) as [Hfr Hsp]. split.
      * intros a Hna. apply Hfr. intros Hin. exact (Hna (or_intror Hin)).
      * intros a [<-|Hin] Hev; [congruence|]. exact (Hsp a Hin Hev).
Qed.


Lemma init_events_zero_day_length_witness :
  (py_int (1 # 2) = 0%Z /\
   (forall a, List.In a ["char_capacity_water"; "event_failure"] ->
      String.prefix "event" a = true ->
      exists d pv u, failure_details !! a = Some d /\ ea_probability_value d = Some pv /\
                     ea_probability_unit d = Some u) /\
   (exists a, List.In a ["char_capacity_water"; "event_failure"] /\
              String.prefix "event" a = true)) /\
  init_events 1 (1 # 2) ["char_capacity_water"; "event_failure"] failure_details
    = Raise ZeroDivisionError.
Proof.
  assert (H1 : py_int (1 # 2) = 0%Z) by (vm_compute; reflexivity).
  assert (H2 : forall a, List.In a ["char_capacity_water"; "event_failure"] ->
      String.prefix "event" a = true ->
      exists d pv u, failure_details !! a = Some d /\ ea_probability_value d = Some pv /\
                     ea_probability_unit d = Some u).
  { intros a [<-|[<-|[]]] Hev; [discriminate Hev|].
    eexists _, _, _. split; [reflexivity|]. split; reflexivity. }
  assert (H3 : exists a, List.In a ["char_capacity_water"; "event_failure"] /\
                         String.prefix "event" a = true)
    by (exists "event_failure"; split; [right; left; reflexivity|reflexivity]).
  split; [split; [exact H1|split; [exact H2|exact H3]]|].
  exact (init_events_zero_day_length 1 (1 # 2) ["char_capacity_water"; "event_failure"]
           failure_details H1 H2 H3).
Defined.

Lemma init_events_spec_witness :
  match init_events 1 24 ["char_capacity_water"; "event_failure"] failure_details with
  | Ok attr_details' =>
      NoDup ["char_capacity_water"; "event_failure"] /\
      (forall a, (List.In a ["char_capacity_water"; "event_failure"] ->
                  String.prefix "event" a = false) ->
         attr_details' !! a = failure_details !! a) /\
      (forall a, List.In a ["char_capacity_water"; "event_failure"] ->
         String.prefix "event" a = true ->
         exists d pv u,
           failure_details !! a = Some d /\ ea_probability_value d = Some pv /\
           ea_probability_unit d = Some u /\
           attr_details' !! a =
             Some (mkEventAttr (ea_probability_value d) (ea_probability_unit d)
               (ea_duration_value d) (ea_duration_unit d)
               (Some (pv * 1 *
                      (if String.eqb u "min" then 60 else if String.eqb u "hour" then 1
                       else if String.eqb u "day" then 1 / inject_Z (py_int 24) else 0)))
               (match ea_duration_value d with
                | Some dv =>
                    if Qeq_bool dv 0 then ea_duration_delta_per_step d else
                    let du := default "hour" (ea_duration_unit d) in
                    Some (1 * (if String.eqb du "min" then 60 else if String.eqb du "hour" then 1
                               else if String.eqb du "day" then 1 / inject_Z (py_int 24)
                               else 1))
                | None => ea_duration_delta_per_step d
                end)))
  | Raise _ => False
  end.
Proof.
  destruct (init_events 1 24 ["char_capacity_water"; "event_failure"] failure_details)
    as [ad'|e] eqn:E; [|vm_compute in E; discriminate E].
  assert (Hnd : NoDup ["char_capacity_water"; "event_failure"]).
  { apply NoDup_cons. split; [|apply NoDup_cons; split; [apply not_elem_of_nil|apply NoDup_nil_2]].
    rewrite list_elem_of_In. intros [H|[]]. discriminate H. }
  split; [exact Hnd|].
  exact (init_events_spec 1 24 ["char_capacity_water"; "event_failure"] failure_details ad'
           Hnd E).
Defined.

(** ** GeneralAgent._calculate_step_values *)

Lemma qsum_repeat (k : nat) (x : Q) : qsum (repeat x k) == inject_Z (Z.of_nat k) * x.
Proof.
  induction k as [|k IH]; cbn [repeat qsum fold_right]; [unfold inject_Z; simpl; ring|].
  fold (qsum (repeat x k)). rewrite IH, Nat2Z.inj_succ. unfold Z.succ.
  rewrite inject_Z_plus. change (inject_Z 1) with 1. ring.
Qed.

Lemma np_ones_times_ok (n : Z) (x : Q) (l : list Q) :
  np_ones_times n x = IOk l -> (0 <= n)%Z /\ l = repeat (1 * x) (Z.to_nat n).
Proof.
  unfold np_ones_times. destruct (Z.ltb_spec n 0) as [Hlt|Hge]; intros H; [discriminate H|].
  injection H as <-. split; [lia|reflexivity].
Qed.

Lemma calculate_step_values_constant (get_growth_values : growth_kwargs -> iresult (list Q))
    (attrs : gmap string Q) (attr_details : gmap string sv_details) (attr : string)
    (n_steps : Z) (hours_per_step day_length_hours : Q) (ad : sv_details) (v : Q)
    (l : list Q) :
  attr_details !! attr = Some ad -> attrs !! attr = Some v ->
  str_truthy (sd_lifetime_growth_type ad) = false ->
  str_truthy (sd_daily_growth_type ad) = false ->
  calculate_step_values get_growth_values attrs attr_details attr n_steps hours_per_step
    day_length_hours = IOk l ->
  length l = Z.to_nat n_steps /\
  qsum l == inject_Z n_steps * v *
              (if String.eqb (sd_flow_time ad) "min" then hours_per_step * 60
               else if String.eqb (sd_flow_time ad) "hour" then hours_per_step
               else hours_per_step / day_length_hours).
Proof.
  intros Had Hv Hlt Hdt H. unfold calculate_step_values, getitem in H.
  rewrite Had in H. cbn [lift ibind] in H.
  destruct (flow_multiplier (sd_flow_time ad) hours_per_step day_length_hours) as [m|e] eqn:Hm;
    cbn [ibind] in H; [|discriminate H].
  rewrite Hv in H. cbn [lift ibind] in H. rewrite Hlt in H.
  destruct (np_ones_times n_steps (v * m)) as [sv|e] eqn:Ho; cbn [ibind] in H; [|discriminate H].
  rewrite Hdt in H. injection H as <-.
  destruct (np_ones_times_ok _ _ _ Ho) as [Hn ->].
  split; [apply repeat_length|].
  rewrite qsum_repeat, Z2Nat.id by exact Hn.
  assert (Hm' : m == (if String.eqb (sd_flow_time ad) "min" then hours_per_step * 60
                      else if String.eqb (sd_flow_time ad) "hour" then hours_per_step
                      else hours_per_step / day_length_hours)).
  { unfold flow_multiplier in Hm.
    destruct (String.eqb (sd_flow_time ad) "min"); [injection Hm as <-; ring|].
    destruct (String.eqb (sd_flow_time ad) "hour"); [injection Hm as <-; ring|].
    destruct (String.eqb (sd_flow_time ad) "day"); [|discriminate Hm].
    destruct (Qeq_bool day_length_hours 0); [discriminate Hm|]. injection Hm as <-. ring. }
  rewrite Hm'. ring.
Qed.

(** Without lifetime or daily growth curves, [_calculate_step_values]
    gives [n_steps] equal values that add up to [n_steps] times the
    configured value scaled to one step: times [hours_per_step * 60] for
    a flow per minute, [hours_per_step] per hour, and
    [hours_per_step / day_length_hours] per day. *)
Theorem step_values_constant_total (get_growth_values : growth_kwargs -> iresult (list Q))
    (attrs : gmap string Q) (attr_details : gmap string sv_details) (attr : string)
    (n_steps : Z) (hours_per_step day_length_hours : Q) (ad : sv_details) (v : Q)
    (l : list Q) :
  attr_details !! attr = Some ad -> attrs !! attr = Some v ->
  str_truthy (sd_lifetime_growth_type ad) = false ->
  str_truthy (sd_daily_growth_type ad) = false ->
  calculate_step_values get_growth_values attrs attr_details attr n_steps hours_per_step
    day_length_hours = IOk l ->
  length l = Z.to_nat n_steps /\
  qsum l == inject_Z n_steps * v *
              (if String.eqb (sd_flow_time ad) "min" then hours_per_step * 60
               else if String.eqb (sd_flow_time ad) "hour" then hours_per_step
               else hours_per_step / day_length_hours).
Proof.
  exact (calculate_step_values_constant get_growth_values attrs attr_details attr n_steps
           hours_per_step day_length_hours ad v l).
Qed.

Lemma py_index_in (len i : Z) : (0 <= i)%Z -> py_index len i = Z.min i len.
Proof. unfold py_index. destruct (Z.ltb_spec i 0); lia. Qed.

Lemma np_setslice_length (l : list Q) (i j : Z) (v l' : list Q) :
  (0 <= i)%Z -> (i <= j)%Z -> (j <= Z.of_nat (length l))%Z ->
  length v = Z.to_nat (j - i) ->
  np_setslice l i j v = IOk l' -> length l' = length l.
Proof.
  intros Hi Hij Hj Hv. unfold np_setslice.
  rewrite (py_index_in _ i Hi), (py_index_in _ j) by lia.
  rewrite (Z.min_l i) by lia. rewrite (Z.min_l j) by lia.
  assert (Hv' : length (match v with [x] => repeat x (Z.to_nat (j - i)) | _ => v end)
                = Z.to_nat (j - i)).
  { destruct v as [|x [|y v']]; [exact Hv| |exact Hv].
    rewrite repeat_length. reflexivity. }
  rewrite Hv', Nat.eqb_refl. intros H. injection H as <-.
  rewrite !length_app, Hv', length_firstn, length_skipn. lia.
Qed.

Section StepValuesProofs.

Variable get_growth_values : growth_kwargs -> iresult (list Q).
Hypothesis growth_values_length : forall kw l, get_growth_values kw = IOk l ->
  Z.of_nat (length l) = gk_num_values kw.

Lemma daily_step_length (ad : sv_details) (n : Z) (dl : Q) (i d d' : Z) (sv sv' : list Q) :
  Z.of_nat (length sv) = n -> (0 <= i < n)%Z -> (0 < d)%Z ->
  daily_step get_growth_values ad n dl i d sv = IOk (d', sv') ->
  Z.of_nat (length sv') = n /\ (0 < d')%Z.
Proof.
  intros Hn Hi Hd H. unfold daily_step in H.
  destruct (np_slice sv i (i + d)) as [|x xs]; [discriminate H|].
  set (d1 := if (n <? i + d)%Z then (n - i)%Z else d) in H.
  assert (Hd1 : (0 < d1 <= n - i)%Z).
  { subst d1. destruct (Z.ltb_spec n (i + d)); lia. }
  match type of H with
  | (let '(_, _) := ?sm in _) = _ => destruct sm as [scale max_value]
  end.
  match type of H with
  | ibind ?vm _ = _ => destruct vm as [vals|e] eqn:Hvals; cbn [ibind] in H; [|discriminate H]
  end.
  assert (Hlv : length vals = Z.to_nat d1).
  { destruct (Qeq_bool _ _).
    - destruct (np_ones_times_ok _ _ _ Hvals) as [_ ->]. apply repeat_length.
    - apply growth_values_length in Hvals. cbn [gk_num_values] in Hvals. lia. }
  destruct (np_setslice sv i (i + d1) vals) as [sv1|e] eqn:Hset; cbn [ibind] in H;
    [|discriminate H].
  injection H as <- <-. split; [|lia].
  rewrite (np_setslice_length sv i (i + d1) vals sv1); [exact Hn|lia|lia|lia| |exact Hset].
  rewrite Hlv. f_equal. lia.
Qed.

Lemma daily_loop_length (ad : sv_details) (n : Z) (dl : Q) (is : list Z) (d : Z)
    (sv sv' : list Q) :
  Z.of_nat (length sv) = n -> (0 < d)%Z -> Forall (fun i => 0 <= i < n)%Z is ->
  daily_loop get_growth_values ad n dl is d sv = IOk sv' -> Z.of_nat (length sv') = n.
Proof.
  revert d sv. induction is as [|i is IH]; intros d sv Hn Hd Hall H.
  - cbn [daily_loop] in H. injection H as <-. exact Hn.
  - apply Forall_cons in Hall as [Hi Hall]. cbn [daily_loop] in H.
    destruct (daily_step get_growth_values ad n dl i d sv) as [[d1 sv1]|e] eqn:Hs;
      cbn [ibind fst snd] in H; [|discriminate H].
    destruct (daily_step_length ad n dl i d d1 sv sv1 Hn Hi Hd Hs) as [Hn1 Hd1].
    exact (IH d1 sv1 Hn1 Hd1 Hall H).
Qed.

End StepValuesProofs.

Lemma py_range_pos (n step : Z) (is : list Z) :
  (0 < step)%Z -> py_range 0 n step = IOk is -> Forall (fun i => 0 <= i < n)%Z is.
Proof.
  intros Hs H. unfold py_range in H.
  rewrite (proj2 (Z.eqb_neq step 0)) in H by lia.
  rewrite (proj2 (Z.ltb_lt 0 step) Hs) in H. injection H as <-.
  apply Forall_forall. intros i Hin. apply list_elem_of_In, in_map_iff in Hin.
  destruct Hin as (k & <- & Hk). apply in_seq in Hk.
  destruct (Z.ltb_spec 0 n) as [Hn|Hn].
  - assert (Hc := Z.mul_div_le (n - 0 + step - 1) step Hs).
    set (c := ((n - 0 + step - 1) / step)%Z) in *.
    assert (Hk' : (Z.of_nat k < c)%Z).
    { destruct Hk as [_ Hk]. cbn [Nat.add] in Hk.
      apply Nat2Z.inj_lt in Hk. rewrite Z2Nat.id in Hk; [lia|].
      apply Z.div_pos; lia. }
    split; [nia|]. assert (Hkc : (0 <= (c - 1 - Z.of_nat k) * step)%Z) by (apply Z.mul_nonneg_nonneg; lia).
    nia.
  - cbn in Hk. lia.
Qed.

Lemma py_range_neg (n step : Z) (is : list Z) :
  (step < 0)%Z -> (0 <= n)%Z -> py_range 0 n step = IOk is -> is = [].
Proof.
  intros Hs Hn H. unfold py_range in H.
  rewrite (proj2 (Z.eqb_neq step 0)) in H by lia.
  rewrite (proj2 (Z.ltb_ge 0 step)) in H by lia.
  rewrite (proj2 (Z.ltb_ge n 0)) in H by lia. injection H as <-. reflexivity.
Qed.

(** When [growth_func.get_growth_values] returns as many values as it is
    asked for, [_calculate_step_values] returns exactly [n_steps] values;
    and with a daily growth curve it only succeeds when
    [int(day_length_hours)] is not 0 ([range] with step 0 raises). *)
Theorem step_values_length (get_growth_values : growth_kwargs -> iresult (list Q))
    (attrs : gmap string Q) (attr_details : gmap string sv_details) (attr : string)
    (n_steps : Z) (hours_per_step day_length_hours : Q) (l : list Q) :
  (forall kw vs, get_growth_values kw = IOk vs -> Z.of_nat (length vs) = gk_num_values kw) ->
  calculate_step_values get_growth_values attrs attr_details attr n_steps hours_per_step
    day_length_hours = IOk l ->
  Z.of_nat (length l) = n_steps /\
  (forall ad, attr_details !! attr = Some ad -> str_truthy (sd_daily_growth_type ad) = true ->
     py_int day_length_hours <> 0%Z).
Proof.
  intros Hg H. unfold calculate_step_values, getitem in H.
  destruct (attr_details !! attr) as [ad|] eqn:Had; cbn [lift ibind] in H; [|discriminate H].
  destruct (flow_multiplier (sd_flow_time ad) hours_per_step day_length_hours) as [m|e];
    cbn [ibind] in H; [|discriminate H].
  destruct (attrs !! attr) as [v|]; cbn [lift ibind] in H; [|discriminate H].
  match type of H with
  | ibind ?sm _ = _ => destruct sm as [sv|e] eqn:Hsv; cbn [ibind] in H; [|discriminate H]
  end.
  assert (Hlen : Z.of_nat (length sv) = n_steps).
  { destruct (str_truthy (sd_lifetime_growth_type ad)).
    - apply Hg in Hsv. exact Hsv.
    - destruct (np_ones_times_ok _ _ _ Hsv) as [Hn ->]. rewrite repeat_length. lia. }
  destruct (str_truthy (sd_daily_growth_type ad)) eqn:Hdt.
  - destruct (py_range 0 n_steps (py_int day_length_hours)) as [is|e] eqn:Hr;
      cbn [ibind] in H; [|discriminate H].
    assert (Hdl : py_int day_length_hours <> 0%Z).
    { intros Hz. unfold py_range in Hr. rewrite Hz in Hr. discriminate Hr. }
    split.
    + destruct (Z.ltb_spec 0 (py_int day_length_hours)) as [Hp|Hp].
      * exact (daily_loop_length get_growth_values Hg ad n_steps day_length_hours is _ sv l
                 Hlen Hp (py_range_pos _ _ _ Hp Hr) H).
      * rewrite (py_range_neg n_steps (py_int day_length_hours) is ltac:(lia) ltac:(lia) Hr) in H.
        cbn [daily_loop] in H. injection H as <-. exact Hlen.
    + intros ad' Had' _. exact Hdl.
  - injection H as <-. split; [exact Hlen|]. intros ad' Had' Hdt'. congruence.
Qed.


Lemma step_values_constant_total_witness :
  match calculate_step_values flat_growth (<["in_potable" := 3]> ∅)
          (<["in_potable" := potable_flow_details None None]> ∅) "in_potable" 24 1 24 with
  | IOk l =>
      (<["in_potable" := potable_flow_details None None]> ∅ : gmap string sv_details)
        !! "in_potable" = Some (potable_flow_details None None) /\
      (<["in_potable" := 3]> ∅ : gmap string Q) !! "in_potable" = Some 3 /\
      length l = Z.to_nat 24 /\
      qsum l == inject_Z 24 * 3 *
                  (if String.eqb (sd_flow_time (potable_flow_details None None)) "min" then 1 * 60
                   else if String.eqb (sd_flow_time (potable_flow_details None None)) "hour" then 1
                   else 1 / 24)
  | IRaise _ => False
  end.
Proof.
  destruct (calculate_step_values flat_growth (<["in_potable" := 3]> ∅)
          (<["in_potable" := potable_flow_details None None]> ∅) "in_potable" 24 1 24)
    as [l|e] eqn:E; [|vm_compute in E; discriminate E].
  split; [reflexivity|]. split; [reflexivity|].
  exact (step_values_constant_total flat_growth (<["in_potable" := 3]> ∅)
           (<["in_potable" := potable_flow_details None None]> ∅) "in_potable" 24 1 24
           (potable_flow_details None None) 3 l eq_refl eq_refl eq_refl eq_refl E).
Defined.

Lemma step_values_length_witness :
  match calculate_step_values flat_growth (<["in_potable" := 3]> ∅)
          (<["in_potable" := potable_flow_details (Some "sigmoid") (Some "norm")]> ∅)
          "in_potable" 30 1 24 with
  | IOk l =>
      (forall kw vs, flat_growth kw = IOk vs -> Z.of_nat (length vs) = gk_num_values kw) /\
      Z.of_nat (length l) = 30%Z /\
      (forall ad, (<["in_potable" := potable_flow_details (Some "sigmoid") (Some "norm")]> ∅
                   : gmap string sv_details) !! "in_potable" = Some ad ->
         str_truthy (sd_daily_growth_type ad) = true -> py_int 24 <> 0%Z)
  | IRaise _ => False
  end.
Proof.
  destruct (calculate_step_values flat_growth (<["in_potable" := 3]> ∅)
          (<["in_potable" := potable_flow_details (Some "sigmoid") (Some "norm")]> ∅)
          "in_potable" 30 1 24) as [l|e] eqn:E; [|vm_compute in E; discriminate E].
  assert (Hg : forall kw vs, flat_growth kw = IOk vs -> Z.of_nat (length vs) = gk_num_values kw).
  { intros kw vs H. unfold flat_growth in H.
    destruct (Z.ltb_spec (gk_num_values kw) 0) as [Hlt|Hge]; [discriminate H|].
    injection H as <-. rewrite repeat_length. lia. }
  split; [exact Hg|].
  exact (step_values_length flat_growth (<["in_potable" := 3]> ∅)
           (<["in_potable" := potable_flow_details (Some "sigmoid") (Some "norm")]> ∅)
           "in_potable" 30 1 24 l Hg E).
Defined.

(** ** GeneralAgent._init_currency_exchange *)

Lemma split_once_app (s p c : string) :
  split_once s = Some (p, c) -> s = String.append p (String "_" c).
Proof.
  revert p c. induction s as [|a s IH]; intros p c H; cbn [split_once] in H; [discriminate H|].
  destruct (Ascii.eqb a "_") eqn:E.
  - apply Ascii.eqb_eq in E. subst a. injection H as <- <-. reflexivity.
  - destruct (split_once s) as [[p' c']|] eqn:Hs; cbn [option_map fst snd] in H; [|discriminate H].
    injection H as <- <-. rewrite (IH p' c' eq_refl). reflexivity.
Qed.

Lemma sel_get_set (d : list (string * list string)) (k k' : string) (v : list string) :
  sel_get (sel_set d k v) k' = if String.eqb k' k then Some v else sel_get d k'.
Proof.
  induction d as [|[k0 v0] d IH]; cbn [sel_set sel_get].
  - destruct (String.eqb k' k); reflexivity.
  - destruct (String.eqb_spec k k0) as [<-|Hne]; cbn [sel_get].
    + destruct (String.eqb k' k); reflexivity.
    + destruct (String.eqb_spec k' k0) as [->|Hne'].
      * destruct (String.eqb_spec k0 k); [congruence|reflexivity].
      * exact IH.
Qed.

Lemma selected_set_selected (xs : exchange_state) (p p0 c c0 : string) (l : list string) :
  (p = "in" \/ p = "out") -> (p0 = "in" \/ p0 = "out") ->
  sel_get (selected (set_selected xs p0 c0 l) p) c =
  if String.eqb p p0 && String.eqb c c0 then Some l else sel_get (selected xs p) c.
Proof.
  intros Hp Hp0. unfold selected, set_selected.
  destruct Hp as [->| ->], Hp0 as [->| ->]; cbn -[sel_get sel_set];
    rewrite ?sel_get_set; reflexivity.
Qed.

Section ExchangeInitProofs.

Variable get_growth_values : growth_kwargs -> iresult (list Q).
Variable get_agents_by_type : string -> list (gmap string string).
Variable xi : exchange_inputs.

Lemma init_deprive_spec (fd : flow_init_details) (attr : string) (xs xs1 : exchange_state) :
  init_deprive xi fd attr xs = IOk xs1 ->
  (forall p, selected xs1 p = selected xs p) /\ xs_buffer xs1 = xs_buffer xs /\
  xs_step_values xs1 = xs_step_values xs /\
  (forall a v, xs_deprive xs !! a = Some v -> xs_deprive xs1 !! a = Some v) /\
  (forall a, a <> attr -> xs_deprive xs1 !! a = xs_deprive xs !! a) /\
  (xs_deprive xs !! attr = None -> q_truthy (fi_deprive_value fd) = true ->
   xs_deprive xs1 !! attr = Some (default 0 (fi_deprive_value fd) * inject_Z (xi_amount xi))).
Proof.
  unfold init_deprive. intros H.
  destruct (q_truthy (fi_deprive_value fd) && negb (bool_decide (is_Some (xs_deprive xs !! attr))))
    eqn:Hc.
  - destruct (fi_deprive_unit fd) as [u|]; cbn [lift ibind] in H; [|discriminate H].
    destruct (unit_multipliers (xi_day_length_hours xi)) as [ms|e]; cbn [lift ibind] in H;
      [|discriminate H].
    injection H as <-. cbn [set_deprive_delta xs_deprive xs_buffer xs_step_values].
    apply andb_prop in Hc as [_ Hn]. apply negb_true_iff, bool_decide_eq_false in Hn.
    split; [intros p; reflexivity|]. split; [reflexivity|]. split; [reflexivity|].
    split; [|split].
    + intros a v Ha. destruct (String.eqb_spec a attr) as [->|Hne].
      * exfalso. apply Hn. rewrite Ha. eexists; reflexivity.
      * rewrite lookup_insert_ne by congruence. exact Ha.
    + intros a Hne. apply lookup_insert_ne. congruence.
    + intros _ _. apply lookup_insert_eq.
  - injection H as <-. split; [intros p; reflexivity|]. split; [reflexivity|].
    split; [reflexivity|]. split; [intros a v Ha; exact Ha|]. split; [intros a _; reflexivity|].
    intros Hnone Ht. rewrite Ht, Hnone in Hc. discriminate Hc.
Qed.

Lemma init_buffer_spec (fd : flow_init_details) (attr : string) (xs : exchange_state) :
  (forall p, selected (init_buffer fd attr xs) p = selected xs p) /\
  xs_deprive (init_buffer fd attr xs) = xs_deprive xs /\
  xs_step_values (init_buffer fd attr xs) = xs_step_values xs /\
  (forall a v, xs_buffer xs !! a = Some v -> xs_buffer (init_buffer fd attr xs) !! a = Some v).
Proof.
  unfold init_buffer.
  destruct (q_truthy (fi_criteria_buffer fd) && negb (bool_decide (is_Some (xs_buffer xs !! attr))))
    eqn:Hc; [|split; [intros p; reflexivity|split; [reflexivity|split; [reflexivity|auto]]]].
  cbn [set_xs_buffer xs_deprive xs_step_values xs_buffer].
  apply andb_prop in Hc as [_ Hn]. apply negb_true_iff, bool_decide_eq_false in Hn.
  split; [intros p; reflexivity|]. split; [reflexivity|]. split; [reflexivity|].
  intros a v Ha. destruct (String.eqb_spec a attr) as [->|Hne].
  - exfalso. apply Hn. rewrite Ha. eexists; reflexivity.
  - rewrite lookup_insert_ne by congruence. exact Ha.
Qed.

Lemma init_step_values_spec (n : Z) (attr : string) (xs xs1 : exchange_state) :
  init_step_values get_growth_values xi n attr xs = IOk xs1 ->
  (forall p, selected xs1 p = selected xs p) /\ xs_deprive xs1 = xs_deprive xs /\
  xs_buffer xs1 = xs_buffer xs /\
  (forall a v, xs_step_values xs !! a = Some v -> xs_step_values xs1 !! a = Some v) /\
  is_Some (xs_step_values xs1 !! attr).
Proof.
  unfold init_step_values. intros H.
  destruct (bool_decide (is_Some (xs_step_values xs !! attr))) eqn:Hc.
  - injection H as <-. apply bool_decide_eq_true in Hc.
    split; [intros p; reflexivity|]. split; [reflexivity|]. split; [reflexivity|].
    split; [auto|exact Hc].
  - apply bool_decide_eq_false in Hc.
    destruct (calculate_step_values _ _ _ _ _ _ _) as [sv|e]; cbn [ibind] in H; [|discriminate H].
    injection H as <-. cbn [set_step_values xs_deprive xs_buffer xs_step_values].
    split; [intros p; reflexivity|]. split; [reflexivity|]. split; [reflexivity|].
    split; [|rewrite lookup_insert_eq; eexists; reflexivity].
    intros a v Ha. destruct (String.eqb_spec a attr) as [->|Hne].
    + exfalso. apply Hc. rewrite Ha. eexists; reflexivity.
    + rewrite lookup_insert_ne by congruence. exact Ha.
Qed.

Lemma check_storage_units_spec (currency attr_unit : string) (l : list string) :
  check_storage_units get_agents_by_type xi currency attr_unit l = IOk tt ->
  Forall (fun t => exists units,
            (if String.eqb t (xi_agent_type xi) then units = xi_units xi
             else hd_error (get_agents_by_type t) = Some units) /\
            units !! String.append "char_capacity_" currency = Some attr_unit) l.
Proof.
  induction l as [|t l IH]; intros H; [constructor|]. cbn [check_storage_units] in H.
  match type of H with
  | ibind ?um _ = _ => destruct um as [units|e] eqn:Hu; cbn [ibind] in H; [|discriminate H]
  end.
  unfold getitem in H.
  destruct (units !! String.append "char_capacity_" currency) as [su|] eqn:Hsu;
    cbn [lift ibind] in H; [|discriminate H].
  destruct (String.eqb_spec su attr_unit) as [<-|Hne]; [|discriminate H].
  constructor; [|exact (IH H)].
  exists units. split; [|exact Hsu].
  destruct (String.eqb t (xi_agent_type xi)).
  - injection Hu as <-. reflexivity.
  - destruct (get_agents_by_type t) as [|u r]; [discriminate Hu|]. injection Hu as <-. reflexivity.
Qed.

Lemma init_exchange_attr_spec (n : Z) (xs xs1 : exchange_state) (attr : string) :
  init_exchange_attr get_growth_values get_agents_by_type xi n xs attr = IOk xs1 ->
  (forall a v, xs_deprive xs !! a = Some v -> xs_deprive xs1 !! a = Some v) /\
  (forall a, a <> attr -> xs_deprive xs1 !! a = xs_deprive xs !! a) /\
  (forall a v, xs_buffer xs !! a = Some v -> xs_buffer xs1 !! a = Some v) /\
  (forall a v, xs_step_values xs !! a = Some v -> xs_step_values xs1 !! a = Some v) /\
  (forall p c, (p = "in" \/ p = "out") -> split_once attr <> Some (p, c) ->
     sel_get (selected xs1 p) c = sel_get (selected xs p) c) /\
  (forall p c, split_once attr = Some (p, c) -> (p = "in" \/ p = "out") ->
     (exists fd u bp l,
        xi_flow_details xi !! attr = Some fd /\ fi_flow_unit fd = Some u /\
        xi_connections xi !! p = Some bp /\ bp !! c = Some l /\ l <> [] /\
        sel_get (selected xs1 p) c = Some l /\
        Forall (fun t => exists units,
                  (if String.eqb t (xi_agent_type xi) then units = xi_units xi
                   else hd_error (get_agents_by_type t) = Some units) /\
                  units !! String.append "char_capacity_" c = Some u) l) /\
     is_Some (xs_step_values xs1 !! attr) /\
     (forall fd, xi_flow_details xi !! attr = Some fd ->
        xs_deprive xs !! attr = None -> q_truthy (fi_deprive_value fd) = true ->
        xs_deprive xs1 !! attr = Some (default 0 (fi_deprive_value fd) * inject_Z (xi_amount xi)))).
Proof.
  unfold init_exchange_attr. intros H.
  unfold split_prefix in H. destruct (split_once attr) as [[p0 c0]|] eqn:Hs;
    cbn [lift ibind fst snd] in H; [|discriminate H].
  destruct (negb (String.eqb p0 "in" || String.eqb p0 "out")) eqn:Hio.
  - injection H as <-.
    split; [auto|]. split; [auto|]. split; [auto|]. split; [auto|]. split; [auto|].
    intros p c Hpc Hp. injection Hpc as Hp1 Hc1. subst p c. exfalso.
    destruct Hp as [->| ->]; discriminate Hio.
  - assert (Hp0 : p0 = "in" \/ p0 = "out").
    { apply negb_false_iff, orb_true_iff in Hio.
      destruct Hio as [E|E]; apply String.eqb_eq in E; [left|right]; exact E. }
    match type of H with
    | ibind ?cm _ = _ => destruct cm as [cd|e]; cbn [ibind] in H; [|discriminate H]
    end.
    unfold getitem at 1 in H.
    destruct (xi_flow_details xi !! attr) as [fd|] eqn:Hfd; cbn [lift ibind] in H; [|discriminate H].
    destruct (fi_flow_unit fd) as [u|] eqn:Hu; cbn [lift ibind] in H; [|discriminate H].
    unfold getitem at 1 in H.
    destruct (xi_connections xi !! p0) as [bp|] eqn:Hbp; cbn [lift ibind] in H; [|discriminate H].
    unfold getitem in H.
    destruct (bp !! c0) as [l|] eqn:Hl; cbn [lift ibind] in H; [|discriminate H].
    destruct l as [|t ts] eqn:El; [discriminate H|]. rewrite <- El in *.
    destruct (check_storage_units get_agents_by_type xi c0 u l) as [[]|e] eqn:Hchk;
      cbn [ibind] in H; [|discriminate H].
    set (xs0 := set_selected (set_currency_dict (set_has_flows xs) cd) p0 c0 l) in H.
    destruct (init_deprive xi fd attr xs0) as [xs2|e] eqn:Hd; cbn [ibind] in H; [|discriminate H].
    destruct (init_deprive_spec _ _ _ _ Hd) as (Hd1 & Hd2 & Hd3 & Hd4 & Hd5 & Hd6).
    destruct (init_buffer_spec fd attr xs2) as (Hb1 & Hb2 & Hb3 & Hb4).
    destruct (init_step_values_spec _ _ _ _ H) as (Hs1 & Hs2 & Hs3 & Hs4 & Hs5).
    assert (Hx0d : xs_deprive xs0 = xs_deprive xs)
      by (subst xs0; unfold set_selected; destruct (String.eqb p0 "in"); reflexivity).
    assert (Hx0b : xs_buffer xs0 = xs_buffer xs)
      by (subst xs0; unfold set_selected; destruct (String.eqb p0 "in"); reflexivity).
    assert (Hx0s : xs_step_values xs0 = xs_step_values xs)
      by (subst xs0; unfold set_selected; destruct (String.eqb p0 "in"); reflexivity).
    assert (Hsel : forall p c, (p = "in" \/ p = "out") ->
              sel_get (selected xs1 p) c = sel_get (selected xs0 p) c).
    { intros p c _. rewrite Hs1, Hb1, Hd1. reflexivity. }
    assert (Hsel0 : forall p c, (p = "in" \/ p = "out") ->
              sel_get (selected xs0 p) c =
              if String.eqb p p0 && String.eqb c c0 then Some l
              else sel_get (selected xs p) c).
    { intros p c Hp. subst xs0. rewrite selected_set_selected by assumption.
      destruct (String.eqb p p0 && String.eqb c c0); [reflexivity|].
      unfold selected, set_currency_dict, set_has_flows. destruct (String.eqb p "in"); reflexivity. }
    split; [|split; [|split; [|split; [|split]]]].
    + intros a v Ha. rewrite Hs2, Hb2. apply Hd4. rewrite Hx0d. exact Ha.
    + intros a Hne. rewrite Hs2, Hb2, Hd5 by exact Hne. exact (f_equal (fun m => m !! a) Hx0d).
    + intros a v Ha. rewrite Hs3. apply Hb4. rewrite Hd2, Hx0b. exact Ha.
    + intros a v Ha. apply Hs4. rewrite Hb3, Hd3, Hx0s. exact Ha.
    + intros p c Hp Hne. rewrite Hsel, Hsel0 by exact Hp.
      destruct (String.eqb_spec p p0) as [->|]; destruct (String.eqb_spec c c0) as [->|];
        cbn [andb]; [congruence|reflexivity|reflexivity|reflexivity].
    + intros p c Hpc Hp. injection Hpc as Hp1 Hc1. subst p c. split; [|split].
      * exists fd, u, bp, l. split; [first [exact Hfd|reflexivity]|]. split; [exact Hu|]. split; [exact Hbp|].
        split; [exact Hl|]. split; [rewrite El; discriminate|]. split.
        -- rewrite Hsel, Hsel0 by exact Hp. rewrite !String.eqb_refl. reflexivity.
        -- exact (check_storage_units_spec _ _ _ Hchk).
      * exact Hs5.
      * intros fd' Hfd' Hnone Ht. try rewrite Hfd in Hfd'. injection Hfd' as <-.
        rewrite Hs2, Hb2. apply Hd6; [rewrite Hx0d; exact Hnone|exact Ht].
Qed.

Lemma init_exchange_attr_split (n : Z) (xs xs1 : exchange_state) (attr : string) :
  init_exchange_attr get_growth_values get_agents_by_type xi n xs attr = IOk xs1 ->
  is_Some (split_once attr).
Proof.
  unfold init_exchange_attr, split_prefix. intros H.
  destruct (split_once attr); [eexists; reflexivity|discriminate H].
Qed.

Lemma init_exchange_loop_state (n : Z) (attrs : list string) (xs xs' : exchange_state) :
  init_exchange_loop get_growth_values get_agents_by_type xi n attrs xs = IOk xs' ->
  (forall attr, List.In attr attrs -> is_Some (split_once attr)) /\
  (forall a v, xs_deprive xs !! a = Some v -> xs_deprive xs' !! a = Some v) /\
  (forall a, ~ List.In a attrs -> xs_deprive xs' !! a = xs_deprive xs !! a) /\
  (forall a v, xs_buffer xs !! a = Some v -> xs_buffer xs' !! a = Some v) /\
  (forall a v, xs_step_values xs !! a = Some v -> xs_step_values xs' !! a = Some v) /\
  (forall attr p c, List.In attr attrs -> split_once attr = Some (p, c) ->
     (p = "in" \/ p = "out") ->
     is_Some (xs_step_values xs' !! attr) /\
     (forall fd, xi_flow_details xi !! attr = Some fd ->
        xs_deprive xs !! attr = None -> q_truthy (fi_deprive_value fd) = true ->
        xs_deprive xs' !! attr = Some (default 0 (fi_deprive_value fd) * inject_Z (xi_amount xi)))).
Proof.
  revert xs. induction attrs as [|a0 rest IH]; intros xs H.
  - cbn [init_exchange_loop] in H. injection H as <-.
    split; [intros attr []|]. split; [auto|]. split; [auto|]. split; [auto|]. split; [auto|].
    intros attr p c [].
  - cbn [init_exchange_loop] in H.
    destruct (init_exchange_attr get_growth_values get_agents_by_type xi n xs a0) as [xs1|e] eqn:H1;
      cbn [ibind] in H; [|discriminate H].
    pose proof (init_exchange_attr_split _ _ _ _ H1) as Hsp0.
    destruct (init_exchange_attr_spec _ _ _ _ H1) as (Ha1 & Ha2 & Ha3 & Ha4 & _ & Ha6).
    destruct (IH _ H) as (Hr0 & Hr1 & Hr2 & Hr3 & Hr4 & Hr5).
    split; [|split; [|split; [|split; [|split]]]].
    + intros attr [<-|Hin]; [exact Hsp0|exact (Hr0 attr Hin)].
    + intros a v Ha. exact (Hr1 a v (Ha1 a v Ha)).
    + intros a Hna. rewrite Hr2 by (intros Hin; exact (Hna (or_intror Hin))).
      apply Ha2. intros ->. exact (Hna (or_introl eq_refl)).
    + intros a v Ha. exact (Hr3 a v (Ha3 a v Ha)).
    + intros a v Ha. exact (Hr4 a v (Ha4 a v Ha)).
    + intros attr p c Hin Hs Hp.
      destruct (String.eqb_spec attr a0) as [->|Hne].
      * destruct (Ha6 p c Hs Hp) as (_ & Hsv & Hdep). split.
        -- destruct Hsv as [v Hv]. exists v. exact (Hr4 _ _ Hv).
        -- intros fd Hfd Hnone Ht. exact (Hr1 _ _ (Hdep fd Hfd Hnone Ht)).
      * destruct Hin as [Heq|Hin]; [congruence|].
        destruct (Hr5 attr p c Hin Hs Hp) as [Hsv Hdep]. split; [exact Hsv|].
        intros fd Hfd Hnone Ht. apply (Hdep fd Hfd); [|exact Ht].
        rewrite Ha2 by exact Hne. exact Hnone.
Qed.

Lemma init_exchange_loop_selected (n : Z) (attrs : list string) (xs xs' : exchange_state) :
  NoDup attrs ->
  init_exchange_loop get_growth_values get_agents_by_type xi n attrs xs = IOk xs' ->
  (forall p c, (p = "in" \/ p = "out") ->
     (forall attr, List.In attr attrs -> split_once attr <> Some (p, c)) ->
     sel_get (selected xs' p) c = sel_get (selected xs p) c) /\
  (forall attr p c, List.In attr attrs -> split_once attr = Some (p, c) ->
     (p = "in" \/ p = "out") ->
     exists fd u bp l,
       xi_flow_details xi !! attr = Some fd /\ fi_flow_unit fd = Some u /\
       xi_connections xi !! p = Some bp /\ bp !! c = Some l /\ l <> [] /\
       sel_get (selected xs' p) c = Some l /\
       Forall (fun t => exists units,
                 (if String.eqb t (xi_agent_type xi) then units = xi_units xi
                  else hd_error (get_agents_by_type t) = Some units) /\
                 units !! String.append "char_capacity_" c = Some u) l).
Proof.
  revert xs. induction attrs as [|a0 rest IH]; intros xs Hnd H.
  - cbn [init_exchange_loop] in H. injection H as <-. split; [auto|]. intros attr p c [].
  - apply NoDup_cons in Hnd as [Hnin Hnd]. rewrite list_elem_of_In in Hnin.
    cbn [init_exchange_loop] in H.
    destruct (init_exchange_attr get_growth_values get_agents_by_type xi n xs a0) as [xs1|e] eqn:H1;
      cbn [ibind] in H; [|discriminate H].
    destruct (init_exchange_attr_spec _ _ _ _ H1) as (_ & _ & _ & _ & Ha5 & Ha6).
    destruct (IH _ Hnd H) as [Hr1 Hr2]. split.
    + intros p c Hp Hno. rewrite Hr1 by (exact Hp || (intros attr Hin; exact (Hno attr (or_intror Hin)))).
      apply Ha5; [exact Hp|exact (Hno a0 (or_introl eq_refl))].
    + intros attr p c [<-|Hin] Hs Hp.
      * destruct (Ha6 p c Hs Hp) as [(fd & u & bp & l & F1 & F2 & F3 & F4 & F5 & F6 & F7) _].
        exists fd, u, bp, l. repeat (split; [assumption|]). split; [|exact F7].
        rewrite Hr1; [exact F6|exact Hp|].
        intros attr Hin Hs'. apply Hnin. rewrite (split_once_app _ _ _ Hs), (split_once_app _ _ _ Hs') in *.
        exact Hin.
      * exact (Hr2 attr p c Hin Hs Hp).
Qed.

End ExchangeInitProofs.

(** After a successful [_init_currency_exchange], every flow attribute
    [<in|out>_<currency>] of the agent has its storages selected:
    [selected_storage[prefix][currency]] is [connections[prefix][currency]],
    which is not empty, and the [char_capacity_<currency>] unit of each
    of these storages (the agent itself when it names the agent's own type,
    otherwise the first agent of that type in the model) is the flow's
    [flow_unit]. *)
Theorem init_currency_exchange_storages
    (get_growth_values : growth_kwargs -> iresult (list Q))
    (get_agents_by_type : string -> list (gmap string string)) (xi : exchange_inputs)
    (n_steps : option Z) (xs xs' : exchange_state) :
  NoDup (xi_attr_names xi) ->
  init_currency_exchange get_growth_values get_agents_by_type xi n_steps xs = IOk xs' ->
  forall attr prefix currency, List.In attr (xi_attr_names xi) ->
    split_once attr = Some (prefix, currency) -> (prefix = "in" \/ prefix = "out") ->
    exists fd unit bp l,
      xi_flow_details xi !! attr = Some fd /\ fi_flow_unit fd = Some unit /\
      xi_connections xi !! prefix = Some bp /\ bp !! currency = Some l /\ l <> [] /\
      sel_get (selected xs' prefix) currency = Some l /\
      Forall (fun t => exists units,
                (if String.eqb t (xi_agent_type xi) then units = xi_units xi
                 else hd_error (get_agents_by_type t) = Some units) /\
                units !! String.append "char_capacity_" currency = Some unit) l.
Proof.
  intros Hnd H attr prefix currency Hin Hs Hp. unfold init_currency_exchange in H.
  exact (proj2 (init_exchange_loop_selected _ _ _ _ _ _ _ Hnd H) attr prefix currency Hin Hs Hp).
Qed.

(** A successful [_init_currency_exchange] needs a ['_'] in every
    attribute name (the split raises [ValueError] otherwise); it keeps the
    entries already in [deprive], [buffer] and [step_values] (those of a
    saved agent); and it gives every flow attribute its step values, and a
    new [deprive] entry [deprive_value * amount] when it has a nonzero
    [deprive_value] and none yet. *)
Theorem init_currency_exchange_state
    (get_growth_values : growth_kwargs -> iresult (list Q))
    (get_agents_by_type : string -> list (gmap string string)) (xi : exchange_inputs)
    (n_steps : option Z) (xs xs' : exchange_state) :
  init_currency_exchange get_growth_values get_agents_by_type xi n_steps xs = IOk xs' ->
  (forall attr, List.In attr (xi_attr_names xi) -> is_Some (split_once attr)) /\
  (forall a v, xs_deprive xs !! a = Some v -> xs_deprive xs' !! a = Some v) /\
  (forall a v, xs_buffer xs !! a = Some v -> xs_buffer xs' !! a = Some v) /\
  (forall a v, xs_step_values xs !! a = Some v -> xs_step_values xs' !! a = Some v) /\
  (forall attr prefix currency, List.In attr (xi_attr_names xi) ->
     split_once attr = Some (prefix, currency) -> (prefix = "in" \/ prefix = "out") ->
     is_Some (xs_step_values xs' !! attr) /\
     (forall fd, xi_flow_details xi !! attr = Some fd ->
        xs_deprive xs !! attr = None -> q_truthy (fi_deprive_value fd) = true ->
        xs_deprive xs' !! attr = Some (default 0 (fi_deprive_value fd) * inject_Z (xi_amount xi)))).
Proof.
  intros H. unfold init_currency_exchange in H.
  destruct (init_exchange_loop_state _ _ _ _ _ _ _ H) as (H0 & H1 & _ & H3 & H4 & H5).
  split; [exact H0|]. split; [exact H1|]. split; [exact H3|]. split; [exact H4|]. exact H5.
Qed.


Lemma init_currency_exchange_storages_witness :
  match init_currency_exchange flat_growth water_storage_agents human_exchange_inputs None
          empty_exchange_state with
  | IOk xs' =>
      NoDup (xi_attr_names human_exchange_inputs) /\
      exists fd unit bp l,
        xi_flow_details human_exchange_inputs !! "in_potable" = Some fd /\
        fi_flow_unit fd = Some unit /\
        xi_connections human_exchange_inputs !! "in" = Some bp /\
        bp !! "potable" = Some l /\ l <> [] /\
        sel_get (selected xs' "in") "potable" = Some l /\
        Forall (fun t => exists units,
                  (if String.eqb t (xi_agent_type human_exchange_inputs)
                   then units = xi_units human_exchange_inputs
                   else hd_error (water_storage_agents t) = Some units) /\
                  units !! String.append "char_capacity_" "potable" = Some unit) l
  | IRaise _ => False
  end.
Proof.
  destruct (init_currency_exchange flat_growth water_storage_agents human_exchange_inputs None
          empty_exchange_state) as [xs'|e] eqn:E; [|vm_compute in E; discriminate E].
  assert (Hnd : NoDup (xi_attr_names human_exchange_inputs)).
  { cbn. repeat constructor; intros Hin; repeat (inversion Hin as [|? ? ? Hin']; subst; clear Hin; rename Hin' into Hin). }
  split; [exact Hnd|].
  exact (init_currency_exchange_storages flat_growth water_storage_agents human_exchange_inputs
           None empty_exchange_state xs' Hnd E "in_potable" "in" "potable"
           (or_introl eq_refl) eq_refl (or_introl eq_refl)).
Defined.

Lemma init_currency_exchange_state_witness :
  match init_currency_exchange flat_growth water_storage_agents human_exchange_inputs None
          empty_exchange_state with
  | IOk xs' =>
      is_Some (xs_step_values xs' !! "in_potable") /\
      xs_deprive xs' !! "in_potable" = Some (3 * inject_Z 2)
  | IRaise _ => False
  end.
Proof.
  destruct (init_currency_exchange flat_growth water_storage_agents human_exchange_inputs None
          empty_exchange_state) as [xs'|e] eqn:E; [|vm_compute in E; discriminate E].
  destruct (init_currency_exchange_state flat_growth water_storage_agents human_exchange_inputs
              None empty_exchange_state xs' E) as (_ & _ & _ & _ & H5).
  destruct (H5 "in_potable" "in" "potable" (or_introl eq_refl) eq_refl (or_introl eq_refl))
    as [Hs Hd].
  split; [exact Hs|].
  exact (Hd (mkFlowInitDetails (Some "kg") (Some 3) (Some "day") None) eq_refl eq_refl eq_refl).
Defined.


(** ** PlantAgent._init_currency_exchange *)

Section ExchangeStepValuesProofs.

Variable get_growth_values : growth_kwargs -> iresult (list Q).
Variable get_agents_by_type : string -> list (gmap string string).
Variable xi : exchange_inputs.

Local Abbreviation calc attr n :=
  (calculate_step_values get_growth_values (xi_attrs xi) (xi_sv_details xi) attr n
     (xi_hours_per_step xi) (xi_day_length_hours xi)).

Lemma init_step_values_frame (n : Z) (attr : string) (xs xs1 : exchange_state) :
  init_step_values get_growth_values xi n attr xs = IOk xs1 ->
  (forall a, a <> attr -> xs_step_values xs1 !! a = xs_step_values xs !! a) /\
  (xs_step_values xs !! attr = None ->
   exists sv, calc attr n = IOk sv /\ xs_step_values xs1 !! attr = Some sv).
Proof.
  unfold init_step_values. intros H.
  destruct (bool_decide (is_Some (xs_step_values xs !! attr))) eqn:Hc.
  - injection H as <-. apply bool_decide_eq_true in Hc. split; [reflexivity|].
    intros Hn. rewrite Hn in Hc. destruct Hc as [? Hc]. discriminate Hc.
  - destruct (calc attr n) as [sv|e] eqn:Hsv; cbn [ibind] in H; [|discriminate H].
    injection H as <-. cbn [set_step_values xs_step_values]. split.
    + intros a Hne. apply lookup_insert_ne. congruence.
    + intros _. exists sv. split; [reflexivity|apply lookup_insert_eq].
Qed.

Lemma init_exchange_attr_step_values (n : Z) (xs xs1 : exchange_state) (attr : string) :
  init_exchange_attr get_growth_values get_agents_by_type xi n xs attr = IOk xs1 ->
  (forall a, a <> attr -> xs_step_values xs1 !! a = xs_step_values xs !! a) /\
  (is_flow_attr attr = true -> xs_step_values xs !! attr = None ->
   exists sv, calc attr n = IOk sv /\ xs_step_values xs1 !! attr = Some sv).
Proof.
  unfold init_exchange_attr, is_flow_attr. intros H.
  unfold split_prefix in H. destruct (split_once attr) as [[p0 c0]|] eqn:Hs;
    cbn [lift ibind fst snd] in H; [|discriminate H].
  destruct (negb (String.eqb p0 "in" || String.eqb p0 "out")) eqn:Hio.
  - injection H as <-. split; [reflexivity|]. intros Hf.
    rewrite Hf in Hio. discriminate Hio.
  - match type of H with
    | ibind ?cm _ = _ => destruct cm as [cd|e]; cbn [ibind] in H; [|discriminate H]
    end.
    unfold getitem at 1 in H.
    destruct (xi_flow_details xi !! attr) as [fd|]; cbn [lift ibind] in H; [|discriminate H].
    destruct (fi_flow_unit fd) as [u|]; cbn [lift ibind] in H; [|discriminate H].
    unfold getitem at 1 in H.
    destruct (xi_connections xi !! p0) as [bp|]; cbn [lift ibind] in H; [|discriminate H].
    unfold getitem in H.
    destruct (bp !! c0) as [l|]; cbn [lift ibind] in H; [|discriminate H].
    destruct l as [|t ts] eqn:El; [discriminate H|]. rewrite <- El in *.
    destruct (check_storage_units get_agents_by_type xi c0 u l) as [[]|e];
      cbn [ibind] in H; [|discriminate H].
    set (xs0 := set_selected (set_currency_dict (set_has_flows xs) cd) p0 c0 l) in H.
    destruct (init_deprive xi fd attr xs0) as [xs2|e] eqn:Hd; cbn [ibind] in H; [|discriminate H].
    destruct (init_deprive_spec _ _ _ _ _ Hd) as (_ & _ & Hd3 & _).
    destruct (init_buffer_spec fd attr xs2) as (_ & _ & Hb3 & _).
    destruct (init_step_values_frame _ _ _ _ H) as [Hs1 Hs2].
    assert (Hx0s : xs_step_values xs0 = xs_step_values xs)
      by (subst xs0; unfold set_selected; destruct (String.eqb p0 "in"); reflexivity).
    split.
    + intros a Hne. rewrite Hs1 by exact Hne. rewrite Hb3, Hd3, Hx0s. reflexivity.
    + intros _ Hn. apply Hs2. rewrite Hb3, Hd3, Hx0s. exact Hn.
Qed.

Lemma init_exchange_loop_step_values (n : Z) (attrs : list string) (xs xs' : exchange_state)
    (attr : string) :
  init_exchange_loop get_growth_values get_agents_by_type xi n attrs xs = IOk xs' ->
  List.In attr attrs -> is_flow_attr attr = true -> xs_step_values xs !! attr = None ->
  exists sv, calc attr n = IOk sv /\ xs_step_values xs' !! attr = Some sv.
Proof.
  revert xs. induction attrs as [|a0 rest IH]; intros xs H Hin Hf Hn; [destruct Hin|].
  cbn [init_exchange_loop] in H.
  destruct (init_exchange_attr get_growth_values get_agents_by_type xi n xs a0) as [xs1|e] eqn:H1;
    cbn [ibind] in H; [|discriminate H].
  destruct (init_exchange_attr_step_values _ _ _ _ H1) as [Hfr Hset].
  destruct (String.eqb_spec a0 attr) as [<-|Hne].
  - destruct (Hset Hf Hn) as (sv & Hsv & H1sv).
    destruct (init_exchange_loop_state _ _ _ _ _ _ _ H) as (_ & _ & _ & _ & Hkeep & _).
    exists sv. split; [exact Hsv|exact (Hkeep _ _ H1sv)].
  - destruct Hin as [Heq|Hin]; [congruence|].
    apply (IH xs1 H Hin Hf). rewrite Hfr by congruence. exact Hn.
Qed.

End ExchangeStepValuesProofs.

Lemma co2_scale_loop_spec (attrs : list string) (co2 co2' : gmap string Q) :
  co2_scale_loop attrs co2 = IOk co2' ->
  (forall a, List.In a attrs -> is_flow_attr a = true -> co2' !! a = Some 1) /\
  (forall a, (List.In a attrs -> is_flow_attr a = false) -> co2' !! a = co2 !! a).
Proof.
  revert co2. induction attrs as [|a0 rest IH]; intros co2 H.
  - cbn [co2_scale_loop] in H. injection H as <-. split; [intros a []|reflexivity].
  - cbn [co2_scale_loop] in H. unfold split_prefix in H.
    destruct (split_once a0) as [[p0 c0]|] eqn:Hs; cbn [lift ibind fst] in H; [|discriminate H].
    destruct (IH _ H) as [Hr1 Hr2].
    assert (Hf0 : is_flow_attr a0 = (String.eqb p0 "in" || String.eqb p0 "out"))
      by (unfold is_flow_attr; rewrite Hs; reflexivity).
    split.
    + intros a [<-|Hin] Hf; [|exact (Hr1 a Hin Hf)].
      destruct (List.In_dec string_dec a0 rest) as [Hin|Hnin]; [exact (Hr1 a0 Hin Hf)|].
      rewrite Hr2 by (intros Hin; contradiction). rewrite <- Hf0, Hf. apply lookup_insert_eq.
    + intros a Hno. rewrite Hr2 by (intros Hin; exact (Hno (or_intror Hin))).
      destruct (is_flow_attr a0) eqn:Ha0; rewrite <- Hf0; [|reflexivity].
      destruct (String.eqb_spec a0 a) as [<-|Hne].
      * rewrite (Hno (or_introl eq_refl)) in Ha0. discriminate Ha0.
      * apply lookup_insert_ne. exact Hne.
Qed.

(** After a successful [PlantAgent._init_currency_exchange],
    [co2_scale] has the entry 1 for every [in_]/[out_] attribute of the
    plant and no entry for any other name. *)
Theorem plant_co2_scale_flows (get_growth_values : growth_kwargs -> iresult (list Q))
    (get_agents_by_type : string -> list (gmap string string)) (xi : exchange_inputs)
    (lifetime : Q) (growth_criteria : option string) (total_growth : Q)
    (xs xs' : exchange_state) (total_growth' : Q) (co2_scale : gmap string Q) :
  plant_init_currency_exchange get_growth_values get_agents_by_type xi lifetime growth_criteria
    total_growth xs = IOk (xs', total_growth', co2_scale) ->
  (forall a, List.In a (xi_attr_names xi) -> is_flow_attr a = true -> co2_scale !! a = Some 1) /\
  (forall a, (List.In a (xi_attr_names xi) -> is_flow_attr a = false) -> co2_scale !! a = None).
Proof.
  unfold plant_init_currency_exchange. intros H.
  destruct (init_currency_exchange _ _ _ _ _) as [xs1|e]; cbn [ibind] in H; [|discriminate H].
  match type of H with
  | ibind ?tm _ = _ => destruct tm as [tg|e]; cbn [ibind] in H; [|discriminate H]
  end.
  destruct (co2_scale_loop (xi_attr_names xi) ∅) as [co2|e] eqn:Hc; cbn [ibind] in H;
    [|discriminate H].
  injection H as _ _ <-.
  destruct (co2_scale_loop_spec _ _ _ Hc) as [H1 H2]. split; [exact H1|].
  intros a Ha. rewrite (H2 a Ha). apply lookup_empty.
Qed.

(** When the plant's [growth_criteria] is one of its flow attributes with
    a constant flow (no lifetime or daily growth type) and no step values
    yet, and [total_growth] is 0, [PlantAgent._init_currency_exchange]
    computes [n] step values for it, where [n] is [int(lifetime)], or
    [int(day_length_hours)] when that is 0.  It sets [total_growth] to
    their sum: [n] times the flow's value scaled to one step. *)
Theorem plant_init_total_growth (get_growth_values : growth_kwargs -> iresult (list Q))
    (get_agents_by_type : string -> list (gmap string string)) (xi : exchange_inputs)
    (lifetime : Q) (gc : string) (xs xs' : exchange_state) (total_growth : Q)
    (co2_scale : gmap string Q) (ad : sv_details) (v : Q) :
  plant_init_currency_exchange get_growth_values get_agents_by_type xi lifetime (Some gc) 0 xs
    = IOk (xs', total_growth, co2_scale) ->
  List.In gc (xi_attr_names xi) -> is_flow_attr gc = true -> xs_step_values xs !! gc = None ->
  xi_sv_details xi !! gc = Some ad -> xi_attrs xi !! gc = Some v ->
  str_truthy (sd_lifetime_growth_type ad) = false ->
  str_truthy (sd_daily_growth_type ad) = false ->
  let n := if (py_int lifetime =? 0)%Z then py_int (xi_day_length_hours xi) else py_int lifetime in
  exists sv, xs_step_values xs' !! gc = Some sv /\ length sv = Z.to_nat n /\
    total_growth == inject_Z n * v *
      (if String.eqb (sd_flow_time ad) "min" then xi_hours_per_step xi * 60
       else if String.eqb (sd_flow_time ad) "hour" then xi_hours_per_step xi
       else xi_hours_per_step xi / xi_day_length_hours xi).
Proof.
  intros H Hin Hf Hn Had Hv Hlt Hdt n. unfold plant_init_currency_exchange in H.
  destruct (init_currency_exchange get_growth_values get_agents_by_type xi (Some (py_int lifetime)) xs)
    as [xs1|e] eqn:Hx; cbn [ibind] in H; [|discriminate H].
  unfold init_currency_exchange in Hx.
  destruct (init_exchange_loop_step_values _ _ _ _ _ _ _ _ Hx Hin Hf Hn) as (sv & Hsv & H1sv).
  assert (Hgc : str_truthy (Some gc) = true).
  { unfold is_flow_attr in Hf. unfold str_truthy. destruct (String.eqb_spec gc "") as [->|];
      [discriminate Hf|reflexivity]. }
  rewrite Hgc in H. change (Qeq_bool 0 0) with true in H. cbn [andb default id] in H.
  unfold getitem in H. rewrite H1sv in H. cbn [lift ibind] in H.
  destruct (co2_scale_loop (xi_attr_names xi) ∅) as [co2|e]; cbn [ibind] in H; [|discriminate H].
  injection H as <- <- _.
  destruct (calculate_step_values_constant _ _ _ _ _ _ _ _ _ _ Had Hv Hlt Hdt Hsv) as [Hl Hq].
  exists sv. split; [exact H1sv|]. split; [exact Hl|exact Hq].
Qed.


Lemma plant_co2_scale_flows_witness :
  match plant_init_currency_exchange flat_growth greenhouse_agents lettuce_exchange_inputs 0
          (Some "in_co2") 0 empty_exchange_state with
  | IOk (xs', tg, co2) => co2 !! "in_co2" = Some 1 /\ co2 !! "char_lifetime" = None
  | IRaise _ => False
  end.
Proof.
  destruct (plant_init_currency_exchange flat_growth greenhouse_agents lettuce_exchange_inputs 0
          (Some "in_co2") 0 empty_exchange_state) as [[[xs' tg] co2]|e] eqn:E;
    [|vm_compute in E; discriminate E].
  destruct (plant_co2_scale_flows flat_growth greenhouse_agents lettuce_exchange_inputs 0
              (Some "in_co2") 0 empty_exchange_state xs' tg co2 E) as [H1 H2].
  split.
  - exact (H1 "in_co2" (or_introl eq_refl) eq_refl).
  - apply H2. intros _. reflexivity.
Defined.

Lemma plant_init_total_growth_witness :
  match plant_init_currency_exchange flat_growth greenhouse_agents lettuce_exchange_inputs 0
          (Some "in_co2") 0 empty_exchange_state with
  | IOk (xs', tg, co2) =>
      exists sv, xs_step_values xs' !! "in_co2" = Some sv /\ length sv = Z.to_nat 24 /\
        tg == inject_Z 24 * 2 * 1
  | IRaise _ => False
  end.
Proof.
  destruct (plant_init_currency_exchange flat_growth greenhouse_agents lettuce_exchange_inputs 0
          (Some "in_co2") 0 empty_exchange_state) as [[[xs' tg] co2]|e] eqn:E;
    [|vm_compute in E; discriminate E].
  exact (plant_init_total_growth flat_growth greenhouse_agents lettuce_exchange_inputs 0 "in_co2"
           empty_exchange_state xs' tg co2 co2_flow_details 2 E (or_introl eq_refl) eq_refl
           eq_refl eq_refl eq_refl eq_refl eq_refl).
Defined.


(** ** BaseAgent._init_variation *)

Lemma existsb_eqb_notin (a : string) (l : list string) :
  ~ List.In a l -> existsb (String.eqb a) l = false.
Proof.
  induction l as [|b l IH]; intros Hn; [reflexivity|]. cbn [existsb].
  destruct (String.eqb_spec a b) as [->|Hne]; [exfalso; exact (Hn (or_introl eq_refl))|].
  apply IH. intros Hin. exact (Hn (or_intror Hin)).
Qed.

Lemma is_varied_split (chars : list string) (a p f : string) :
  split_once a = Some (p, f) -> is_varied chars a = varied chars p f.
Proof. intros Hs. unfold is_varied. rewrite Hs. reflexivity. Qed.

Lemma scale_loop_spec (chars : list string) (v : Q) (names : list string)
    (attrs attrs' : gmap string Q) :
  NoDup names -> scale_loop chars v names attrs = IOk attrs' ->
  forall a, attrs' !! a =
    if existsb (String.eqb a) names && is_varied chars a
    then option_map (fun x => x * v) (attrs !! a) else attrs !! a.
Proof.
  revert attrs. induction names as [|a0 rest IH]; intros attrs Hnd H a.
  - cbn [scale_loop] in H. injection H as <-. reflexivity.
  - apply NoDup_cons in Hnd as [Hnin Hnd]. rewrite list_elem_of_In in Hnin.
    cbn [scale_loop] in H. unfold split_prefix in H.
    destruct (split_once a0) as [[p0 f0]|] eqn:Hs; cbn [lift ibind fst snd] in H; [|discriminate H].
    cbn [existsb]. rewrite <- (is_varied_split chars a0 p0 f0 Hs) in H.
    destruct (is_varied chars a0) eqn:Hv0.
    + unfold getitem in H. destruct (attrs !! a0) as [x0|] eqn:Hx0; cbn [lift ibind] in H;
        [|discriminate H].
      rewrite (IH _ Hnd H a).
      destruct (String.eqb_spec a a0) as [->|Hne].
      * rewrite (existsb_eqb_notin _ _ Hnin), Hv0, Hx0. cbn. apply lookup_insert_eq.
      * cbn [orb]. rewrite lookup_insert_ne by congruence. reflexivity.
    + rewrite (IH _ Hnd H a).
      destruct (String.eqb_spec a a0) as [->|Hne].
      * rewrite (existsb_eqb_notin _ _ Hnin), Hv0. reflexivity.
      * reflexivity.
Qed.

Lemma interp_loop_spec (chars : list string) (x : Q) (y_ref : var_bound) (names : list string)
    (attrs attrs' : gmap string Q) :
  NoDup names -> interp_loop chars x y_ref names attrs = IOk attrs' ->
  forall a,
    if existsb (String.eqb a) names && is_varied chars a then
      exists p f d y x0, split_once a = Some (p, f) /\ y_ref = VDict d /\ d !! f = Some y /\
        attrs !! a = Some x0 /\ attrs' !! a = Some (np_interp01 x x0 y)
    else attrs' !! a = attrs !! a.
Proof.
  revert attrs. induction names as [|a0 rest IH]; intros attrs Hnd H a.
  - cbn [interp_loop] in H. injection H as <-. reflexivity.
  - apply NoDup_cons in Hnd as [Hnin Hnd]. rewrite list_elem_of_In in Hnin.
    cbn [interp_loop] in H. unfold split_prefix in H.
    destruct (split_once a0) as [[p0 f0]|] eqn:Hs; cbn [lift ibind fst snd] in H; [|discriminate H].
    cbn [existsb]. rewrite <- (is_varied_split chars a0 p0 f0 Hs) in H.
    destruct (is_varied chars a0) eqn:Hv0.
    + destruct y_ref as [c|d]; cbn [ibind] in H; [discriminate H|].
      destruct (d !! f0) as [y|] eqn:Hy; cbn [ibind] in H; [|discriminate H].
      unfold getitem in H. destruct (attrs !! a0) as [x0|] eqn:Hx0; cbn [lift ibind] in H;
        [|discriminate H].
      pose proof (IH _ Hnd H a) as IHa.
      destruct (String.eqb_spec a a0) as [->|Hne].
      * rewrite (existsb_eqb_notin _ _ Hnin), Hv0 in IHa. cbn [andb orb] in IHa |- *.
        rewrite Hv0. exists p0, f0, d, y, x0.
        split; [exact Hs|]. split; [reflexivity|]. split; [exact Hy|]. split; [exact Hx0|].
        rewrite IHa. apply lookup_insert_eq.
      * cbn [orb]. destruct (existsb (String.eqb a) rest && is_varied chars a).
        -- destruct IHa as (p & f & d' & y' & x1 & H1 & H2 & H3 & H4 & H5).
           exists p, f, d', y', x1. rewrite lookup_insert_ne in H4 by congruence.
           repeat (split; [assumption|]). exact H5.
        -- rewrite IHa. apply lookup_insert_ne. congruence.
    + pose proof (IH _ Hnd H a) as IHa.
      destruct (String.eqb_spec a a0) as [->|Hne].
      * rewrite (existsb_eqb_notin _ _ Hnin), Hv0 in IHa. rewrite Hv0. exact IHa.
      * exact IHa.
Qed.

Lemma np_interp01_between (x a b : Q) :
  0 <= x -> Qmin a b <= np_interp01 x a b <= Qmax a b.
Proof.
  intros Hx. unfold np_interp01.
  destruct (Qle_bool x 0) eqn:H0; [split; [apply Q.le_min_l|apply Q.le_max_l]|].
  destruct (Qle_bool 1 x) eqn:H1; [split; [apply Q.le_min_r|apply Q.le_max_r]|].
  assert (Hx0 : ~ x <= 0) by (intros Hc; apply Qle_bool_iff in Hc; congruence).
  assert (Hx1 : ~ 1 <= x) by (intros Hc; apply Qle_bool_iff in Hc; congruence).
  apply Qnot_le_lt in Hx0, Hx1.
  destruct (Q.min_spec a b) as [[Hab ->]|[Hab ->]];
    destruct (Q.max_spec a b) as [[Hab' ->]|[Hab' ->]]; nra.
Qed.

Lemma existsb_eqb_in (a : string) (l : list string) :
  List.In a l -> existsb (String.eqb a) l = true.
Proof.
  intros Hin. apply existsb_exists. exists a. split; [exact Hin|apply String.eqb_refl].
Qed.

(** With scalar bounds, [_init_variation] draws [initial_variable]
    between [upper * global_entropy] and [lower * global_entropy] and
    multiplies every [in_]/[out_] attribute and every listed
    characteristic by it, leaving the other attributes alone.  A step
    variation, when configured, is stored with its bounds times
    [global_entropy], and [step_variable] is set to 1. *)
Theorem init_variation_scalar {rng : Type}
    (get_variable : rng -> Q -> Q -> option string -> option Q -> Q * rng)
    (ge : Q) (names : list string) (ivs : initial_variation) (up lo : Q)
    (sv : option step_variation_spec) (st st' : variation_state) (r r' : rng) :
  NoDup names -> iv_upper ivs = VScalar up -> iv_lower ivs = VScalar lo ->
  init_variation get_variable ge names (Some ivs) sv st r = IOk (st', r') ->
  let v := fst (get_variable r (up * ge) (lo * ge) (iv_distribution ivs) (iv_stdev_range ivs)) in
  vst_initial_variable st' = Some v /\
  (forall a, vst_attrs st' !! a =
     if existsb (String.eqb a) names && is_varied (iv_characteristics ivs) a
     then option_map (fun x => x * v) (vst_attrs st !! a) else vst_attrs st !! a) /\
  vst_step_variation st' =
    match sv with
    | Some s => Some (Some (mkStepVariationSpec (ge * svs_upper s) (ge * svs_lower s)
                             (svs_distribution s)))
    | None => vst_step_variation st
    end /\
  vst_step_variable st' = match sv with Some _ => Some 1 | None => vst_step_variable st end.
Proof.
  intros Hnd Hup Hlo H v. unfold init_variation in H. rewrite Hup, Hlo in H.
  subst v. destruct (get_variable r (up * ge) (lo * ge) (iv_distribution ivs) (iv_stdev_range ivs))
    as [v r1] eqn:Hg. cbn [fst].
  destruct (scale_loop (iv_characteristics ivs) v names (vst_attrs (set_initial_variable st v)))
    as [attrs|e] eqn:Hs; cbn [ibind] in H; [|discriminate H].
  pose proof (scale_loop_spec _ _ _ _ _ Hnd Hs) as Ha. cbn [vst_attrs set_initial_variable] in Ha.
  destruct sv as [s|]; injection H as <- <-; cbn.
  - split; [reflexivity|]. split; [exact Ha|]. split; reflexivity.
  - split; [reflexivity|]. split; [exact Ha|]. split; reflexivity.
Qed.

(** With per-currency bounds and a draw [initial_variable] other than 1,
    [_init_variation] moves each [in_]/[out_] attribute and listed
    characteristic from its value toward its bound for that currency
    ([lower] for a draw below 1, [upper] above), by the fraction
    [|initial_variable - 1|] ([np.interp]): the new value is
    [np.interp(|v - 1|, [0, 1], [x0, y])] for the old value [x0] and the
    bound [y], which is [x0 + |v - 1| * (y - x0)] for a fraction below 1
    and the bound once the fraction reaches 1, so it lies between the old
    value and the bound.  The other attributes are left alone, and the step
    variation is set as with scalar bounds. *)
Theorem init_variation_interp {rng : Type}
    (get_variable : rng -> Q -> Q -> option string -> option Q -> Q * rng)
    (ge : Q) (names : list string) (ivs : initial_variation) (v : Q)
    (sv : option step_variation_spec) (st st' : variation_state) (r r1 r' : rng) :
  NoDup names ->
  match iv_upper ivs, iv_lower ivs with VScalar _, VScalar _ => False | _, _ => True end ->
  get_variable r ge ge (iv_distribution ivs) (iv_stdev_range ivs) = (v, r1) -> ~ v == 1 ->
  init_variation get_variable ge names (Some ivs) sv st r = IOk (st', r') ->
  vst_initial_variable st' = Some v /\
  (forall a, List.In a names -> is_varied (iv_characteristics ivs) a = true ->
     exists p f d y x0 x1,
       split_once a = Some (p, f) /\
       (if qlt v 1 then iv_lower ivs else iv_upper ivs) = VDict d /\ d !! f = Some y /\
       vst_attrs st !! a = Some x0 /\ vst_attrs st' !! a = Some x1 /\
       x1 = np_interp01 (Qabs (v - 1)) x0 y /\
       (Qabs (v - 1) < 1 -> x1 = x0 + Qabs (v - 1) * (y - x0)) /\
       Qmin x0 y <= x1 <= Qmax x0 y /\ (1 <= Qabs (v - 1) -> x1 = y)) /\
  (forall a, (List.In a names -> is_varied (iv_characteristics ivs) a = false) ->
     vst_attrs st' !! a = vst_attrs st !! a) /\
  vst_step_variation st' =
    match sv with
    | Some s => Some (Some (mkStepVariationSpec (ge * svs_upper s) (ge * svs_lower s)
                             (svs_distribution s)))
    | None => vst_step_variation st
    end.
Proof.
  intros Hnd Hdict Hg Hv1 H. unfold init_variation in H.
  assert (Hq : Qeq_bool v 1 = false).
  { destruct (Qeq_bool v 1) eqn:E; [|reflexivity]. apply Qeq_bool_iff in E. contradiction. }
  assert (Hstep : forall st0 : variation_state, forall attrs,
    ibind (IOk (set_vst_attrs st0 attrs, r1, false))
      (fun t => let '(st, r, returned) := t in
        if returned then IOk (st, r) else
        match sv with
        | Some s => IOk (set_step_variation st
             (Some (mkStepVariationSpec (ge * svs_upper s) (ge * svs_lower s)
                      (svs_distribution s))) 1, r)
        | None => IOk (st, r)
        end) = IOk (st', r') ->
    vst_attrs st' = attrs /\ vst_initial_variable st' = vst_initial_variable st0 /\
    vst_step_variation st' =
    match sv with
    | Some s => Some (Some (mkStepVariationSpec (ge * svs_upper s) (ge * svs_lower s)
                             (svs_distribution s)))
    | None => vst_step_variation st0
    end).
  { intros st0 attrs E. cbn [ibind] in E.
    destruct sv as [s|]; injection E as <- <-; cbn; repeat split. }
  set (yr := if qlt v 1 then iv_lower ivs else iv_upper ivs).
  assert (Hbody : forall attrs, interp_loop (iv_characteristics ivs) (Qabs (v - 1)) yr names
                    (vst_attrs (set_initial_variable st v)) = IOk attrs ->
           vst_attrs st' = attrs /\ vst_initial_variable st' = Some v /\
           vst_step_variation st' =
             match sv with
             | Some s => Some (Some (mkStepVariationSpec (ge * svs_upper s) (ge * svs_lower s)
                                      (svs_distribution s)))
             | None => vst_step_variation st
             end).
  { intros attrs Hi.
    destruct (iv_upper ivs) as [u|du] eqn:Eu, (iv_lower ivs) as [l|dl] eqn:El;
      [contradiction Hdict| | |];
      rewrite Hg, Hq in H; cbn [ibind] in H; subst yr;
      rewrite Hi in H; exact (Hstep _ _ H). }
  destruct (interp_loop (iv_characteristics ivs) (Qabs (v - 1)) yr names
              (vst_attrs (set_initial_variable st v))) as [attrs|e] eqn:Hi.
  2: { exfalso.
       destruct (iv_upper ivs) as [u|du] eqn:Eu, (iv_lower ivs) as [l|dl] eqn:El;
         [contradiction Hdict| | |];
         rewrite Hg, Hq in H; cbn [ibind] in H; subst yr; rewrite Hi in H; discriminate H. }
  destruct (Hbody attrs eq_refl) as (Ha & Hiv & Hsv).
  pose proof (interp_loop_spec _ _ _ _ _ _ Hnd Hi) as Hspec.
  cbn [vst_attrs set_initial_variable] in Hspec.
  split; [exact Hiv|]. split; [|split; [|exact Hsv]].
  - intros a Hin Hva. pose proof (Hspec a) as Hs.
    rewrite (existsb_eqb_in _ _ Hin), Hva in Hs. cbn [andb] in Hs.
    destruct Hs as (p & f & d & y & x0 & H1 & H2 & H3 & H4 & H5).
    exists p, f, d, y, x0, (np_interp01 (Qabs (v - 1)) x0 y).
    split; [exact H1|]. split; [exact H2|]. split; [exact H3|]. split; [exact H4|].
    split; [rewrite Ha; exact H5|]. split; [reflexivity|]. split.
    + intros Hlt. unfold np_interp01.
      destruct (Qle_bool (Qabs (v - 1)) 0) eqn:E0.
      * apply Qle_bool_iff, Qabs_Qle_condition in E0. exfalso. apply Hv1. lra.
      * destruct (Qle_bool 1 (Qabs (v - 1))) eqn:E1; [|reflexivity].
        apply Qle_bool_iff in E1. exfalso. lra.
    + split; [apply np_interp01_between; apply Qabs_nonneg|].
      intros Hge. unfold np_interp01.
      destruct (Qle_bool (Qabs (v - 1)) 0) eqn:E0.
      * apply Qle_bool_iff in E0. exfalso. lra.
      * apply Qle_bool_iff in Hge. rewrite Hge. reflexivity.
  - intros a Hno. pose proof (Hspec a) as Hs. rewrite Ha.
    destruct (existsb (String.eqb a) names) eqn:Ex.
    + apply existsb_exists in Ex as (b & Hb & Eb). apply String.eqb_eq in Eb. subst b.
      rewrite (Hno Hb) in Hs. exact Hs.
    + exact Hs.
Qed.

(** With per-currency bounds, a draw of exactly 1 makes [_init_variation]
    return at once: [initial_variable] is 1, the attributes are left
    alone, and a configured step variation is never stored ([step_variation]
    and [step_variable] keep whatever they had). *)
Theorem init_variation_unit_draw {rng : Type}
    (get_variable : rng -> Q -> Q -> option string -> option Q -> Q * rng)
    (ge : Q) (names : list string) (ivs : initial_variation) (v : Q)
    (st : variation_state) (r r1 : rng) :
  match iv_upper ivs, iv_lower ivs with VScalar _, VScalar _ => False | _, _ => True end ->
  get_variable r ge ge (iv_distribution ivs) (iv_stdev_range ivs) = (v, r1) -> v == 1 ->
  forall sv, init_variation get_variable ge names (Some ivs) sv st r =
             IOk (set_initial_variable st v, r1).
Proof.
  intros Hdict Hg Hv1 sv. unfold init_variation.
  assert (Hq : Qeq_bool v 1 = true) by (apply Qeq_bool_iff; exact Hv1).
  destruct (iv_upper ivs) as [u|du], (iv_lower ivs) as [l|dl];
    [contradiction Hdict| | |]; rewrite Hg, Hq; reflexivity.
Qed.


Lemma init_variation_scalar_witness :
  match init_variation upper_variable 2 human_variation_names
          (Some (mkInitialVariation (VScalar (3 # 2)) (VScalar (1 # 2)) None None ["mass"]))
          (Some (mkStepVariationSpec (1 # 10) (1 # 10) None)) no_variation_state 0%nat with
  | IOk (st', r') =>
      NoDup human_variation_names /\
      vst_initial_variable st' = Some ((3 # 2) * 2) /\
      vst_attrs st' !! "char_mass" = Some (60 * ((3 # 2) * 2)) /\
      vst_attrs st' !! "char_height" = Some 2 /\
      vst_step_variation st' = Some (Some (mkStepVariationSpec (2 * (1 # 10)) (2 * (1 # 10)) None))
  | IRaise _ => False
  end.
Proof.
  destruct (init_variation upper_variable 2 human_variation_names
          (Some (mkInitialVariation (VScalar (3 # 2)) (VScalar (1 # 2)) None None ["mass"]))
          (Some (mkStepVariationSpec (1 # 10) (1 # 10) None)) no_variation_state 0%nat)
    as [[st' r']|e] eqn:E; [|vm_compute in E; discriminate E].
  assert (Hnd : NoDup human_variation_names).
  { cbn. repeat constructor; intros Hin;
      repeat (inversion Hin as [|? ? ? Hin']; subst; clear Hin; rename Hin' into Hin). }
  destruct (init_variation_scalar upper_variable 2 human_variation_names
              (mkInitialVariation (VScalar (3 # 2)) (VScalar (1 # 2)) None None ["mass"])
              (3 # 2) (1 # 2) (Some (mkStepVariationSpec (1 # 10) (1 # 10) None))
              no_variation_state st' 0%nat r' Hnd eq_refl eq_refl E) as (H1 & H2 & H3 & _).
  split; [exact Hnd|]. split; [rewrite H1; reflexivity|].
  split; [rewrite H2; vm_compute; reflexivity|].
  split; [rewrite H2; vm_compute; reflexivity|rewrite H3; reflexivity].
Defined.

Lemma init_variation_interp_witness :
  match init_variation upper_variable (3 # 2) human_variation_names
          (Some (mkInitialVariation (VDict (<["potable" := 5]> (<["mass" := 80]> ∅)))
                   (VScalar 0) None None ["mass"]))
          None no_variation_state 0%nat with
  | IOk (st', r') =>
      NoDup human_variation_names /\
      (exists x1, vst_attrs st' !! "in_potable" = Some x1 /\ Qmin 3 5 <= x1 <= Qmax 3 5) /\
      vst_attrs st' !! "char_height" = Some 2
  | IRaise _ => False
  end.
Proof.
  destruct (init_variation upper_variable (3 # 2) human_variation_names
          (Some (mkInitialVariation (VDict (<["potable" := 5]> (<["mass" := 80]> ∅)))
                   (VScalar 0) None None ["mass"]))
          None no_variation_state 0%nat) as [[st' r']|e] eqn:E;
    [|vm_compute in E; discriminate E].
  assert (Hnd : NoDup human_variation_names).
  { cbn. repeat constructor; intros Hin;
      repeat (inversion Hin as [|? ? ? Hin']; subst; clear Hin; rename Hin' into Hin). }
  assert (Hv : ~ (3 # 2) == 1) by (intros Hc; discriminate Hc).
  destruct (init_variation_interp upper_variable (3 # 2) human_variation_names
              (mkInitialVariation (VDict (<["potable" := 5]> (<["mass" := 80]> ∅)))
                 (VScalar 0) None None ["mass"])
              (3 # 2) None no_variation_state st' 0%nat 1%nat r' Hnd I eq_refl Hv E)
    as (_ & H2 & H3 & _).
  split; [exact Hnd|]. split.
  - destruct (H2 "in_potable" (or_introl eq_refl) eq_refl)
      as (p & f & d & y & x0 & x1 & Hs & Hd & Hy & Hx0 & Hx1 & _ & _ & Hb & _).
    injection Hs as <- <-. injection Hd as <-. injection Hy as <-. injection Hx0 as <-.
    exists x1. split; [exact Hx1|exact Hb].
  - apply H3. intros _. reflexivity.
Defined.

Lemma init_variation_unit_draw_witness :
  1 == 1 /\
  init_variation upper_variable 1 human_variation_names
    (Some (mkInitialVariation (VDict (<["potable" := 5]> ∅)) (VDict ∅) None None []))
    (Some (mkStepVariationSpec (1 # 10) (1 # 10) None)) no_variation_state 0%nat =
  IOk (set_initial_variable no_variation_state 1, 1%nat).
Proof.
  split; [reflexivity|].
  exact (init_variation_unit_draw upper_variable 1 human_variation_names
           (mkInitialVariation (VDict (<["potable" := 5]> ∅)) (VDict ∅) None None [])
           1 no_variation_state 0%nat 1%nat I eq_refl (Qeq_refl 1)
           (Some (mkStepVariationSpec (1 # 10) (1 # 10) None))).
Defined.
